(** * EV depot charging engine: a shallow embedding of [engine.py]

    The engine simulates charging demand over a grid of fixed-width time
    bins.  This development embeds the tariff resolver, the baseline
    simulator, the greedy scheduler and the savings computation, and proves
    the properties the specification states about them.

    Numbers.  Python floats are read as exact rationals ([Q], compared with
    [==]); the statements are therefore the exact-arithmetic content of the
    properties that the specification qualifies with "within floating
    tolerance".  Timestamps are integers counting nanoseconds since the
    epoch, as pandas stores them. *)

From Stdlib Require Import ZArith QArith Qround Qminmax Lqa Lia.
From stdpp Require Import base option list sorting gmap strings.

(* ===================================================================== *)
(** * Definitions *)
(* ===================================================================== *)

(** ** The pandas and Python primitives the engine uses *)

Module Pandas.

Local Open Scope Q_scope.

(** A [pd.Timestamp]: nanoseconds since the epoch. *)
Definition Timestamp : Type := Z.
Bind Scope Z_scope with Timestamp.

Definition ns_per_second : Z := 1000000000%Z.
Definition ns_per_minute : Z := (60 * ns_per_second)%Z.
Definition ns_per_hour : Z := (60 * ns_per_minute)%Z.

(** [timedelta(minutes=m)] *)
Definition timedelta_minutes (m : Z) : Z := (m * ns_per_minute)%Z.

(** [ts.hour] and [ts.minute] *)
Definition hour (ts : Timestamp) : Z := ((ts / ns_per_hour) mod 24)%Z.
Definition minute (ts : Timestamp) : Z := ((ts / ns_per_minute) mod 60)%Z.

(** [td.total_seconds()] *)
Definition total_seconds (td : Z) : Q := inject_Z td / inject_Z ns_per_second.

(** A [pd.Series]: an ordered index of bin starts and one value per
    label.  [pd.Series(v, index=idx)] is [series_new v idx]. *)
Record Series (V : Type) : Type := mkSeries {
  index : list Timestamp;
  values : gmap Z V
}.
Arguments mkSeries {V} _ _.
Arguments index {V} _.
Arguments values {V} _.

Definition series_new {V} (v : V) (idx : list Timestamp) : Series V :=
  mkSeries idx (list_to_map ((λ t, (t, v)) <$> idx)).

(** [t in s.index] *)
Definition in_index {V} (t : Timestamp) (s : Series V) : bool :=
  bool_decide (t ∈ index s).

(** [s.loc[t]] for a label of the index.  The engine only reads labels
    it took from the index (or guarded by [t in s.index]); for any other
    label pandas raises [KeyError], here the default [d] is returned. *)
Definition loc {V} (d : V) (s : Series V) (t : Timestamp) : V :=
  default d (values s !! t).

(** [s.loc[t] = v] *)
Definition set_loc {V} (s : Series V) (t : Timestamp) (v : V) : Series V :=
  mkSeries (index s) (<[t := v]> (values s)).

(** [s.items()] in index order *)
Definition items {V} (d : V) (s : Series V) : list (Timestamp * V) :=
  (λ t, (t, loc d s t)) <$> index s.

(** [pd.date_range(start, end, freq=f"{bin_minutes}min", inclusive="left")]:
    the labels [start + k * width] that lie before [end].  A frequency
    that is not positive yields no usable grid (pandas rejects 0). *)
Definition grid_size (start stop : Timestamp) (bin_minutes : Z) : nat :=
  Z.to_nat ((stop - start + timedelta_minutes bin_minutes - 1)
            / timedelta_minutes bin_minutes).

Definition date_range_left (start stop : Timestamp) (bin_minutes : Z)
  : list Timestamp :=
  if (0 <? bin_minutes)%Z
  then (λ k : nat, (start + Z.of_nat k * timedelta_minutes bin_minutes)%Z)
         <$> seq 0%nat (grid_size start stop bin_minutes)
  else [].

(** Strict comparison of floats. *)
Definition Qlt_bool (x y : Q) : bool := negb (Qle_bool y x).

(** Truth value of a float: [0.0] is false, anything else true. *)
Definition truthy (x : Q) : bool := negb (Qeq_bool x 0).

(** Float division; [None] stands for [ZeroDivisionError]. *)
Definition py_div (a b : Q) : option Q :=
  if Qeq_bool b 0 then None else Some (a / b).

(** [round(x)] to the nearest integer, ties to the even neighbour. *)
Definition round_half_even (x : Q) : Z :=
  let f := Qfloor x in
  let r := x - inject_Z f in
  match Qcompare r (1 # 2) with
  | Lt => f
  | Gt => (f + 1)%Z
  | Eq => if Z.even f then f else (f + 1)%Z
  end.

(** [round(x, 3)] *)
Definition round3 (x : Q) : Q :=
  inject_Z (round_half_even (x * 1000)) / 1000.

(** [list.remove(x)]: drops the first occurrence.  The engine only removes
    an element it has just picked from the list, so the [ValueError] of a
    missing element does not arise. *)
Fixpoint list_remove (x : Z) (l : list Z) : list Z :=
  match l with
  | [] => []
  | y :: l' => if decide (x = y) then l' else y :: list_remove x l'
  end.

(** A stable sort: an element is placed before the already sorted ones
    it may precede, so equal keys keep their input order, as in
    [list.sort] and in [DataFrame.sort_values] on several columns. *)
Fixpoint insert_sorted {A} (before : A → A → bool) (x : A) (l : list A)
  : list A :=
  match l with
  | [] => [x]
  | y :: l' =>
      if before x y then x :: y :: l' else y :: insert_sorted before x l'
  end.

Fixpoint stable_sort {A} (before : A → A → bool) (l : list A) : list A :=
  match l with
  | [] => []
  | x :: l' => insert_sorted before x (stable_sort before l')
  end.

(** Sum of a list of floats. *)
Definition sumQ (l : list Q) : Q := foldr Qplus 0 l.

End Pandas.
Export Pandas.

(** ** engine.py *)

Module Engine.

Local Open Scope Q_scope.

(** One entry of [tariff.tou_blocks]. *)
Record TouBlock : Type := mkTouBlock {
  start_hour : Q;
  end_hour : Q;
  rate_per_kwh : Q
}.

Record Tariff : Type := mkTariff {
  flat_energy_rate_per_kwh : Q;
  demand_charge_per_kw : Q;
  tou_blocks : list TouBlock
}.

(** A row of the sessions frame. *)
Record Session : Type := mkSession {
  session_id : string;
  vehicle_id : string;
  earliest_start : Timestamp;
  latest_end : Timestamp;
  energy_kwh : Q;
  max_kw : Q
}.

(** [parse_sessions]: keeps the rows with [latest_end > earliest_start]. *)
Definition parse_sessions (rows : list Session) : list Session :=
  filter (λ s, (earliest_start s < latest_end s)%Z) rows.

(** [make_time_index] *)
Definition make_time_index (start stop : Timestamp) (bin_minutes : Z)
  : list Timestamp :=
  date_range_left start stop bin_minutes.

(** *** tou_rate_for_ts *)

(** [h = ts.hour + ts.minute/60.0] *)
Definition hour_of_day (ts : Timestamp) : Q :=
  inject_Z (hour ts) + inject_Z (minute ts) / 60.

(** The [for b in tariff.tou_blocks] loop with its fall-through. *)
Fixpoint tou_scan (h : Q) (blocks : list TouBlock) (flat : Q) : Q :=
  match blocks with
  | [] => flat
  | b :: rest =>
      if Qle_bool (start_hour b) h && Qlt_bool h (end_hour b)
      then rate_per_kwh b
      else tou_scan h rest flat
  end.

Definition tou_rate_for_ts (ts : Timestamp) (tariff : Tariff) : Q :=
  match tou_blocks tariff with
  | [] => flat_energy_rate_per_kwh tariff
  | _ :: _ =>
      tou_scan (hour_of_day ts) (tou_blocks tariff)
               (flat_energy_rate_per_kwh tariff)
  end.

(** *** Shared constants *)

(** The loop tolerance [1e-6]. *)
Definition tol : Q := 1 # 1000000.

(** [bin_hours = bin_minutes/60.0] *)
Definition bin_hours (bin_minutes : Z) : Q := inject_Z bin_minutes / 60.

(** [deliver = min(needed_kwh, kw*bin_hours)], in both simulators. *)
Definition deliver_kwh (needed kw_s : Q) (bin_minutes : Z) : Q :=
  Qmin needed (kw_s * bin_hours bin_minutes).

(** *** baseline_load_curve *)

(** The variables of the per-session [while] loop. *)
Record Walk : Type := mkWalk {
  w_load : Series Q;
  w_needed : Q;
  w_t : Timestamp
}.

(** [needed_kwh > 1e-6 and t < end] *)
Definition baseline_cond (stop : Timestamp) (w : Walk) : bool :=
  Qlt_bool tol (w_needed w) && (w_t w <? stop)%Z.

(** One pass through the loop body. *)
Definition baseline_body (kw_s : Q) (bin_minutes : Z) (w : Walk) : Walk :=
  let t := w_t w in
  let t' := (t + timedelta_minutes bin_minutes)%Z in
  if in_index t (w_load w) then
    let deliver := deliver_kwh (w_needed w) kw_s bin_minutes in
    mkWalk (set_loc (w_load w) t
              (loc 0 (w_load w) t + deliver / bin_hours bin_minutes))
           (w_needed w - deliver) t'
  else mkWalk (w_load w) (w_needed w) t'.

(** The [while] loop; [None] when the fuel runs out before the loop
    condition turns false. *)
Fixpoint baseline_while (fuel : nat) (kw_s : Q) (bin_minutes : Z)
    (stop : Timestamp) (w : Walk) : option Walk :=
  if baseline_cond stop w then
    match fuel with
    | O => None
    | S fuel' =>
        baseline_while fuel' kw_s bin_minutes stop
                       (baseline_body kw_s bin_minutes w)
    end
  else Some w.

(** Number of walk points [t, t + width, ...] before [stop]. *)
Definition walk_steps (t stop : Timestamp) (bin_minutes : Z) : nat :=
  grid_size t stop bin_minutes.

(** The body of [for _, s in sessions.iterrows()]: the updated load and
    the energy still needed when the walk stops. *)
Definition baseline_session (bin_minutes : Z) (load : Series Q)
    (s : Session) : option (Series Q * Q) :=
  w ← baseline_while
        (walk_steps (earliest_start s) (latest_end s) bin_minutes)
        (max_kw s) bin_minutes (latest_end s)
        (mkWalk load (energy_kwh s) (earliest_start s));
  Some (w_load w, w_needed w).

(** Energy the walk delivered to a session. *)
Definition baseline_delivered (s : Session) (remaining : Q) : Q :=
  energy_kwh s - remaining.

Fixpoint baseline_sessions (bin_minutes : Z) (load : Series Q)
    (sessions : list Session) : option (Series Q) :=
  match sessions with
  | [] => Some load
  | s :: rest =>
      r ← baseline_session bin_minutes load s;
      baseline_sessions bin_minutes r.1 rest
  end.

Definition baseline_load_curve (sessions : list Session)
    (time_index : list Timestamp) (bin_minutes : Z) : option (Series Q) :=
  baseline_sessions bin_minutes (series_new 0 time_index) sessions.

(** *** greedy_optimize_schedule *)

(** [ss["window_bins"]]: the window length counted in bins, a float that
    [clip(lower=1)] keeps at 1 or more. *)
Definition window_bins (bin_minutes : Z) (s : Session) : Q :=
  Qmax (total_seconds (latest_end s - earliest_start s) / 60
        / inject_Z bin_minutes) 1.

(** [ss["tightness"]] *)
Definition tightness (bin_minutes : Z) (s : Session) : Q :=
  energy_kwh s
  / (max_kw s * window_bins bin_minutes s * bin_hours bin_minutes).

(** The order of [sort_values(["tightness","earliest_start"],
    ascending=[False,True])]: [a] may stand before [b]. *)
Definition session_before (bin_minutes : Z) (a b : Session) : bool :=
  Qlt_bool (tightness bin_minutes b) (tightness bin_minutes a)
  || (Qeq_bool (tightness bin_minutes a) (tightness bin_minutes b)
      && (earliest_start a <=? earliest_start b)%Z).

Definition sort_sessions (bin_minutes : Z) (sessions : list Session)
  : list Session :=
  stable_sort (session_before bin_minutes) sessions.

(** A dict appended to [rows]. *)
Record ScheduleEntry : Type := mkRow {
  row_session_id : string;
  row_vehicle_id : string;
  bin_start : Timestamp;
  kw : Q;
  kwh : Q
}.

(** What one pass of the allocation loop delivered, before rounding: the
    session being served, the chosen bin, [used_kw] and [deliver].  The
    engine does not keep these values; the embedding records them next
    to each row so that properties of the exact values can be stated. *)
Record Delivery : Type := mkDelivery {
  d_session : Session;
  d_bin : Timestamp;
  d_used_kw : Q;
  d_deliver : Q
}.

(** The row the engine builds from a delivery. *)
Definition row_of_delivery (d : Delivery) : ScheduleEntry :=
  mkRow (session_id (d_session d)) (vehicle_id (d_session d)) (d_bin d)
        (round3 (d_used_kw d)) (round3 (d_deliver d)).

(** The accumulators of a run: [load], [chargers], [rows], and the
    record of exact deliveries. *)
Record Greedy : Type := mkGreedy {
  g_load : Series Q;
  g_chargers : Series Z;
  g_rows : list ScheduleEntry;
  g_trace : list Delivery
}.

(** The variables of the allocation loop of one session. *)
Record Alloc : Type := mkAlloc {
  a_bins : list Timestamp;
  a_needed : Q;
  a_state : Greedy
}.

(** The [for t in bins] scan that builds [feasible]. *)
Fixpoint feasible_bins (st : Greedy) (kw_s cap : Q) (maxc : Z)
    (bins : list Timestamp) : list (Q * Q * Timestamp) :=
  match bins with
  | [] => []
  | t :: rest =>
      if (maxc <=? loc 0%Z (g_chargers st) t)%Z
      then feasible_bins st kw_s cap maxc rest
      else if Qlt_bool cap (loc 0 (g_load st) t + kw_s)
      then feasible_bins st kw_s cap maxc rest
      else (loc 0 (g_load st) t + kw_s, loc 0 (g_load st) t, t)
           :: feasible_bins st kw_s cap maxc rest
  end.

(** The order of [feasible.sort(key=lambda x: (x[0], x[1]))]. *)
Definition key_before (x y : Q * Q * Timestamp) : bool :=
  Qlt_bool x.1.1 y.1.1 || (Qeq_bool x.1.1 y.1.1 && Qle_bool x.1.2 y.1.2).

(** [feasible.sort(...)] and [t = feasible[0][2]]; [None] when
    [feasible] is empty. *)
Definition choose_bin (st : Greedy) (kw_s cap : Q) (maxc : Z)
    (bins : list Timestamp) : option Timestamp :=
  match stable_sort key_before (feasible_bins st kw_s cap maxc bins) with
  | [] => None
  | first :: _ => Some first.2
  end.

(** The rest of the loop body once [t] is chosen: deliver, update both
    accumulators, append the row, reduce [needed_kwh], drop [t]. *)
Definition allocate (s : Session) (bin_minutes : Z) (a : Alloc)
    (t : Timestamp) : Alloc :=
  let st := a_state a in
  let deliver := deliver_kwh (a_needed a) (max_kw s) bin_minutes in
  let used_kw := deliver / bin_hours bin_minutes in
  mkAlloc
    (list_remove t (a_bins a))
    (a_needed a - deliver)
    (mkGreedy
       (set_loc (g_load st) t (loc 0 (g_load st) t + used_kw))
       (set_loc (g_chargers st) t (loc 0%Z (g_chargers st) t + 1)%Z)
       (g_rows st
        ++ [mkRow (session_id s) (vehicle_id s) t
                  (round3 used_kw) (round3 deliver)])
       (g_trace st ++ [mkDelivery s t used_kw deliver])).

(** One pass through the body of [while needed_kwh > 1e-6]; [None] is
    the [break] taken when no bin is feasible. *)
Definition greedy_body (s : Session) (bin_minutes : Z) (cap : Q)
    (maxc : Z) (a : Alloc) : option Alloc :=
  match choose_bin (a_state a) (max_kw s) cap maxc (a_bins a) with
  | None => None
  | Some t => Some (allocate s bin_minutes a t)
  end.

(** The [while] loop; [None] when the fuel runs out first. *)
Fixpoint greedy_while (fuel : nat) (s : Session) (bin_minutes : Z)
    (cap : Q) (maxc : Z) (a : Alloc) : option Alloc :=
  if Qlt_bool tol (a_needed a) then
    match fuel with
    | O => None
    | S fuel' =>
        match greedy_body s bin_minutes cap maxc a with
        | None => Some a
        | Some a' => greedy_while fuel' s bin_minutes cap maxc a'
        end
    end
  else Some a.

(** [bins = [t for t in time_index if t >= earliest_start and
    t < latest_end]] *)
Definition session_bins (time_index : list Timestamp) (s : Session)
  : list Timestamp :=
  filter (λ t, (earliest_start s ≤ t ∧ t < latest_end s)%Z) time_index.

(** The body of [for _, s in ss.iterrows()]. *)
Definition greedy_session (time_index : list Timestamp) (bin_minutes : Z)
    (cap : Q) (maxc : Z) (st : Greedy) (s : Session) : option Greedy :=
  match session_bins time_index s with
  | [] => Some st
  | bins =>
      a ← greedy_while (S (length bins)) s bin_minutes cap maxc
            (mkAlloc bins (energy_kwh s) st);
      Some (a_state a)
  end.

Fixpoint greedy_sessions (time_index : list Timestamp) (bin_minutes : Z)
    (cap : Q) (maxc : Z) (st : Greedy) (sessions : list Session)
  : option Greedy :=
  match sessions with
  | [] => Some st
  | s :: rest =>
      st' ← greedy_session time_index bin_minutes cap maxc st s;
      greedy_sessions time_index bin_minutes cap maxc st' rest
  end.

Definition greedy_init (time_index : list Timestamp) : Greedy :=
  mkGreedy (series_new 0 time_index) (series_new 0%Z time_index) [] [].

(** The whole run, with its internal accumulators. *)
Definition greedy_run (sessions : list Session)
    (time_index : list Timestamp) (bin_minutes : Z)
    (depot_power_cap_kw : Q) (max_concurrent_chargers : Z)
  : option Greedy :=
  greedy_sessions time_index bin_minutes depot_power_cap_kw
    max_concurrent_chargers (greedy_init time_index)
    (sort_sessions bin_minutes sessions).

(** What the function returns: [(schedule, load)]. *)
Definition greedy_optimize_schedule (sessions : list Session)
    (time_index : list Timestamp) (bin_minutes : Z)
    (depot_power_cap_kw : Q) (max_concurrent_chargers : Z)
  : option (list ScheduleEntry * Series Q) :=
  st ← greedy_run sessions time_index bin_minutes depot_power_cap_kw
         max_concurrent_chargers;
  Some (g_rows st, g_load st).

(** *** estimate_costs *)

Record CostBreakdown : Type := mkCosts {
  total_kwh : Q;
  peak_kw : Q;
  energy_cost : Q;
  demand_charge_cost : Q;
  total_cost : Q
}.

(** [load_kw.max() if len(load_kw) else 0.0] *)
Definition series_peak (load_kw : Series Q) : Q :=
  match (items 0 load_kw).*2 with
  | [] => 0
  | v :: rest => foldl Qmax v rest
  end.

Definition estimate_costs (load_kw : Series Q) (tariff : Tariff)
    (bin_minutes : Z) : CostBreakdown :=
  let acc :=
    foldl (λ (acc : Q * Q) (it : Timestamp * Q),
             let kwh_bin := it.2 * bin_hours bin_minutes in
             (acc.1 + kwh_bin,
              acc.2 + kwh_bin * tou_rate_for_ts it.1 tariff))
          (0, 0) (items 0 load_kw) in
  let peak := series_peak load_kw in
  let demand_cost := peak * demand_charge_per_kw tariff in
  mkCosts acc.1 peak acc.2 demand_cost (acc.2 + demand_cost).

End Engine.
Export Engine.

(** ** The savings block of run_demo.py ([main]) and app.py ([scenario]) *)

Module Scenario.

Local Open Scope Q_scope.

Record Savings : Type := mkSavings {
  peak_kw_reduction_pct : Q;
  total_cost_savings : Q;
  total_cost_savings_pct : Q
}.

(** [(1 - c/b) * 100 if b else 0]; the division is the partial
    [py_div], so an unguarded zero divisor would show as [None]. *)
Definition reduction_pct (c b : Q) : option Q :=
  if truthy b then r ← py_div c b; Some ((1 - r) * 100) else Some 0.

Definition savings (base_costs costs : CostBreakdown) : option Savings :=
  p ← reduction_pct (peak_kw costs) (peak_kw base_costs);
  c ← reduction_pct (total_cost costs) (total_cost base_costs);
  Some (mkSavings p (total_cost base_costs - total_cost costs) c).

End Scenario.
Export Scenario.

(** ** Concrete inputs used to exercise the statements *)

Module Samples.

Local Open Scope Q_scope.

Definition minutes (m : Z) : Timestamp := timedelta_minutes m.
Definition hours (h : Z) : Timestamp := (h * ns_per_hour)%Z.

(** A tariff whose second and third blocks overlap from 13:00 to 14:00. *)
Definition overlapping_tariff : Tariff :=
  mkTariff 1 2 [mkTouBlock 0 12 5; mkTouBlock 12 14 7; mkTouBlock 13 20 9].

(** 13:30 on the first day of the epoch. *)
Definition half_past_one : Timestamp := (hours 13 + minutes 30)%Z.

(** Two sessions arriving at 18:00, with windows of 20 and 30 minutes. *)
Definition short_window : Session :=
  mkSession "A" "VA" (hours 18) (hours 18 + minutes 20) 4 10.
Definition half_hour_window : Session :=
  mkSession "B" "VB" (hours 18) (hours 18 + minutes 30) 5 10.

(** A grid of four 7-minute bins and one session spanning it. *)
Definition four_bins : list Timestamp := make_time_index 0 (minutes 28) 7.
Definition ten_kwh : Session :=
  mkSession "S1" "V1" 0 (minutes 28) 10 22.

(** A day of 15-minute bins, and a one-hour session at 10 kW that asks
    for 20 kWh. *)
Definition day_grid : list Timestamp := make_time_index 0 (hours 24) 15.
Definition one_hour_20kwh : Session :=
  mkSession "B1" "V1" (hours 18) (hours 19) 20 10.
(** The same hour, asking for 8 kWh. *)
Definition one_hour_8kwh : Session :=
  mkSession "B2" "V2" (hours 18) (hours 19) 8 10.

(** A four-hour session at 10 kW asking for 10 kWh, arriving at 18:05,
    off the 15-minute grid. *)
Definition arrives_1805 : Session :=
  mkSession "B3" "V3" (hours 18 + minutes 5) (hours 22 + minutes 5) 10 10.

End Samples.

(** ** The priority formulas in the words of the specification

    Only used to compare with the engine's [window_bins] and [tightness]. *)

Module SpecWords.

Local Open Scope Q_scope.

(** "window_bins = max(1, ceil((latest_end - earliest_start) / bin_width))" *)
Definition window_bins_spec (bin_minutes : Z) (s : Session) : Q :=
  Qmax 1 (inject_Z (Qceiling
    (inject_Z (latest_end s - earliest_start s)
     / inject_Z (timedelta_minutes bin_minutes)))).

(** "tightness = energy_kwh / (max_kw * window_bins * bin_hours)" *)
Definition tightness_spec (bin_minutes : Z) (s : Session) : Q :=
  energy_kwh s
  / (max_kw s * window_bins_spec bin_minutes s * bin_hours bin_minutes).

End SpecWords.

(** ** Predicates used in the statements *)

Module Props.

Local Open Scope Q_scope.

(** A block covers the hour [h]: [start_hour <= h < end_hour]. *)
Definition block_matches (h : Q) (b : TouBlock) : Prop :=
  start_hour b <= h ∧ h < end_hour b.

(** The order in which the scheduler takes sessions: tighter first,
    and among equally tight ones the earlier [earliest_start] first. *)
Definition session_precedes (bin_minutes : Z) (a b : Session) : Prop :=
  tightness bin_minutes b < tightness bin_minutes a
  ∨ (tightness bin_minutes a == tightness bin_minutes b
     ∧ (earliest_start a ≤ earliest_start b)%Z).

(** The deliveries made into bin [t]. *)
Definition deliveries_at (t : Timestamp) (trace : list Delivery)
  : list Delivery :=
  filter (λ d, d_bin d = t) trace.

(** The (session, bin) pair a row of the schedule stands for. *)
Definition row_key (r : ScheduleEntry) : string * Timestamp :=
  (row_session_id r, bin_start r).

(** No bin holds more chargers than allowed or more load than the cap. *)
Definition within_limits (cap : Q) (maxc : Z) (st : Greedy) : Prop :=
  ∀ t, (loc 0%Z (g_chargers st) t ≤ maxc)%Z ∧ loc 0 (g_load st) t <= cap.

(** The same, for the bins that received a delivery. *)
Definition used_bins_within_limits (cap : Q) (maxc : Z) (st : Greedy)
  : Prop :=
  ∀ t, deliveries_at t (g_trace st) ≠ [] →
       (loc 0%Z (g_chargers st) t ≤ maxc)%Z ∧ loc 0 (g_load st) t <= cap.

(** The deliveries made for one session: all for that session, into
    pairwise distinct bins of its window. *)
Definition session_block (time_index : list Timestamp) (s : Session)
    (block : list Delivery) : Prop :=
  Forall (λ d, d_session d = s ∧ d_bin d ∈ session_bins time_index s)
         block
  ∧ NoDup (d_bin <$> block).

(** The accumulators agree with the record of deliveries: the rows are
    the rounded deliveries, the load of a bin is the sum of the exact
    [used_kw] delivered into it, and its charger count is the number of
    deliveries into it. *)
Definition accounts_for_trace (st : Greedy) : Prop :=
  g_rows st = row_of_delivery <$> g_trace st
  ∧ ∀ t,
      loc 0 (g_load st) t
      == sumQ (d_used_kw <$> deliveries_at t (g_trace st))
      ∧ loc 0%Z (g_chargers st) t
        = Z.of_nat (length (deliveries_at t (g_trace st))).

(** A delivery is exact: it belongs to an input session, its energy is
    its power times the bin length, and its power is at most the
    session's rate. *)
Definition exact_delivery (sessions : list Session) (bin_minutes : Z)
    (d : Delivery) : Prop :=
  d_session d ∈ sessions
  ∧ d_deliver d == d_used_kw d * bin_hours bin_minutes
  ∧ d_used_kw d <= max_kw (d_session d).

(** The walk points of a session, [earliest_start + k * width] before
    [latest_end], are all bin starts of the index. *)
Definition walk_on_grid (bin_minutes : Z) (idx : list Timestamp)
    (s : Session) : Prop :=
  ∀ k : Z, (0 ≤ k)%Z →
    (earliest_start s + k * timedelta_minutes bin_minutes
     < latest_end s)%Z →
    (earliest_start s + k * timedelta_minutes bin_minutes)%Z ∈ idx.

(** The session asks for no more than its rate can supply over its walk
    points. *)
Definition fits_window (bin_minutes : Z) (s : Session) : Prop :=
  energy_kwh s
  <= max_kw s * bin_hours bin_minutes
     * inject_Z (Z.of_nat (walk_steps (earliest_start s) (latest_end s)
                             bin_minutes)).

(** The session's window lies inside the span of the grid
    [start, stop). *)
Definition window_inside (start stop : Timestamp) (s : Session) : Prop :=
  (start ≤ earliest_start s ∧ latest_end s ≤ stop)%Z.

(** Energy held by a load curve: the sum over its bins of load times
    bin length. *)
Definition curve_kwh (bin_minutes : Z) (load : Series Q) : Q :=
  sumQ (loc 0 load <$> index load) * bin_hours bin_minutes.

End Props.
Export Props.

(** ** run_demo.py ([main]) and app.py: the grid of the day and a scenario *)

Module Demo.

Local Open Scope Q_scope.

Definition ns_per_day : Z := (24 * ns_per_hour)%Z.

(** [ts.floor("D")]: midnight of the day of [ts]. *)
Definition floor_day (ts : Timestamp) : Timestamp :=
  (ts - ts mod ns_per_day)%Z.

(** [sessions["earliest_start"].min()]; [None] for an empty frame, where
    pandas yields [NaT] and the construction of the grid fails. *)
Definition min_earliest_start (sessions : list Session) : option Timestamp :=
  match sessions with
  | [] => None
  | s :: rest =>
      Some (foldl Z.min (earliest_start s) (earliest_start <$> rest))
  end.

(** [t0 = sessions["earliest_start"].min().floor("D")],
    [t1 = t0 + pd.Timedelta(hours=24)],
    [idx = make_time_index(t0, t1, bin_minutes)] *)
Definition day_time_index (sessions : list Session) (bin_minutes : Z)
  : option (list Timestamp) :=
  t0 ← floor_day <$> min_earliest_start sessions;
  Some (make_time_index t0 (t0 + ns_per_day) bin_minutes).

(** [scenario(cap_kw)] of app.py, which is also the body of the loop over
    [cfg["savings_scenarios"]] in run_demo.py: schedule, load, costs and
    savings for one depot power cap. *)
Definition scenario (sessions : list Session) (idx : list Timestamp)
    (bin_minutes : Z) (tariff : Tariff) (max_concurrent : Z)
    (base_costs : CostBreakdown) (cap_kw : Q)
  : option (list ScheduleEntry * Series Q * CostBreakdown * Savings) :=
  r ← greedy_optimize_schedule sessions idx bin_minutes cap_kw
         max_concurrent;
  let costs := estimate_costs r.2 tariff bin_minutes in
  sv ← savings base_costs costs;
  Some (r.1, r.2, costs, sv).


End Demo.
Export Demo.

(** ** Further predicates used in the statements *)

Module MoreProps.

Local Open Scope Q_scope.

(** A bin the session could be placed in: a charger slot is free and the
    session's full rate fits under the cap. *)
Definition feasible (st : Greedy) (kw_s cap : Q) (maxc : Z) (t : Timestamp)
  : Prop :=
  (loc 0%Z (g_chargers st) t < maxc)%Z ∧ loc 0 (g_load st) t + kw_s <= cap.

(** Two sessions the priority order does not tell apart. *)
Definition same_priority (bin_minutes : Z) (a b : Session) : Prop :=
  tightness bin_minutes a == tightness bin_minutes b
  ∧ earliest_start a = earliest_start b.

#[global] Instance same_priority_dec (bin_minutes : Z) (a b : Session) :
  Decision (same_priority bin_minutes a b).
Proof.
  unfold same_priority.
  destruct (Qeq_dec (tightness bin_minutes a) (tightness bin_minutes b));
    [|right; tauto].
  destruct (decide (earliest_start a = earliest_start b));
    [left; tauto | right; tauto].
Defined.

(** The number of bins of a day: [ceil(1440 / bin_minutes)]. *)
Definition bins_per_day (bin_minutes : Z) : nat :=
  Z.to_nat ((1440 + bin_minutes - 1) / bin_minutes).

(** A tariff without the blocks whose end is not after their start. *)
Definition drop_empty_blocks (tariff : Tariff) : Tariff :=
  mkTariff (flat_energy_rate_per_kwh tariff) (demand_charge_per_kw tariff)
           (filter (λ b, Qlt_bool (start_hour b) (end_hour b) = true)
                   (tou_blocks tariff)).

(** The minute of the day of a timestamp. *)
Definition minute_of_day (ts : Timestamp) : Z :=
  ((ts / ns_per_minute) mod 1440)%Z.

(** A delivery at the session's full rate for a whole bin. *)
Definition full_delivery (bin_minutes : Z) (d : Delivery) : Prop :=
  d_deliver d == max_kw (d_session d) * bin_hours bin_minutes.

End MoreProps.
Export MoreProps.

(* ===================================================================== *)
(** * Theorems *)
(* ===================================================================== *)

Local Open Scope Q_scope.

(** ** Comparisons on floats *)

Lemma Qlt_bool_iff (x y : Q) : Qlt_bool x y = true ↔ x < y.
Proof.
  unfold Qlt_bool. rewrite negb_true_iff, <- not_true_iff_false, Qle_bool_iff.
  split; [apply Qnot_le_lt | apply Qlt_not_le].
Qed.

Lemma Qlt_bool_false (x y : Q) : Qlt_bool x y = false ↔ y <= x.
Proof.
  unfold Qlt_bool. rewrite negb_false_iff. apply Qle_bool_iff.
Qed.

Lemma Qle_bool_false (x y : Q) : Qle_bool x y = false ↔ y < x.
Proof.
  rewrite <- not_true_iff_false, Qle_bool_iff.
  split; [apply Qnot_le_lt | apply Qlt_not_le].
Qed.

Lemma Qeq_bool_false (x y : Q) : Qeq_bool x y = false ↔ ¬ x == y.
Proof. rewrite <- not_true_iff_false, Qeq_bool_iff. tauto. Qed.

(** ** TariffModel: [tou_rate_for_ts] *)

Lemma block_test_iff (h : Q) (b : TouBlock) :
  Qle_bool (start_hour b) h && Qlt_bool h (end_hour b) = true
  ↔ block_matches h b.
Proof.
  unfold block_matches.
  rewrite andb_true_iff, Qle_bool_iff, Qlt_bool_iff. tauto.
Qed.

Lemma tou_scan_no_match (h flat : Q) (blocks : list TouBlock) :
  Forall (λ b, ¬ block_matches h b) blocks → tou_scan h blocks flat = flat.
Proof.
  induction 1 as [|b rest Hb _ IH]; simpl; [reflexivity|].
  destruct (Qle_bool (start_hour b) h && Qlt_bool h (end_hour b)) eqn:E.
  - apply block_test_iff in E. contradiction.
  - exact IH.
Qed.

Lemma tou_scan_first_match (h flat : Q) (pre post : list TouBlock)
    (b : TouBlock) :
  Forall (λ b', ¬ block_matches h b') pre → block_matches h b →
  tou_scan h (pre ++ b :: post) flat = rate_per_kwh b.
Proof.
  intros Hpre Hb. induction Hpre as [|b' pre Hb' _ IH]; simpl.
  - apply block_test_iff in Hb. rewrite Hb. reflexivity.
  - destruct (Qle_bool (start_hour b') h && Qlt_bool h (end_hour b')) eqn:E.
    + apply block_test_iff in E. contradiction.
    + exact IH.
Qed.

(** The hour of day is [hour + minute/60]: it lies in [0, 24) and ignores
    seconds. *)
Lemma hour_of_day_range (ts : Timestamp) : 0 <= hour_of_day ts < 24.
Proof.
  unfold hour_of_day, hour, minute.
  pose proof (Z.mod_pos_bound (ts / ns_per_hour) 24 eq_refl) as [H1 H2].
  pose proof (Z.mod_pos_bound (ts / ns_per_minute) 60 eq_refl) as [H3 H4].
  set (a := ((ts / ns_per_hour) mod 24)%Z) in *.
  set (b := ((ts / ns_per_minute) mod 60)%Z) in *.
  assert (0 <= inject_Z a) by (rewrite Zle_Qle in H1; exact H1).
  assert (inject_Z a <= 23)
    by (assert (a <= 23)%Z as H' by lia; rewrite Zle_Qle in H'; exact H').
  assert (0 <= inject_Z b) by (rewrite Zle_Qle in H3; exact H3).
  assert (inject_Z b <= 59)
    by (assert (b <= 59)%Z as H' by lia; rewrite Zle_Qle in H'; exact H').
  change (inject_Z b / 60) with (inject_Z b * (1 # 60)).
  split; lra.
Qed.

(** C6.  The rate resolver returns the flat rate when no time-of-use block
    is configured; otherwise it returns the rate of the first block, in
    configuration order, with [start_hour <= hour_of_day < end_hour] (every
    earlier block fails the test, later blocks are not consulted, so the
    first match wins when blocks overlap), and the flat rate when no block
    matches. *)
Theorem tou_rate_first_match_wins (ts : Timestamp) (tariff : Tariff) :
  (tou_blocks tariff = [] →
   tou_rate_for_ts ts tariff = flat_energy_rate_per_kwh tariff)
  ∧ (∀ pre b post,
       tou_blocks tariff = pre ++ b :: post →
       Forall (λ b', ¬ block_matches (hour_of_day ts) b') pre →
       block_matches (hour_of_day ts) b →
       tou_rate_for_ts ts tariff = rate_per_kwh b)
  ∧ (Forall (λ b, ¬ block_matches (hour_of_day ts) b) (tou_blocks tariff) →
     tou_rate_for_ts ts tariff = flat_energy_rate_per_kwh tariff).
Proof.
  unfold tou_rate_for_ts. repeat split.
  - intros ->. reflexivity.
  - intros pre b post Heq Hpre Hb.
    destruct (tou_blocks tariff) as [|b0 rest] eqn:E.
    + destruct pre; discriminate.
    + rewrite Heq. apply tou_scan_first_match; assumption.
  - intros Hnone. destruct (tou_blocks tariff) as [|b0 rest]; [reflexivity|].
    apply tou_scan_no_match. exact Hnone.
Qed.

(** At 13:30 the blocks 12-14 and 13-20 both match; the earlier one is
    taken. *)
Lemma tou_rate_first_match_wins_witness :
  tou_rate_for_ts Samples.half_past_one Samples.overlapping_tariff = 7.
Proof.
  apply (proj1 (proj2 (tou_rate_first_match_wins Samples.half_past_one
                         Samples.overlapping_tariff))
           [mkTouBlock 0 12 5] (mkTouBlock 12 14 7) [mkTouBlock 13 20 9]).
  - reflexivity.
  - constructor; [|constructor].
    intros [_ H]. vm_compute in H. discriminate H.
  - split; vm_compute; [intros H; discriminate H | reflexivity].
Defined.

(** ** ScenarioComparator: the savings percentages *)

Lemma reduction_pct_total (c b : Q) :
  ∃ p, reduction_pct c b = Some p ∧ (b == 0 → p = 0).
Proof.
  unfold reduction_pct, truthy, py_div.
  destruct (Qeq_bool b 0) eqn:E; simpl.
  - eexists; split; [reflexivity | reflexivity].
  - eexists; split; [reflexivity|].
    intros Hb. apply Qeq_bool_false in E. contradiction.
Qed.

(** C7.  The savings computation never divides by zero (it always yields
    a result, although division by zero is an error), the peak reduction
    percentage is 0 when the baseline peak is 0, and the cost savings
    percentage is 0 when the baseline total cost is 0. *)
Theorem savings_guards_zero_baseline (base_costs costs : CostBreakdown) :
  ∃ sv, savings base_costs costs = Some sv
        ∧ (peak_kw base_costs == 0 → peak_kw_reduction_pct sv = 0)
        ∧ (total_cost base_costs == 0 → total_cost_savings_pct sv = 0).
Proof.
  unfold savings.
  destruct (reduction_pct_total (peak_kw costs) (peak_kw base_costs))
    as (p & -> & Hp).
  destruct (reduction_pct_total (total_cost costs) (total_cost base_costs))
    as (c & -> & Hc).
  simpl. eexists; split; [reflexivity|]. simpl. split; assumption.
Qed.

Lemma savings_guards_zero_baseline_witness :
  ∃ sv, savings (mkCosts 0 0 0 0 0) (mkCosts 1 1 1 1 1) = Some sv
        ∧ peak_kw_reduction_pct sv = 0 ∧ total_cost_savings_pct sv = 0.
Proof.
  destruct (savings_guards_zero_baseline (mkCosts 0 0 0 0 0)
              (mkCosts 1 1 1 1 1)) as (sv & Hsv & Hp & Hc).
  exists sv. split; [exact Hsv|].
  split; [apply Hp | apply Hc]; reflexivity.
Defined.

(** ** The stable sort *)

Section StableSort.

Context {A : Type} (before : A → A → bool).

Lemma insert_sorted_Permutation (x : A) (l : list A) :
  insert_sorted before x l ≡ₚ x :: l.
Proof.
  induction l as [|y l IH]; simpl; [reflexivity|].
  destruct (before x y); [reflexivity|].
  rewrite IH. apply Permutation_swap.
Qed.

Lemma stable_sort_Permutation (l : list A) : stable_sort before l ≡ₚ l.
Proof.
  induction l as [|x l IH]; simpl; [reflexivity|].
  rewrite insert_sorted_Permutation, IH. reflexivity.
Qed.

Lemma stable_sort_nil_inv (l : list A) : stable_sort before l = [] → l = [].
Proof.
  intros H. apply Permutation_nil_r. rewrite <- H.
  symmetry. apply stable_sort_Permutation.
Qed.

Lemma stable_sort_head (l : list A) (x : A) (rest : list A) :
  stable_sort before l = x :: rest → x ∈ l.
Proof.
  intros H. rewrite <- (stable_sort_Permutation l), H. left.
Qed.

Lemma insert_sorted_StronglySorted (x : A) (l : list A) :
  (∀ a b, before a b = false → before b a = true) →
  (∀ a b c, before a b = true → before b c = true → before a c = true) →
  StronglySorted (λ a b, before a b = true) l →
  StronglySorted (λ a b, before a b = true) (insert_sorted before x l).
Proof.
  intros Htot Htrans. induction 1 as [|y l Hl IH Hy]; simpl.
  - repeat constructor.
  - destruct (before x y) eqn:E.
    + constructor; [constructor; assumption|].
      constructor; [exact E|].
      eapply Forall_impl; [exact Hy|]. intros z Hz. simpl in Hz.
      eapply Htrans; eassumption.
    + constructor; [exact IH|].
      rewrite (insert_sorted_Permutation x l).
      constructor; [apply Htot; exact E | exact Hy].
Qed.

Lemma stable_sort_StronglySorted (l : list A) :
  (∀ a b, before a b = false → before b a = true) →
  (∀ a b c, before a b = true → before b c = true → before a c = true) →
  StronglySorted (λ a b, before a b = true) (stable_sort before l).
Proof.
  intros Htot Htrans. induction l as [|x l IH]; simpl.
  - constructor.
  - apply insert_sorted_StronglySorted; assumption.
Qed.

(** Stability: a row that may precede all the sorted rows after it
    stays in front of them. *)
Lemma insert_sorted_first (x : A) (l : list A) :
  Forall (λ y, before x y = true) l → insert_sorted before x l = x :: l.
Proof.
  destruct 1 as [|y l Hy _]; simpl; [reflexivity|]. rewrite Hy. reflexivity.
Qed.

End StableSort.

(** ** The time grid *)

Lemma make_time_index_NoDup (start stop : Timestamp) (bin_minutes : Z) :
  NoDup (make_time_index start stop bin_minutes).
Proof.
  unfold make_time_index, date_range_left.
  destruct (0 <? bin_minutes)%Z eqn:E; [|constructor].
  apply Z.ltb_lt in E.
  assert (0 < timedelta_minutes bin_minutes)%Z as Hstep.
  { unfold timedelta_minutes. change ns_per_minute with 60000000000%Z. lia. }
  apply NoDup_fmap_2; [|apply NoDup_seq].
  intros i j Hij. nia.
Qed.

(** ** Series *)

Lemma loc_set_loc {V} (d : V) (s : Series V) (t t' : Timestamp) (v : V) :
  loc d (set_loc s t v) t' = if decide (t = t') then v else loc d s t'.
Proof.
  unfold loc, set_loc; simpl. rewrite lookup_insert.
  destruct (decide (t = t')); reflexivity.
Qed.

Lemma loc_set_loc_eq {V} (d : V) (s : Series V) (t : Timestamp) (v : V) :
  loc d (set_loc s t v) t = v.
Proof. rewrite loc_set_loc. destruct (decide (t = t)); congruence. Qed.

Lemma loc_set_loc_ne {V} (d : V) (s : Series V) (t t' : Timestamp) (v : V) :
  t ≠ t' → loc d (set_loc s t v) t' = loc d s t'.
Proof. intros. rewrite loc_set_loc. destruct (decide (t = t')); congruence. Qed.

Lemma loc_series_new {V} (d : V) (idx : list Timestamp) (t : Timestamp) :
  loc d (series_new d idx) t = d.
Proof.
  unfold loc, series_new; simpl.
  induction idx as [|t0 idx IH]; simpl.
  - rewrite lookup_empty. reflexivity.
  - rewrite lookup_insert. destruct (decide (t0 = t)); [reflexivity | exact IH].
Qed.

Lemma index_set_loc {V} (s : Series V) (t : Timestamp) (v : V) :
  index (set_loc s t v) = index s.
Proof. reflexivity. Qed.

Lemma in_index_true {V} (t : Timestamp) (s : Series V) :
  in_index t s = true ↔ t ∈ index s.
Proof. unfold in_index. apply bool_decide_eq_true. Qed.

(** ** [list.remove] *)

Lemma list_remove_length (t : Z) (l : list Z) :
  t ∈ l → S (length (list_remove t l)) = length l.
Proof.
  induction l as [|y l IH]; simpl; intros Hin.
  - inversion Hin.
  - destruct (decide (t = y)); [reflexivity|]. simpl. f_equal. apply IH.
    apply elem_of_cons in Hin as [?|?]; [contradiction | assumption].
Qed.

Lemma list_remove_subseteq (t x : Z) (l : list Z) :
  x ∈ list_remove t l → x ∈ l.
Proof.
  induction l as [|y l IH]; simpl; [tauto|].
  destruct (decide (t = y)).
  - intros. right. assumption.
  - rewrite !elem_of_cons. intros [->|H]; [left; reflexivity | right; auto].
Qed.

Lemma list_remove_NoDup (t : Z) (l : list Z) :
  NoDup l → NoDup (list_remove t l) ∧ t ∉ list_remove t l.
Proof.
  induction 1 as [|y l Hy Hl IH]; simpl.
  - split; [constructor | inversion 1].
  - destruct (decide (t = y)) as [->|Hne].
    + split; assumption.
    + destruct IH as [IH1 IH2]. split.
      * constructor; [|exact IH1].
        intros Hin. apply Hy. eapply list_remove_subseteq; eassumption.
      * rewrite elem_of_cons. intros [?|?]; [contradiction | auto].
Qed.

(** ** The allocation loop of the greedy scheduler *)

Lemma feasible_bins_elem (st : Greedy) (kw_s cap : Q) (maxc : Z)
    (bins : list Timestamp) (x : Q * Q * Timestamp) :
  x ∈ feasible_bins st kw_s cap maxc bins →
  x.2 ∈ bins
  ∧ (loc 0%Z (g_chargers st) x.2 < maxc)%Z
  ∧ loc 0 (g_load st) x.2 + kw_s <= cap.
Proof.
  induction bins as [|t rest IH]; simpl.
  - inversion 1.
  - destruct (maxc <=? loc 0%Z (g_chargers st) t)%Z eqn:Ec.
    { intros H. destruct (IH H) as (? & ? & ?). split; [right|]; auto. }
    destruct (Qlt_bool cap (loc 0 (g_load st) t + kw_s)) eqn:El.
    { intros H. destruct (IH H) as (? & ? & ?). split; [right|]; auto. }
    rewrite elem_of_cons. intros [->|H]; simpl.
    + apply Z.leb_gt in Ec. apply Qlt_bool_false in El.
      split; [left|]; auto.
    + destruct (IH H) as (? & ? & ?). split; [right|]; auto.
Qed.

(** The chosen bin is one of the session's remaining bins, with a free
    charger slot and room for the session's full rate under the cap. *)
Lemma choose_bin_Some (st : Greedy) (kw_s cap : Q) (maxc : Z)
    (bins : list Timestamp) (t : Timestamp) :
  choose_bin st kw_s cap maxc bins = Some t →
  t ∈ bins
  ∧ (loc 0%Z (g_chargers st) t < maxc)%Z
  ∧ loc 0 (g_load st) t + kw_s <= cap.
Proof.
  unfold choose_bin.
  destruct (stable_sort key_before (feasible_bins st kw_s cap maxc bins))
    as [|first rest] eqn:E; [discriminate|].
  intros [= <-]. apply feasible_bins_elem.
  eapply stable_sort_head. exact E.
Qed.

(** Loop invariants: what every pass of the body preserves holds when the
    loop stops. *)
Lemma greedy_while_inv (I : Alloc → Prop) (s : Session) (bin_minutes : Z)
    (cap : Q) (maxc : Z) :
  (∀ a t, tol < a_needed a →
          choose_bin (a_state a) (max_kw s) cap maxc (a_bins a) = Some t →
          I a → I (allocate s bin_minutes a t)) →
  ∀ fuel a a',
    greedy_while fuel s bin_minutes cap maxc a = Some a' → I a → I a'.
Proof.
  intros Hstep. induction fuel as [|fuel IH]; intros a a'; simpl.
  - destruct (Qlt_bool tol (a_needed a)); [discriminate|].
    intros [= <-]. auto.
  - destruct (Qlt_bool tol (a_needed a)) eqn:En; [|intros [= <-]; auto].
    unfold greedy_body.
    destruct (choose_bin (a_state a) (max_kw s) cap maxc (a_bins a))
      as [t|] eqn:Ec; [|intros [= <-]; auto].
    intros Hrun HI. apply (IH _ _ Hrun).
    apply Hstep; [apply Qlt_bool_iff; exact En | exact Ec | exact HI].
Qed.

(** Every pass removes one bin from the candidate list. *)
Lemma greedy_body_shrinks (s : Session) (bin_minutes : Z) (cap : Q)
    (maxc : Z) (a a' : Alloc) :
  greedy_body s bin_minutes cap maxc a = Some a' →
  S (length (a_bins a')) = length (a_bins a).
Proof.
  unfold greedy_body.
  destruct (choose_bin (a_state a) (max_kw s) cap maxc (a_bins a))
    as [t|] eqn:Ec; [|discriminate].
  intros [= <-]. simpl. apply list_remove_length.
  apply choose_bin_Some in Ec. tauto.
Qed.

(** With more fuel than candidate bins the loop stops by itself. *)
Lemma greedy_while_total (s : Session) (bin_minutes : Z) (cap : Q)
    (maxc : Z) (fuel : nat) (a : Alloc) :
  (length (a_bins a) < fuel)%nat →
  is_Some (greedy_while fuel s bin_minutes cap maxc a).
Proof.
  revert a. induction fuel as [|fuel IH]; intros a Hlen; [lia|]. simpl.
  destruct (Qlt_bool tol (a_needed a)); [|eexists; reflexivity].
  destruct (greedy_body s bin_minutes cap maxc a) as [a'|] eqn:Eb;
    [|eexists; reflexivity].
  apply IH. apply greedy_body_shrinks in Eb. lia.
Qed.

(** More fuel does not change a result. *)
Lemma greedy_while_fuel_mono (s : Session) (bin_minutes : Z) (cap : Q)
    (maxc : Z) (fuel fuel' : nat) (a r : Alloc) :
  greedy_while fuel s bin_minutes cap maxc a = Some r →
  (fuel <= fuel')%nat →
  greedy_while fuel' s bin_minutes cap maxc a = Some r.
Proof.
  revert fuel' a. induction fuel as [|fuel IH]; intros fuel' a; simpl.
  - destruct (Qlt_bool tol (a_needed a)) eqn:En; [discriminate|].
    intros [= <-] _. destruct fuel'; simpl; rewrite En; reflexivity.
  - destruct (Qlt_bool tol (a_needed a)) eqn:En.
    + intros Hrun Hle. destruct fuel' as [|fuel']; [lia|]. simpl. rewrite En.
      destruct (greedy_body s bin_minutes cap maxc a) as [a'|];
        [|exact Hrun].
      apply IH; [exact Hrun | lia].
    + intros [= <-] _. destruct fuel'; simpl; rewrite En; reflexivity.
Qed.

Lemma greedy_session_total (time_index : list Timestamp) (bin_minutes : Z)
    (cap : Q) (maxc : Z) (st : Greedy) (s : Session) :
  is_Some (greedy_session time_index bin_minutes cap maxc st s).
Proof.
  unfold greedy_session.
  destruct (session_bins time_index s) as [|t0 bins] eqn:E;
    [eexists; reflexivity|].
  destruct (greedy_while_total s bin_minutes cap maxc
              (S (length (t0 :: bins)))
              (mkAlloc (t0 :: bins) (energy_kwh s) st)) as [a Ha];
    [simpl; lia|].
  rewrite Ha. eexists; reflexivity.
Qed.

Lemma greedy_sessions_total (time_index : list Timestamp) (bin_minutes : Z)
    (cap : Q) (maxc : Z) (sessions : list Session) (st : Greedy) :
  is_Some (greedy_sessions time_index bin_minutes cap maxc st sessions).
Proof.
  revert st. induction sessions as [|s rest IH]; intros st; simpl.
  - eexists; reflexivity.
  - destruct (greedy_session_total time_index bin_minutes cap maxc st s)
      as [st' ->]. simpl. apply IH.
Qed.

Lemma greedy_run_total (sessions : list Session)
    (time_index : list Timestamp) (bin_minutes : Z) (cap : Q) (maxc : Z) :
  is_Some (greedy_run sessions time_index bin_minutes cap maxc).
Proof. apply greedy_sessions_total. Qed.

(** Invariants of a session: established on entry to its loop, preserved
    by every pass, they hold of the accumulators the session leaves. *)
Lemma greedy_session_inv (I : Alloc → Prop) (time_index : list Timestamp)
    (bin_minutes : Z) (cap : Q) (maxc : Z) (st st' : Greedy) (s : Session) :
  (∀ a t, tol < a_needed a →
          choose_bin (a_state a) (max_kw s) cap maxc (a_bins a) = Some t →
          I a → I (allocate s bin_minutes a t)) →
  I (mkAlloc (session_bins time_index s) (energy_kwh s) st) →
  greedy_session time_index bin_minutes cap maxc st s = Some st' →
  ∃ a, a_state a = st' ∧ I a.
Proof.
  intros Hstep Hinit. unfold greedy_session.
  destruct (session_bins time_index s) as [|t0 bins] eqn:E.
  - intros [= <-]. eexists; split; [|exact Hinit]. reflexivity.
  - destruct (greedy_while (S (length (t0 :: bins))) s bin_minutes cap maxc
                (mkAlloc (t0 :: bins) (energy_kwh s) st)) as [a|] eqn:Ew;
      [|discriminate].
    simpl. intros [= <-]. exists a. split; [reflexivity|].
    eapply greedy_while_inv; eassumption.
Qed.

(** Invariants of a run. *)
Lemma greedy_sessions_inv (J : Greedy → Prop) (time_index : list Timestamp)
    (bin_minutes : Z) (cap : Q) (maxc : Z) (sessions : list Session) :
  (∀ s st st', s ∈ sessions →
     greedy_session time_index bin_minutes cap maxc st s = Some st' →
     J st → J st') →
  ∀ st st',
    greedy_sessions time_index bin_minutes cap maxc st sessions = Some st' →
    J st → J st'.
Proof.
  induction sessions as [|s rest IH]; intros Hstep st st'; simpl.
  - intros [= <-]. auto.
  - destruct (greedy_session time_index bin_minutes cap maxc st s)
      as [st1|] eqn:Es; [|discriminate].
    simpl. intros Hrun HJ.
    assert (∀ s' st0 st1', s' ∈ rest →
              greedy_session time_index bin_minutes cap maxc st0 s'
              = Some st1' → J st0 → J st1') as Hrest.
    { intros s' st0 st1' Hs'. apply Hstep. right. exact Hs'. }
    apply (IH Hrest _ _ Hrun).
    eapply Hstep; [left | exact Es | exact HJ].
Qed.

(** ** Arithmetic of one delivery *)

Lemma bin_hours_pos (bin_minutes : Z) :
  (0 < bin_minutes)%Z → 0 < bin_hours bin_minutes.
Proof.
  intros H. unfold bin_hours.
  change (inject_Z bin_minutes / 60) with (inject_Z bin_minutes * (1 # 60)).
  assert (0 < inject_Z bin_minutes) by (rewrite Zlt_Qlt in H; exact H).
  lra.
Qed.

(** [deliver <= needed_kwh], whatever the rate. *)
Lemma deliver_le_needed (needed kw_s : Q) (bin_minutes : Z) :
  deliver_kwh needed kw_s bin_minutes <= needed.
Proof. apply Q.le_min_l. Qed.

(** [used_kw <= kw]: a bin never takes more than the session's rate. *)
Lemma used_kw_le_max (needed kw_s : Q) (bin_minutes : Z) :
  (0 < bin_minutes)%Z →
  deliver_kwh needed kw_s bin_minutes / bin_hours bin_minutes <= kw_s.
Proof.
  intros H. apply Qle_shift_div_r; [apply bin_hours_pos; exact H|].
  apply Q.le_min_r.
Qed.

(** [deliver = used_kw * bin_hours] *)
Lemma used_kw_times_bin_hours (needed kw_s : Q) (bin_minutes : Z) :
  (0 < bin_minutes)%Z →
  deliver_kwh needed kw_s bin_minutes
  == deliver_kwh needed kw_s bin_minutes / bin_hours bin_minutes
     * bin_hours bin_minutes.
Proof.
  intros H. pose proof (bin_hours_pos _ H) as Hpos.
  rewrite Qmult_comm, Qmult_div_r; [reflexivity|].
  intros E. rewrite E in Hpos. apply (Qlt_irrefl 0). exact Hpos.
Qed.

(** ** C1: the schedule respects both limits *)

Lemma allocate_within_limits (s : Session) (bin_minutes : Z) (cap : Q)
    (maxc : Z) (a : Alloc) (t : Timestamp) :
  (0 < bin_minutes)%Z →
  choose_bin (a_state a) (max_kw s) cap maxc (a_bins a) = Some t →
  within_limits cap maxc (a_state a) →
  within_limits cap maxc (a_state (allocate s bin_minutes a t)).
Proof.
  intros Hbin Hc Hlim t'. apply choose_bin_Some in Hc as (_ & Hfree & Hroom).
  simpl. rewrite !loc_set_loc.
  destruct (decide (t = t')) as [<-|Hne]; [|apply Hlim].
  split; [lia|].
  pose proof (used_kw_le_max (a_needed a) (max_kw s) bin_minutes Hbin).
  lra.
Qed.

Lemma greedy_init_within_limits (time_index : list Timestamp) (cap : Q)
    (maxc : Z) :
  0 <= cap → (0 ≤ maxc)%Z → within_limits cap maxc (greedy_init time_index).
Proof.
  intros Hcap Hmax t. simpl. rewrite !loc_series_new. split; assumption.
Qed.

Lemma greedy_run_within_limits (sessions : list Session)
    (time_index : list Timestamp) (bin_minutes : Z) (cap : Q) (maxc : Z)
    (st : Greedy) :
  (0 < bin_minutes)%Z → 0 <= cap → (0 ≤ maxc)%Z →
  greedy_run sessions time_index bin_minutes cap maxc = Some st →
  within_limits cap maxc st.
Proof.
  intros Hbin Hcap Hmax Hrun. unfold greedy_run in Hrun.
  eapply (greedy_sessions_inv (within_limits cap maxc)); [|exact Hrun|].
  - intros s st0 st1 _ Hs HJ.
    destruct (greedy_session_inv (λ a, within_limits cap maxc (a_state a))
                time_index bin_minutes cap maxc st0 st1 s) as (a & <- & Ha);
      [|exact HJ|exact Hs|exact Ha].
    intros a t _ Hc. apply allocate_within_limits; assumption.
  - apply greedy_init_within_limits; assumption.
Qed.

(** ** Sums *)

Lemma sumQ_app (l1 l2 : list Q) : sumQ (l1 ++ l2) == sumQ l1 + sumQ l2.
Proof.
  induction l1 as [|x l1 IH]; [unfold sumQ; simpl; lra|].
  unfold sumQ in *. simpl. rewrite IH. lra.
Qed.

Lemma sumQ_cons (x : Q) (l : list Q) : sumQ (x :: l) == x + sumQ l.
Proof. reflexivity. Qed.

Lemma sumQ_Permutation (l1 l2 : list Q) : l1 ≡ₚ l2 → sumQ l1 == sumQ l2.
Proof.
  induction 1 as [|x l1 l2 _ IH|x y l|l1 l2 l3 _ IH1 _ IH2].
  - reflexivity.
  - rewrite !sumQ_cons, IH. reflexivity.
  - rewrite !sumQ_cons. lra.
  - rewrite IH1. exact IH2.
Qed.

(** ** C9: the accumulators and the record of deliveries agree *)

Lemma deliveries_at_snoc (t : Timestamp) (trace : list Delivery)
    (d : Delivery) :
  deliveries_at t (trace ++ [d])
  = deliveries_at t trace ++ (if decide (d_bin d = t) then [d] else []).
Proof.
  unfold deliveries_at. rewrite filter_app. reflexivity.
Qed.

Lemma rows_at_length (t : Timestamp) (trace : list Delivery) :
  length (filter (λ r, bin_start r = t) (row_of_delivery <$> trace))
  = length (deliveries_at t trace).
Proof.
  unfold deliveries_at. induction trace as [|d trace IH]; [reflexivity|].
  rewrite fmap_cons, !filter_cons. simpl.
  destruct (decide (d_bin d = t)); simpl; rewrite IH; reflexivity.
Qed.

Lemma allocate_accounts_for_trace (s : Session) (bin_minutes : Z)
    (a : Alloc) (t : Timestamp) :
  accounts_for_trace (a_state a) →
  accounts_for_trace (a_state (allocate s bin_minutes a t)).
Proof.
  intros [Hrows Hbins]. split; simpl.
  - rewrite Hrows, fmap_app. reflexivity.
  - intros t'. destruct (Hbins t') as [Hload Hcount].
    rewrite !loc_set_loc, deliveries_at_snoc. simpl.
    destruct (decide (t = t')) as [<-|Hne].
    + destruct (Hbins t) as [Hload' Hcount'].
      rewrite fmap_app, sumQ_app, length_app, <- Hload', Hcount'. simpl.
      split; [unfold sumQ; simpl; lra | lia].
    + rewrite app_nil_r. split; assumption.
Qed.

Lemma greedy_init_accounts_for_trace (time_index : list Timestamp) :
  accounts_for_trace (greedy_init time_index).
Proof.
  split; [reflexivity|]. intros t. simpl. rewrite !loc_series_new.
  split; reflexivity.
Qed.

Lemma greedy_session_accounts_for_trace (time_index : list Timestamp)
    (bin_minutes : Z) (cap : Q) (maxc : Z) (st st' : Greedy) (s : Session) :
  greedy_session time_index bin_minutes cap maxc st s = Some st' →
  accounts_for_trace st → accounts_for_trace st'.
Proof.
  intros Hs HJ.
  destruct (greedy_session_inv (λ a, accounts_for_trace (a_state a))
              time_index bin_minutes cap maxc st st' s) as (a & <- & Ha);
    [|exact HJ|exact Hs|exact Ha].
  intros a t _ _. apply allocate_accounts_for_trace.
Qed.

Lemma greedy_run_accounts_for_trace (sessions : list Session)
    (time_index : list Timestamp) (bin_minutes : Z) (cap : Q) (maxc : Z)
    (st : Greedy) :
  greedy_run sessions time_index bin_minutes cap maxc = Some st →
  accounts_for_trace st.
Proof.
  intros Hrun. unfold greedy_run in Hrun.
  eapply (greedy_sessions_inv accounts_for_trace); [|exact Hrun|].
  - intros s st0 st1 _. apply greedy_session_accounts_for_trace.
  - apply greedy_init_accounts_for_trace.
Qed.

(** C9.  The greedy scheduler returns; every returned row is the rounded
    form of one delivery, in the same order; and for every bin of the grid
    the returned load equals the sum of the exact (unrounded) [used_kw] of
    the deliveries whose bin is that bin, while the charger count equals
    the number of those deliveries, which is the number of rows whose
    [bin_start] is that bin. *)
Theorem greedy_load_is_sum_of_deliveries (sessions : list Session)
    (time_index : list Timestamp) (bin_minutes : Z)
    (depot_power_cap_kw : Q) (max_concurrent_chargers : Z) :
  ∃ st,
    greedy_run sessions time_index bin_minutes depot_power_cap_kw
      max_concurrent_chargers = Some st
    ∧ greedy_optimize_schedule sessions time_index bin_minutes
        depot_power_cap_kw max_concurrent_chargers
      = Some (g_rows st, g_load st)
    ∧ g_rows st = row_of_delivery <$> g_trace st
    ∧ ∀ t, t ∈ time_index →
        loc 0 (g_load st) t
        == sumQ (d_used_kw <$> deliveries_at t (g_trace st))
        ∧ loc 0%Z (g_chargers st) t
          = Z.of_nat (length (deliveries_at t (g_trace st)))
        ∧ loc 0%Z (g_chargers st) t
          = Z.of_nat (length (filter (λ r, bin_start r = t) (g_rows st))).
Proof.
  destruct (greedy_run_total sessions time_index bin_minutes
              depot_power_cap_kw max_concurrent_chargers) as [st Hst].
  exists st. split; [exact Hst|]. split.
  { unfold greedy_optimize_schedule. rewrite Hst. reflexivity. }
  destruct (greedy_run_accounts_for_trace _ _ _ _ _ _ Hst) as [Hrows Hbins].
  split; [exact Hrows|]. intros t _. destruct (Hbins t) as [Hload Hcount].
  repeat split; [exact Hload | exact Hcount |].
  rewrite Hrows, rows_at_length. exact Hcount.
Qed.

Lemma greedy_load_is_sum_of_deliveries_witness :
  ∃ st,
    greedy_run [Samples.ten_kwh] Samples.four_bins 7 100 5 = Some st
    ∧ loc 0 (g_load st) 0
      == sumQ (d_used_kw <$> deliveries_at 0 (g_trace st))
    ∧ loc 0%Z (g_chargers st) 0
      = Z.of_nat (length (deliveries_at 0 (g_trace st))).
Proof.
  destruct (greedy_load_is_sum_of_deliveries [Samples.ten_kwh]
              Samples.four_bins 7 100 5) as (st & Hst & _ & _ & Hbins).
  exists st. split; [exact Hst|].
  destruct (Hbins 0%Z) as (Hload & Hcount & _).
  - vm_compute. left.
  - split; assumption.
Defined.

(** ** C1, continued: the limits hold in every bin *)

Lemma allocate_used_bins_within_limits (s : Session) (bin_minutes : Z)
    (cap : Q) (maxc : Z) (a : Alloc) (t : Timestamp) :
  (0 < bin_minutes)%Z →
  choose_bin (a_state a) (max_kw s) cap maxc (a_bins a) = Some t →
  used_bins_within_limits cap maxc (a_state a) →
  used_bins_within_limits cap maxc (a_state (allocate s bin_minutes a t)).
Proof.
  intros Hbin Hc Hlim t'. apply choose_bin_Some in Hc as (_ & Hfree & Hroom).
  simpl. rewrite !loc_set_loc, deliveries_at_snoc. simpl.
  destruct (decide (t = t')) as [<-|Hne].
  - intros _. split; [lia|].
    pose proof (used_kw_le_max (a_needed a) (max_kw s) bin_minutes Hbin).
    lra.
  - rewrite app_nil_r. apply Hlim.
Qed.

Lemma greedy_run_used_bins_within_limits (sessions : list Session)
    (time_index : list Timestamp) (bin_minutes : Z) (cap : Q) (maxc : Z)
    (st : Greedy) :
  (0 < bin_minutes)%Z →
  greedy_run sessions time_index bin_minutes cap maxc = Some st →
  used_bins_within_limits cap maxc st.
Proof.
  intros Hbin Hrun. unfold greedy_run in Hrun.
  eapply (greedy_sessions_inv (used_bins_within_limits cap maxc));
    [|exact Hrun|].
  - intros s st0 st1 _ Hs HJ.
    destruct (greedy_session_inv
                (λ a, used_bins_within_limits cap maxc (a_state a))
                time_index bin_minutes cap maxc st0 st1 s) as (a & <- & Ha);
      [|exact HJ|exact Hs|exact Ha].
    intros a t _ Hc. apply allocate_used_bins_within_limits; assumption.
  - intros t H. exfalso. apply H. reflexivity.
Qed.

(** C1.  For a bin width of 1 minute or more the greedy scheduler returns
    a schedule and a load curve, and in every bin of the grid the charger
    count is at most [max_concurrent_chargers] and the load is at most
    [depot_power_cap_kw], as long as neither limit is negative (an empty
    bin has load 0 and 0 chargers); in the bins that received a delivery
    both bounds hold whatever the limits are.  Stated in exact arithmetic;
    no hypothesis on the sessions is needed. *)
Theorem greedy_respects_limits (sessions : list Session)
    (time_index : list Timestamp) (bin_minutes : Z)
    (depot_power_cap_kw : Q) (max_concurrent_chargers : Z) :
  (0 < bin_minutes)%Z →
  ∃ st,
    greedy_run sessions time_index bin_minutes depot_power_cap_kw
      max_concurrent_chargers = Some st
    ∧ greedy_optimize_schedule sessions time_index bin_minutes
        depot_power_cap_kw max_concurrent_chargers
      = Some (g_rows st, g_load st)
    ∧ (0 <= depot_power_cap_kw → (0 ≤ max_concurrent_chargers)%Z →
       ∀ t, t ∈ time_index →
         (loc 0%Z (g_chargers st) t ≤ max_concurrent_chargers)%Z
         ∧ loc 0 (g_load st) t <= depot_power_cap_kw)
    ∧ (∀ t, t ∈ time_index → deliveries_at t (g_trace st) ≠ [] →
         (loc 0%Z (g_chargers st) t ≤ max_concurrent_chargers)%Z
         ∧ loc 0 (g_load st) t <= depot_power_cap_kw).
Proof.
  intros Hbin.
  destruct (greedy_run_total sessions time_index bin_minutes
              depot_power_cap_kw max_concurrent_chargers) as [st Hst].
  exists st. split; [exact Hst|]. split; [|split].
  - unfold greedy_optimize_schedule. rewrite Hst. reflexivity.
  - intros Hcap Hmax t _. eapply greedy_run_within_limits; eassumption.
  - intros t _. eapply greedy_run_used_bins_within_limits; eassumption.
Qed.

Lemma greedy_respects_limits_witness :
  ∃ st,
    greedy_run [Samples.ten_kwh] Samples.four_bins 7 100 5 = Some st
    ∧ ∀ t, t ∈ Samples.four_bins →
        (loc 0%Z (g_chargers st) t ≤ 5)%Z ∧ loc 0 (g_load st) t <= 100.
Proof.
  destruct (greedy_respects_limits [Samples.ten_kwh] Samples.four_bins
              7 100 5) as (st & Hst & _ & Hall & _).
  - lia.
  - exists st. split; [exact Hst|]. apply Hall.
    + vm_compute. discriminate.
    + lia.
Defined.

(** ** Rounding to three decimals *)

Lemma round_half_even_close (x : Q) :
  x - (1 # 2) <= inject_Z (round_half_even x) <= x + (1 # 2).
Proof.
  unfold round_half_even.
  pose proof (Qfloor_le x) as Hlo. pose proof (Qlt_floor x) as Hhi.
  rewrite inject_Z_plus in Hhi. change (inject_Z 1) with 1 in Hhi.
  set (f := Qfloor x) in *.
  destruct (Qcompare_spec (x - inject_Z f) (1 # 2)) as [E|E|E].
  - destruct (Z.even f).
    + split; lra.
    + rewrite inject_Z_plus. change (inject_Z 1) with 1. split; lra.
  - split; lra.
  - rewrite inject_Z_plus. change (inject_Z 1) with 1. split; lra.
Qed.

(** [round3] yields a multiple of 1/1000 within half a thousandth. *)
Lemma round3_close (x : Q) :
  (∃ z : Z, round3 x = inject_Z z / 1000)
  ∧ x - (1 # 2000) <= round3 x <= x + (1 # 2000).
Proof.
  split; [eexists; reflexivity|]. unfold round3.
  pose proof (round_half_even_close (x * 1000)) as [H1 H2].
  set (z := inject_Z (round_half_even (x * 1000))) in *.
  change (z / 1000) with (z * (1 # 1000)). split; lra.
Qed.

(** ** What one session appends to the record of deliveries *)

Lemma greedy_while_appends (s : Session) (bin_minutes : Z) (cap : Q)
    (maxc : Z) (fuel : nat) (a a' : Alloc) :
  greedy_while fuel s bin_minutes cap maxc a = Some a' →
  ∃ new,
    g_trace (a_state a') = g_trace (a_state a) ++ new
    ∧ a_needed a' == a_needed a - sumQ (d_deliver <$> new)
    ∧ Forall (λ d, d_session d = s) new
    ∧ (0 <= a_needed a → 0 <= a_needed a').
Proof.
  intros Hrun.
  apply (greedy_while_inv
           (λ a', ∃ new,
              g_trace (a_state a') = g_trace (a_state a) ++ new
              ∧ a_needed a' == a_needed a - sumQ (d_deliver <$> new)
              ∧ Forall (λ d, d_session d = s) new
              ∧ (0 <= a_needed a → 0 <= a_needed a'))
           s bin_minutes cap maxc) with (fuel := fuel) (a := a);
    [|exact Hrun|].
  - intros a1 t _ _ (new & Htr & Hneed & Hs & Hpos).
    exists (new ++ [mkDelivery s t
                      (deliver_kwh (a_needed a1) (max_kw s) bin_minutes
                       / bin_hours bin_minutes)
                      (deliver_kwh (a_needed a1) (max_kw s) bin_minutes)]).
    simpl. split; [rewrite Htr, app_assoc; reflexivity|]. split.
    { rewrite fmap_app, sumQ_app. unfold sumQ at 2. simpl. lra. }
    split.
    { apply Forall_app. split; [exact Hs|]. repeat constructor. }
    intros H0. specialize (Hpos H0).
    pose proof (deliver_le_needed (a_needed a1) (max_kw s) bin_minutes).
    lra.
  - exists []. rewrite app_nil_r. unfold sumQ. simpl.
    split; [reflexivity|]. split; [lra|]. split; [constructor | auto].
Qed.

Lemma greedy_session_appends (time_index : list Timestamp)
    (bin_minutes : Z) (cap : Q) (maxc : Z) (st st' : Greedy) (s : Session) :
  greedy_session time_index bin_minutes cap maxc st s = Some st' →
  ∃ new,
    g_trace st' = g_trace st ++ new
    ∧ Forall (λ d, d_session d = s) new
    ∧ (0 <= energy_kwh s → sumQ (d_deliver <$> new) <= energy_kwh s).
Proof.
  unfold greedy_session.
  destruct (session_bins time_index s) as [|t0 bins].
  - intros [= <-]. exists []. rewrite app_nil_r.
    split; [reflexivity|]. split; [constructor|].
    unfold sumQ. simpl. auto.
  - destruct (greedy_while (S (length (t0 :: bins))) s bin_minutes cap maxc
                (mkAlloc (t0 :: bins) (energy_kwh s) st)) as [a|] eqn:Ew;
      [|discriminate].
    simpl. intros [= <-].
    destruct (greedy_while_appends _ _ _ _ _ _ _ Ew)
      as (new & Htr & Hneed & Hs & Hpos).
    simpl in *. exists new. split; [exact Htr|]. split; [exact Hs|].
    intros H0. specialize (Hpos H0). lra.
Qed.

(** ** C10: rows are rounded, the bookkeeping is exact *)

Lemma allocate_exact (sessions : list Session) (s : Session)
    (bin_minutes : Z) (a : Alloc) (t : Timestamp) :
  (0 < bin_minutes)%Z → s ∈ sessions →
  Forall (exact_delivery sessions bin_minutes) (g_trace (a_state a)) →
  Forall (exact_delivery sessions bin_minutes)
         (g_trace (a_state (allocate s bin_minutes a t))).
Proof.
  intros Hbin Hs Hall. simpl. apply Forall_app. split; [exact Hall|].
  constructor; [|constructor]. unfold exact_delivery. simpl.
  split; [exact Hs|]. split.
  - apply used_kw_times_bin_hours. exact Hbin.
  - apply used_kw_le_max. exact Hbin.
Qed.

Lemma greedy_run_exact (sessions : list Session)
    (time_index : list Timestamp) (bin_minutes : Z) (cap : Q) (maxc : Z)
    (st : Greedy) :
  (0 < bin_minutes)%Z →
  greedy_run sessions time_index bin_minutes cap maxc = Some st →
  Forall (exact_delivery sessions bin_minutes) (g_trace st).
Proof.
  intros Hbin Hrun. unfold greedy_run in Hrun.
  eapply (greedy_sessions_inv
            (λ st, Forall (exact_delivery sessions bin_minutes) (g_trace st)));
    [|exact Hrun|constructor].
  intros s st0 st1 Hin Hs HJ.
  assert (s ∈ sessions) as Hin'.
  { unfold sort_sessions in Hin.
    rewrite stable_sort_Permutation in Hin. exact Hin. }
  destruct (greedy_session_inv
              (λ a, Forall (exact_delivery sessions bin_minutes)
                           (g_trace (a_state a)))
              time_index bin_minutes cap maxc st0 st1 s) as (a & <- & Ha);
    [|exact HJ|exact Hs|exact Ha].
  intros a t _ _. apply allocate_exact; assumption.
Qed.

(** C10.  For a bin width of 1 minute or more the scheduler returns, and
    - every row is a delivery with [kw] and [kwh] rounded to 3 decimals
      ([round3]: a multiple of 1/1000 within 0.0005 of its argument);
    - before rounding, each delivery belongs to an input session, has
      [kwh = kw * bin_hours] and [kw <= max_kw] of that session;
    - the load curve adds up the unrounded [used_kw];
    - the remaining energy of a session's loop is its initial value minus
      the unrounded energy of the deliveries the loop made. *)
Theorem greedy_rows_round_exact_deliveries (sessions : list Session)
    (time_index : list Timestamp) (bin_minutes : Z)
    (depot_power_cap_kw : Q) (max_concurrent_chargers : Z) :
  (0 < bin_minutes)%Z →
  (∃ st,
     greedy_run sessions time_index bin_minutes depot_power_cap_kw
       max_concurrent_chargers = Some st
     ∧ greedy_optimize_schedule sessions time_index bin_minutes
         depot_power_cap_kw max_concurrent_chargers
       = Some (g_rows st, g_load st)
     ∧ g_rows st = row_of_delivery <$> g_trace st
     ∧ Forall (exact_delivery sessions bin_minutes) (g_trace st)
     ∧ ∀ t, loc 0 (g_load st) t
            == sumQ (d_used_kw <$> deliveries_at t (g_trace st)))
  ∧ (∀ d, kw (row_of_delivery d) = round3 (d_used_kw d)
          ∧ kwh (row_of_delivery d) = round3 (d_deliver d))
  ∧ (∀ x, (∃ z : Z, round3 x = inject_Z z / 1000)
          ∧ x - (1 # 2000) <= round3 x <= x + (1 # 2000))
  ∧ (∀ fuel s a a',
       greedy_while fuel s bin_minutes depot_power_cap_kw
         max_concurrent_chargers a = Some a' →
       ∃ new,
         g_trace (a_state a') = g_trace (a_state a) ++ new
         ∧ g_rows (a_state a')
           = g_rows (a_state a) ++ (row_of_delivery <$> new)
         ∧ a_needed a' == a_needed a - sumQ (d_deliver <$> new)).
Proof.
  intros Hbin. split; [|split; [|split]].
  - destruct (greedy_run_total sessions time_index bin_minutes
                depot_power_cap_kw max_concurrent_chargers) as [st Hst].
    exists st. split; [exact Hst|]. split.
    { unfold greedy_optimize_schedule. rewrite Hst. reflexivity. }
    destruct (greedy_run_accounts_for_trace _ _ _ _ _ _ Hst)
      as [Hrows Hbins].
    split; [exact Hrows|]. split.
    + eapply greedy_run_exact; eassumption.
    + intros t. apply Hbins.
  - intros d. split; reflexivity.
  - apply round3_close.
  - intros fuel s a a' Hrun.
    apply (greedy_while_inv
             (λ a', ∃ new,
                g_trace (a_state a') = g_trace (a_state a) ++ new
                ∧ g_rows (a_state a')
                  = g_rows (a_state a) ++ (row_of_delivery <$> new)
                ∧ a_needed a' == a_needed a - sumQ (d_deliver <$> new))
             s bin_minutes depot_power_cap_kw max_concurrent_chargers)
      with (fuel := fuel) (a := a); [|exact Hrun|].
    + intros a1 t _ _ (new & Htr & Hrows & Hneed).
      exists (new ++ [mkDelivery s t
                        (deliver_kwh (a_needed a1) (max_kw s) bin_minutes
                         / bin_hours bin_minutes)
                        (deliver_kwh (a_needed a1) (max_kw s) bin_minutes)]).
      simpl. split; [rewrite Htr, app_assoc; reflexivity|]. split.
      * rewrite Hrows, fmap_app, app_assoc. reflexivity.
      * rewrite fmap_app, sumQ_app. unfold sumQ at 2. simpl. lra.
    + exists []. rewrite !app_nil_r. unfold sumQ. simpl.
      split; [reflexivity|]. split; [reflexivity | lra].
Qed.

Lemma greedy_rows_round_exact_deliveries_witness :
  ∃ st,
    greedy_run [Samples.ten_kwh] Samples.four_bins 7 100 5 = Some st
    ∧ g_rows st = row_of_delivery <$> g_trace st
    ∧ Forall (exact_delivery [Samples.ten_kwh] 7) (g_trace st).
Proof.
  destruct (greedy_rows_round_exact_deliveries [Samples.ten_kwh]
              Samples.four_bins 7 100 5 ltac:(lia))
    as ((st & Hst & _ & Hrows & Hexact & _) & _).
  exists st. repeat split; assumption.
Defined.

(** ** C4: delivered energy against requested energy *)

Lemma greedy_sessions_delivered (time_index : list Timestamp)
    (bin_minutes : Z) (cap : Q) (maxc : Z) (sessions : list Session) :
  Forall (λ s, 0 <= energy_kwh s) sessions →
  ∀ st st',
    greedy_sessions time_index bin_minutes cap maxc st sessions = Some st' →
    sumQ (d_deliver <$> g_trace st')
    <= sumQ (d_deliver <$> g_trace st) + sumQ (energy_kwh <$> sessions).
Proof.
  induction 1 as [|s rest Hs _ IH]; intros st st' Hrun; simpl in Hrun.
  - injection Hrun as <-. change (sumQ (energy_kwh <$> [])) with 0. lra.
  - destruct (greedy_session time_index bin_minutes cap maxc st s)
      as [st1|] eqn:Es; [|discriminate].
    simpl in Hrun. specialize (IH _ _ Hrun).
    destruct (greedy_session_appends _ _ _ _ _ _ _ Es)
      as (new & Htr & _ & Hle).
    specialize (Hle Hs).
    rewrite Htr, fmap_app, sumQ_app in IH.
    rewrite fmap_cons, sumQ_cons. lra.
Qed.

Lemma sumQ_round3 (l : list Q) :
  sumQ (round3 <$> l)
  <= sumQ l + (1 # 2000) * inject_Z (Z.of_nat (length l)).
Proof.
  induction l as [|x l IH].
  - vm_compute. discriminate.
  - rewrite fmap_cons, !sumQ_cons. simpl length.
    rewrite Nat2Z.inj_succ, <- Z.add_1_r, inject_Z_plus.
    change (inject_Z 1) with 1.
    destruct (round3_close x) as [_ [_ Hx]]. lra.
Qed.

(** C4, for the exact deliveries.  When every session asks for a
    non-negative energy,
    the scheduler returns and the exact (unrounded) energy of all its
    deliveries is at most the sum of [energy_kwh] over the input sessions.
    The [kwh] column of the returned schedule holds rounded values: its
    sum is at most that bound plus 0.0005 per row. *)
Theorem greedy_delivers_at_most_requested (sessions : list Session)
    (time_index : list Timestamp) (bin_minutes : Z)
    (depot_power_cap_kw : Q) (max_concurrent_chargers : Z) :
  Forall (λ s, 0 <= energy_kwh s) sessions →
  ∃ st,
    greedy_run sessions time_index bin_minutes depot_power_cap_kw
      max_concurrent_chargers = Some st
    ∧ greedy_optimize_schedule sessions time_index bin_minutes
        depot_power_cap_kw max_concurrent_chargers
      = Some (g_rows st, g_load st)
    ∧ g_rows st = row_of_delivery <$> g_trace st
    ∧ sumQ (d_deliver <$> g_trace st) <= sumQ (energy_kwh <$> sessions)
    ∧ sumQ (kwh <$> g_rows st)
      <= sumQ (energy_kwh <$> sessions)
         + (1 # 2000) * inject_Z (Z.of_nat (length (g_rows st))).
Proof.
  intros Hvalid.
  destruct (greedy_run_total sessions time_index bin_minutes
              depot_power_cap_kw max_concurrent_chargers) as [st Hst].
  exists st. split; [exact Hst|]. split.
  { unfold greedy_optimize_schedule. rewrite Hst. reflexivity. }
  destruct (greedy_run_accounts_for_trace _ _ _ _ _ _ Hst) as [Hrows _].
  split; [exact Hrows|].
  assert (sumQ (d_deliver <$> g_trace st)
          <= sumQ (energy_kwh <$> sessions)) as Hexact.
  { unfold greedy_run in Hst.
    pose proof (stable_sort_Permutation (session_before bin_minutes)
                  sessions) as Hperm.
    apply greedy_sessions_delivered in Hst.
    - change (sumQ (d_deliver <$> g_trace (greedy_init time_index)))
        with 0 in Hst.
      rewrite (sumQ_Permutation
                 (energy_kwh <$> sort_sessions bin_minutes sessions)
                 (energy_kwh <$> sessions)) in Hst.
      + lra.
      + apply fmap_Permutation. exact Hperm.
    - unfold sort_sessions. rewrite Hperm. exact Hvalid. }
  split; [exact Hexact|].
  rewrite Hrows, length_fmap.
  pose proof (sumQ_round3 (d_deliver <$> g_trace st)) as Hround.
  rewrite length_fmap in Hround.
  replace (kwh <$> (row_of_delivery <$> g_trace st))
    with (round3 <$> (d_deliver <$> g_trace st)).
  - lra.
  - rewrite <- !list_fmap_compose. reflexivity.
Qed.

Lemma greedy_delivers_at_most_requested_witness :
  ∃ st,
    greedy_run [Samples.ten_kwh] Samples.four_bins 7 100 5 = Some st
    ∧ sumQ (d_deliver <$> g_trace st)
      <= sumQ (energy_kwh <$> [Samples.ten_kwh]).
Proof.
  destruct (greedy_delivers_at_most_requested [Samples.ten_kwh]
              Samples.four_bins 7 100 5) as (st & Hst & _ & _ & Hsum & _).
  - constructor; [|constructor]. vm_compute. discriminate.
  - exists st. split; assumption.
Defined.

(** C4, counterexample on the rounded [kwh] column.  One session asks
    for 10 kWh at 22 kW over four 7-minute bins: the rows carry 2.567,
    2.567, 2.567 and 2.3 kWh, which add up to 10.001 kWh. *)
Lemma rounded_schedule_exceeds_request :
  Forall (λ s, 0 <= energy_kwh s ∧ 0 < max_kw s) [Samples.ten_kwh]
  ∧ ∃ schedule load,
      greedy_optimize_schedule [Samples.ten_kwh] Samples.four_bins 7 100 5
      = Some (schedule, load)
      ∧ Qred <$> (kwh <$> schedule)
        = [2567 # 1000; 2567 # 1000; 2567 # 1000; 23 # 10]
      ∧ ¬ sumQ (kwh <$> schedule) <= sumQ (energy_kwh <$> [Samples.ten_kwh]).
Proof.
  split.
  - constructor; [|constructor]. split; vm_compute; [discriminate | reflexivity].
  - eexists _, _. split; [vm_compute; reflexivity|].
    split; [vm_compute; reflexivity|].
    vm_compute. intros H. apply H. reflexivity.
Qed.

(** ** C5: one row per session and bin *)

Lemma session_bins_NoDup (time_index : list Timestamp) (s : Session) :
  NoDup time_index → NoDup (session_bins time_index s).
Proof. apply NoDup_filter. Qed.

(** The invariant of one session's loop: rows are pairwise distinct as
    (session, bin) pairs, the candidate bins are distinct, the bins this
    session already used are no longer candidates, and no row belongs to
    a session still waiting. *)
Lemma allocate_keeps_rows_distinct (s : Session) (waiting : list string)
    (bin_minutes : Z) (a : Alloc) (t : Timestamp) :
  session_id s ∉ waiting →
  t ∈ a_bins a →
  NoDup (row_key <$> g_rows (a_state a))
  ∧ NoDup (a_bins a)
  ∧ (∀ r, r ∈ g_rows (a_state a) → row_session_id r = session_id s →
          bin_start r ∉ a_bins a)
  ∧ (∀ r, r ∈ g_rows (a_state a) → row_session_id r ∉ waiting) →
  let a' := allocate s bin_minutes a t in
  NoDup (row_key <$> g_rows (a_state a'))
  ∧ NoDup (a_bins a')
  ∧ (∀ r, r ∈ g_rows (a_state a') → row_session_id r = session_id s →
          bin_start r ∉ a_bins a')
  ∧ (∀ r, r ∈ g_rows (a_state a') → row_session_id r ∉ waiting).
Proof.
  intros Hfresh Ht (Hrows & Hbins & Hused & Hwait). simpl.
  destruct (list_remove_NoDup t (a_bins a) Hbins) as [Hbins' Hgone].
  split; [|split; [exact Hbins'|split]].
  - rewrite fmap_app. apply NoDup_app. split; [exact Hrows|]. split.
    + intros k Hk Hk'. apply list_elem_of_singleton in Hk'. subst k.
      apply list_elem_of_fmap in Hk as (r & Hkey & Hr).
      unfold row_key in Hkey. simpl in Hkey. injection Hkey as Hid Hbin.
      apply (Hused r Hr); [congruence|]. rewrite <- Hbin. exact Ht.
    + simpl. apply NoDup_singleton.
  - intros r Hr Hid Hin. apply elem_of_app in Hr as [Hr|Hr].
    + apply (Hused r Hr Hid). eapply list_remove_subseteq. exact Hin.
    + apply list_elem_of_singleton in Hr. subst r. simpl in Hin.
      contradiction.
  - intros r Hr. apply elem_of_app in Hr as [Hr|Hr]; [auto|].
    apply list_elem_of_singleton in Hr. subst r. exact Hfresh.
Qed.

Lemma greedy_sessions_rows_distinct (time_index : list Timestamp)
    (bin_minutes : Z) (cap : Q) (maxc : Z) (sessions : list Session) :
  NoDup time_index →
  NoDup (session_id <$> sessions) →
  ∀ st st',
    NoDup (row_key <$> g_rows st) →
    (∀ r, r ∈ g_rows st → row_session_id r ∉ session_id <$> sessions) →
    greedy_sessions time_index bin_minutes cap maxc st sessions = Some st' →
    NoDup (row_key <$> g_rows st').
Proof.
  intros Hgrid. induction sessions as [|s rest IH];
    intros Hids st st' Hrows Hnew Hrun; simpl in Hrun.
  - injection Hrun as <-. exact Hrows.
  - destruct (greedy_session time_index bin_minutes cap maxc st s)
      as [st1|] eqn:Es; [|discriminate].
    simpl in Hrun. rewrite fmap_cons in Hids.
    apply NoDup_cons in Hids as [Hfresh Hids'].
    destruct (greedy_session_inv
                (λ a, NoDup (row_key <$> g_rows (a_state a))
                      ∧ NoDup (a_bins a)
                      ∧ (∀ r, r ∈ g_rows (a_state a) →
                              row_session_id r = session_id s →
                              bin_start r ∉ a_bins a)
                      ∧ (∀ r, r ∈ g_rows (a_state a) →
                              row_session_id r ∉ session_id <$> rest))
                time_index bin_minutes cap maxc st st1 s)
      as (a & <- & Hrows1 & _ & _ & Hwait1); [| |exact Es|].
    + intros a t _ Hc Ha.
      apply (allocate_keeps_rows_distinct s (session_id <$> rest));
        [exact Hfresh | | exact Ha].
      apply choose_bin_Some in Hc. tauto.
    + simpl. split; [exact Hrows|].
      split; [apply session_bins_NoDup; exact Hgrid|]. split.
      * intros r Hr Hid. exfalso. apply (Hnew r Hr).
        rewrite fmap_cons, Hid. left.
      * intros r Hr Hin. apply (Hnew r Hr). rewrite fmap_cons. right.
        exact Hin.
    + apply (IH Hids' _ _ Hrows1 Hwait1 Hrun).
Qed.

(** The deliveries of one session go to pairwise distinct bins. *)
Lemma greedy_session_block (time_index : list Timestamp) (bin_minutes : Z)
    (cap : Q) (maxc : Z) (st st' : Greedy) (s : Session) :
  NoDup time_index →
  greedy_session time_index bin_minutes cap maxc st s = Some st' →
  ∃ block, g_trace st' = g_trace st ++ block
           ∧ session_block time_index s block.
Proof.
  intros Hgrid Hs.
  destruct (greedy_session_inv
              (λ a, ∃ block,
                 g_trace (a_state a) = g_trace st ++ block
                 ∧ session_block time_index s block
                 ∧ NoDup (a_bins a)
                 ∧ (∀ t, t ∈ a_bins a → t ∈ session_bins time_index s)
                 ∧ (∀ d, d ∈ block → d_bin d ∉ a_bins a))
              time_index bin_minutes cap maxc st st' s)
    as (a & <- & block & Htr & Hblock & _); [| |exact Hs|].
  - intros a t _ Hc (block & Htr & [Hall Hnd] & Hbins & Hsub & Hused).
    apply choose_bin_Some in Hc as (Ht & _).
    destruct (list_remove_NoDup t (a_bins a) Hbins) as [Hbins' Hgone].
    exists (block ++ [mkDelivery s t
                        (deliver_kwh (a_needed a) (max_kw s) bin_minutes
                         / bin_hours bin_minutes)
                        (deliver_kwh (a_needed a) (max_kw s) bin_minutes)]).
    simpl. split; [rewrite Htr, app_assoc; reflexivity|].
    split; [split|split; [exact Hbins'|split]].
    + apply Forall_app. split; [exact Hall|].
      constructor; [|constructor]. simpl. split; [reflexivity | auto].
    + rewrite fmap_app. apply NoDup_app. split; [exact Hnd|]. split.
      * intros t' Ht' Ht''. apply list_elem_of_singleton in Ht''.
        simpl in Ht''. subst t'.
        apply list_elem_of_fmap in Ht' as (d & Hd & Hin).
        apply (Hused d Hin). rewrite <- Hd. exact Ht.
      * simpl. apply NoDup_singleton.
    + intros t' Ht'. apply Hsub. eapply list_remove_subseteq. exact Ht'.
    + intros d Hd Hin. apply elem_of_app in Hd as [Hd|Hd].
      * apply (Hused d Hd). eapply list_remove_subseteq. exact Hin.
      * apply list_elem_of_singleton in Hd. subst d. simpl in Hin.
        contradiction.
  - exists []. simpl. rewrite app_nil_r. split; [reflexivity|].
    split; [split; constructor|].
    split; [apply session_bins_NoDup; exact Hgrid|].
    split; [auto|]. intros d Hd. inversion Hd.
  - exists block. split; assumption.
Qed.

Lemma greedy_sessions_blocks (time_index : list Timestamp)
    (bin_minutes : Z) (cap : Q) (maxc : Z) (sessions : list Session) :
  NoDup time_index →
  ∀ st st',
    greedy_sessions time_index bin_minutes cap maxc st sessions = Some st' →
    ∃ blocks, g_trace st' = g_trace st ++ concat blocks
              ∧ Forall2 (session_block time_index) sessions blocks.
Proof.
  intros Hgrid. induction sessions as [|s rest IH];
    intros st st' Hrun; simpl in Hrun.
  - injection Hrun as <-. exists []. simpl. rewrite app_nil_r.
    split; [reflexivity | constructor].
  - destruct (greedy_session time_index bin_minutes cap maxc st s)
      as [st1|] eqn:Es; [|discriminate].
    simpl in Hrun.
    destruct (greedy_session_block _ _ _ _ _ _ _ Hgrid Es)
      as (block & Htr1 & Hblock).
    destruct (IH _ _ Hrun) as (blocks & Htr2 & Hblocks).
    exists (block :: blocks). simpl. split.
    + rewrite Htr2, Htr1, app_assoc. reflexivity.
    + constructor; assumption.
Qed.

(** C5.  When the grid has no repeated bin start, the scheduler returns a
    schedule whose rows are, session after session in processing order,
    the rounded deliveries made for that session, and the deliveries of
    one session go to pairwise distinct bins.  When moreover the sessions
    have pairwise distinct identifiers, no two rows of the schedule share
    both [session_id] and [bin_start]. *)
Theorem greedy_one_row_per_session_bin (sessions : list Session)
    (time_index : list Timestamp) (bin_minutes : Z)
    (depot_power_cap_kw : Q) (max_concurrent_chargers : Z) :
  NoDup time_index →
  ∃ schedule load blocks,
    greedy_optimize_schedule sessions time_index bin_minutes
      depot_power_cap_kw max_concurrent_chargers = Some (schedule, load)
    ∧ schedule = row_of_delivery <$> concat blocks
    ∧ Forall2 (session_block time_index)
              (sort_sessions bin_minutes sessions) blocks
    ∧ (NoDup (session_id <$> sessions) →
       NoDup (row_key <$> schedule)
       ∧ ∀ i j r1 r2,
           schedule !! i = Some r1 → schedule !! j = Some r2 → i ≠ j →
           row_session_id r1 = row_session_id r2 →
           bin_start r1 ≠ bin_start r2).
Proof.
  intros Hgrid.
  destruct (greedy_run_total sessions time_index bin_minutes
              depot_power_cap_kw max_concurrent_chargers) as [st Hst].
  pose proof Hst as Hrun. unfold greedy_run in Hrun.
  destruct (greedy_sessions_blocks _ _ _ _ _ Hgrid _ _ Hrun)
    as (blocks & Htr & Hblocks).
  simpl in Htr.
  destruct (greedy_run_accounts_for_trace _ _ _ _ _ _ Hst) as [Hrows _].
  exists (g_rows st), (g_load st), blocks. split.
  { unfold greedy_optimize_schedule. rewrite Hst. reflexivity. }
  split; [rewrite Hrows, Htr; reflexivity|].
  split; [exact Hblocks|].
  intros Hids.
  assert (NoDup (row_key <$> g_rows st)) as Hnd.
  { eapply (greedy_sessions_rows_distinct time_index bin_minutes
              depot_power_cap_kw max_concurrent_chargers
              (sort_sessions bin_minutes sessions));
      [exact Hgrid| | | |exact Hrun].
    - unfold sort_sessions.
      rewrite (fmap_Permutation session_id _ _
                 (stable_sort_Permutation (session_before bin_minutes)
                    sessions)).
      exact Hids.
    - simpl. constructor.
    - simpl. intros r Hr. inversion Hr. }
  split; [exact Hnd|].
  intros i j r1 r2 Hi Hj Hij Hid Hbin. apply Hij.
  eapply NoDup_lookup; [exact Hnd| |].
  - rewrite list_lookup_fmap, Hi. reflexivity.
  - rewrite list_lookup_fmap, Hj. simpl. unfold row_key.
    rewrite Hid, Hbin. reflexivity.
Qed.

Lemma greedy_one_row_per_session_bin_witness :
  ∃ schedule load,
    greedy_optimize_schedule [Samples.ten_kwh] Samples.four_bins 7 100 5
    = Some (schedule, load)
    ∧ NoDup (row_key <$> schedule).
Proof.
  destruct (greedy_one_row_per_session_bin [Samples.ten_kwh]
              Samples.four_bins 7 100 5)
    as (schedule & load & blocks & Hrun & _ & _ & Hnd).
  - apply (bool_decide_unpack _). vm_compute. exact I.
  - exists schedule, load. split; [exact Hrun|]. apply Hnd.
    apply (bool_decide_unpack _). vm_compute. exact I.
Defined.

(** ** C2: the priority order *)

Lemma session_before_iff (bin_minutes : Z) (a b : Session) :
  session_before bin_minutes a b = true ↔ session_precedes bin_minutes a b.
Proof.
  unfold session_before, session_precedes.
  rewrite orb_true_iff, andb_true_iff, Qlt_bool_iff, Qeq_bool_iff,
    Z.leb_le.
  reflexivity.
Qed.

Lemma session_before_total (bin_minutes : Z) (a b : Session) :
  session_before bin_minutes a b = false →
  session_before bin_minutes b a = true.
Proof.
  rewrite <- not_true_iff_false, !session_before_iff.
  unfold session_precedes. intros H.
  destruct (Qlt_le_dec (tightness bin_minutes a) (tightness bin_minutes b))
    as [Hlt|Hge]; [left; exact Hlt|].
  destruct (Qlt_le_dec (tightness bin_minutes b) (tightness bin_minutes a))
    as [Hgt|Hle]; [exfalso; apply H; left; exact Hgt|].
  assert (tightness bin_minutes a == tightness bin_minutes b) as Heq by lra.
  right. split; [symmetry; exact Heq|].
  destruct (Z.le_gt_cases (earliest_start b) (earliest_start a))
    as [?|Hlt]; [assumption|].
  exfalso. apply H. right. split; [exact Heq | lia].
Qed.

Lemma session_before_trans (bin_minutes : Z) (a b c : Session) :
  session_before bin_minutes a b = true →
  session_before bin_minutes b c = true →
  session_before bin_minutes a c = true.
Proof.
  rewrite !session_before_iff. unfold session_precedes.
  intros [H1|[H1 H1']] [H2|[H2 H2']].
  - left. lra.
  - left. lra.
  - left. lra.
  - right. split; [lra | lia].
Qed.

Lemma session_precedes_refl (bin_minutes : Z) (s : Session) :
  session_precedes bin_minutes s s.
Proof. right. split; [reflexivity | lia]. Qed.

Lemma sort_sessions_sorted (bin_minutes : Z) (sessions : list Session) :
  StronglySorted (session_precedes bin_minutes)
                 (sort_sessions bin_minutes sessions).
Proof.
  pose proof (stable_sort_StronglySorted (session_before bin_minutes)
                sessions (session_before_total bin_minutes)
                (session_before_trans bin_minutes)) as H.
  unfold sort_sessions.
  induction H as [|s l _ IH Hs]; constructor; [exact IH|].
  eapply Forall_impl; [exact Hs|].
  intros x Hx. apply session_before_iff. exact Hx.
Qed.

(** The window length in bins is the plain ratio of the window to the bin
    width, kept at 1 or more; it is not rounded up. *)
Lemma window_bins_ratio (bin_minutes : Z) (s : Session) :
  (0 < bin_minutes)%Z →
  window_bins bin_minutes s
  == Qmax 1 (inject_Z (latest_end s - earliest_start s)
             / inject_Z (timedelta_minutes bin_minutes)).
Proof.
  intros Hbin. unfold window_bins. rewrite Q.max_comm.
  apply Q.max_compat; [reflexivity|].
  unfold total_seconds, timedelta_minutes. rewrite inject_Z_mult.
  change (inject_Z ns_per_second) with (1000000000 # 1).
  change (inject_Z ns_per_minute) with (60000000000 # 1).
  assert (0 < inject_Z bin_minutes) as Hpos
    by (rewrite Zlt_Qlt in Hbin; exact Hbin).
  field. intros E. rewrite E in Hpos. apply (Qlt_irrefl 0). exact Hpos.
Qed.

Lemma StronglySorted_constant {A} (R : relation A) (x : A) (l : list A) :
  R x x → Forall (λ y, y = x) l → StronglySorted R l.
Proof.
  intros Hx. induction 1 as [|y l -> Hl IH]; constructor; [exact IH|].
  eapply Forall_impl; [exact Hl|]. intros z ->. exact Hx.
Qed.

(** The deliveries of a run are made session by session, in the given
    order of the sessions. *)
Lemma greedy_sessions_trace_order (R : relation Session)
    (time_index : list Timestamp) (bin_minutes : Z) (cap : Q) (maxc : Z)
    (sessions : list Session) :
  (∀ s, R s s) →
  StronglySorted R sessions →
  ∀ st st',
    greedy_sessions time_index bin_minutes cap maxc st sessions = Some st' →
    ∃ new,
      g_trace st' = g_trace st ++ new
      ∧ Forall (λ d, d_session d ∈ sessions) new
      ∧ StronglySorted R (d_session <$> new).
Proof.
  intros Hrefl. induction 1 as [|s rest Hrest IH Hs];
    intros st st' Hrun; simpl in Hrun.
  - injection Hrun as <-. exists []. rewrite app_nil_r.
    split; [reflexivity|]. split; constructor.
  - destruct (greedy_session time_index bin_minutes cap maxc st s)
      as [st1|] eqn:Es; [|discriminate].
    simpl in Hrun.
    destruct (greedy_session_appends _ _ _ _ _ _ _ Es)
      as (new1 & Htr1 & Hs1 & _).
    destruct (IH _ _ Hrun) as (new2 & Htr2 & Hin2 & Hsorted2).
    exists (new1 ++ new2). split; [|split].
    + rewrite Htr2, Htr1, app_assoc. reflexivity.
    + apply Forall_app. split.
      * eapply Forall_impl; [exact Hs1|]. intros d ->. left.
      * eapply Forall_impl; [exact Hin2|]. intros d Hd. right. exact Hd.
    + rewrite fmap_app. apply StronglySorted_app_2.
      * intros x1 x2 Hx1 Hx2.
        apply list_elem_of_fmap in Hx1 as (d1 & -> & Hd1).
        apply list_elem_of_fmap in Hx2 as (d2 & -> & Hd2).
        rewrite Forall_forall in Hs1. rewrite Forall_forall in Hin2.
        rewrite Forall_forall in Hs.
        rewrite (Hs1 d1 Hd1). apply Hs. apply Hin2. exact Hd2.
      * apply (StronglySorted_constant R s); [apply Hrefl|].
        apply Forall_fmap. exact Hs1.
      * exact Hsorted2.
Qed.

(** C2, as the engine computes it.  For a bin width of 1 minute or more:
    [window_bins = max(1, (latest_end - earliest_start) / bin_width)], a
    ratio that is not rounded up to a whole number of bins;
    [tightness = energy_kwh / (max_kw * window_bins * bin_hours)]; the
    sessions are processed in a rearrangement of the input which is sorted
    by tightness descending, with ties broken by [earliest_start]
    ascending; and the deliveries of the run follow that order. *)
Theorem greedy_priority_order (sessions : list Session)
    (time_index : list Timestamp) (bin_minutes : Z)
    (depot_power_cap_kw : Q) (max_concurrent_chargers : Z) :
  (0 < bin_minutes)%Z →
  (∀ s, window_bins bin_minutes s
        == Qmax 1 (inject_Z (latest_end s - earliest_start s)
                   / inject_Z (timedelta_minutes bin_minutes)))
  ∧ (∀ s, tightness bin_minutes s
          == energy_kwh s
             / (max_kw s * window_bins bin_minutes s
                * bin_hours bin_minutes))
  ∧ sort_sessions bin_minutes sessions ≡ₚ sessions
  ∧ StronglySorted (session_precedes bin_minutes)
                   (sort_sessions bin_minutes sessions)
  ∧ greedy_run sessions time_index bin_minutes depot_power_cap_kw
      max_concurrent_chargers
    = greedy_sessions time_index bin_minutes depot_power_cap_kw
        max_concurrent_chargers (greedy_init time_index)
        (sort_sessions bin_minutes sessions)
  ∧ ∃ st,
      greedy_run sessions time_index bin_minutes depot_power_cap_kw
        max_concurrent_chargers = Some st
      ∧ StronglySorted (session_precedes bin_minutes)
                       (d_session <$> g_trace st).
Proof.
  intros Hbin.
  split; [intros s; apply window_bins_ratio; exact Hbin|].
  split; [intros s; reflexivity|].
  split; [apply stable_sort_Permutation|].
  split; [apply sort_sessions_sorted|].
  split; [reflexivity|].
  destruct (greedy_run_total sessions time_index bin_minutes
              depot_power_cap_kw max_concurrent_chargers) as [st Hst].
  exists st. split; [exact Hst|].
  unfold greedy_run in Hst.
  destruct (greedy_sessions_trace_order (session_precedes bin_minutes)
              time_index bin_minutes depot_power_cap_kw
              max_concurrent_chargers (sort_sessions bin_minutes sessions)
              (session_precedes_refl bin_minutes)
              (sort_sessions_sorted bin_minutes sessions) _ _ Hst)
    as (new & Htr & _ & Hsorted).
  simpl in Htr. rewrite Htr. exact Hsorted.
Qed.

Lemma greedy_priority_order_witness :
  window_bins 15 Samples.short_window
  == Qmax 1 (inject_Z (latest_end Samples.short_window
                       - earliest_start Samples.short_window)
             / inject_Z (timedelta_minutes 15))
  ∧ StronglySorted (session_precedes 15)
      (sort_sessions 15 [Samples.half_hour_window; Samples.short_window]).
Proof.
  destruct (greedy_priority_order
              [Samples.half_hour_window; Samples.short_window]
              Samples.four_bins 15 100 5 ltac:(lia))
    as (Hw & _ & _ & Hsorted & _).
  split; [apply Hw | exact Hsorted].
Defined.

(** C2, counterexample to the rounded-up window: a 20-minute window with
    15-minute bins has [window_bins = 4/3] in the engine, where rounding up
    gives 2.  The
    difference changes the order: the engine rates the 20-minute session
    tighter (6/5 against 1) and serves it first, whereas with the rounded
    window it would be the less tight one (4/5 against 1). *)
Lemma window_bins_is_not_rounded_up :
  window_bins 15 Samples.short_window == 4 # 3
  ∧ SpecWords.window_bins_spec 15 Samples.short_window == 2
  ∧ ¬ window_bins 15 Samples.short_window
      == SpecWords.window_bins_spec 15 Samples.short_window
  ∧ sort_sessions 15 [Samples.half_hour_window; Samples.short_window]
    = [Samples.short_window; Samples.half_hour_window]
  ∧ SpecWords.tightness_spec 15 Samples.short_window
    < SpecWords.tightness_spec 15 Samples.half_hour_window.
Proof.
  split; [vm_compute; reflexivity|].
  split; [vm_compute; reflexivity|].
  split; [vm_compute; discriminate|].
  split; vm_compute; reflexivity.
Qed.

(** ** The walk of the baseline simulator *)

Lemma timedelta_minutes_pos (bin_minutes : Z) :
  (0 < bin_minutes)%Z → (0 < timedelta_minutes bin_minutes)%Z.
Proof.
  unfold timedelta_minutes. change ns_per_minute with 60000000000%Z. lia.
Qed.

(** While the walk is before [stop], one step brings it one walk point
    closer. *)
Lemma walk_steps_advance (t stop : Timestamp) (bin_minutes : Z) :
  (0 < bin_minutes)%Z → (t < stop)%Z →
  walk_steps t stop bin_minutes
  = S (walk_steps (t + timedelta_minutes bin_minutes) stop bin_minutes).
Proof.
  intros Hbin Hlt. pose proof (timedelta_minutes_pos _ Hbin) as Hstep.
  unfold walk_steps, grid_size.
  set (step := timedelta_minutes bin_minutes) in *.
  replace (stop - t + step - 1)%Z with ((stop - t - 1) + 1 * step)%Z by lia.
  replace (stop - (t + step) + step - 1)%Z with (stop - t - 1)%Z by lia.
  rewrite Z.div_add by lia.
  assert (0 <= (stop - t - 1) / step)%Z by (apply Z.div_pos; lia).
  rewrite Z2Nat.inj_add by lia. simpl. lia.
Qed.

Lemma walk_steps_done (t stop : Timestamp) (bin_minutes : Z) :
  (0 < bin_minutes)%Z → (stop ≤ t)%Z → walk_steps t stop bin_minutes = 0%nat.
Proof.
  intros Hbin Hge. pose proof (timedelta_minutes_pos _ Hbin) as Hstep.
  unfold walk_steps, grid_size.
  set (step := timedelta_minutes bin_minutes) in *.
  assert ((stop - t + step - 1) / step <= 0)%Z; [|lia].
  assert ((stop - t + step - 1) / step < 1)%Z; [|lia].
  apply Z.div_lt_upper_bound; lia.
Qed.

Lemma baseline_body_t (kw_s : Q) (bin_minutes : Z) (w : Walk) :
  w_t (baseline_body kw_s bin_minutes w)
  = (w_t w + timedelta_minutes bin_minutes)%Z.
Proof.
  unfold baseline_body. destruct (in_index (w_t w) (w_load w)); reflexivity.
Qed.

Lemma baseline_body_index (kw_s : Q) (bin_minutes : Z) (w : Walk) :
  index (w_load (baseline_body kw_s bin_minutes w)) = index (w_load w).
Proof.
  unfold baseline_body. destruct (in_index (w_t w) (w_load w)); reflexivity.
Qed.

Lemma baseline_cond_true (stop : Timestamp) (w : Walk) :
  baseline_cond stop w = true ↔ tol < w_needed w ∧ (w_t w < stop)%Z.
Proof.
  unfold baseline_cond. rewrite andb_true_iff, Qlt_bool_iff, Z.ltb_lt.
  reflexivity.
Qed.

Lemma baseline_cond_false (stop : Timestamp) (w : Walk) :
  baseline_cond stop w = false ↔ w_needed w <= tol ∨ (stop ≤ w_t w)%Z.
Proof.
  unfold baseline_cond. rewrite andb_false_iff, Qlt_bool_false, Z.ltb_ge.
  reflexivity.
Qed.

(** Every pass of the body moves the walk towards [stop]. *)
Lemma baseline_body_advances (kw_s : Q) (bin_minutes : Z)
    (stop : Timestamp) (w : Walk) :
  (0 < bin_minutes)%Z → baseline_cond stop w = true →
  (walk_steps (w_t (baseline_body kw_s bin_minutes w)) stop bin_minutes
   < walk_steps (w_t w) stop bin_minutes)%nat.
Proof.
  intros Hbin Hc. apply baseline_cond_true in Hc as [_ Hlt].
  rewrite baseline_body_t, (walk_steps_advance (w_t w)) by assumption. lia.
Qed.

(** With as much fuel as walk points the loop stops by itself. *)
Lemma baseline_while_total (kw_s : Q) (bin_minutes : Z) (stop : Timestamp)
    (fuel : nat) (w : Walk) :
  (0 < bin_minutes)%Z →
  (walk_steps (w_t w) stop bin_minutes <= fuel)%nat →
  is_Some (baseline_while fuel kw_s bin_minutes stop w).
Proof.
  intros Hbin. revert w. induction fuel as [|fuel IH]; intros w Hle; simpl.
  - destruct (baseline_cond stop w) eqn:Ec; [|eexists; reflexivity].
    pose proof (baseline_body_advances kw_s _ _ _ Hbin Ec). lia.
  - destruct (baseline_cond stop w) eqn:Ec; [|eexists; reflexivity].
    apply IH.
    pose proof (baseline_body_advances kw_s _ _ _ Hbin Ec). lia.
Qed.

Lemma baseline_while_fuel_mono (kw_s : Q) (bin_minutes : Z)
    (stop : Timestamp) (fuel fuel' : nat) (w r : Walk) :
  baseline_while fuel kw_s bin_minutes stop w = Some r →
  (fuel <= fuel')%nat →
  baseline_while fuel' kw_s bin_minutes stop w = Some r.
Proof.
  revert fuel' w. induction fuel as [|fuel IH]; intros fuel' w; simpl.
  - destruct (baseline_cond stop w) eqn:Ec; [discriminate|].
    intros [= <-] _. destruct fuel'; simpl; rewrite Ec; reflexivity.
  - destruct (baseline_cond stop w) eqn:Ec.
    + intros Hrun Hle. destruct fuel' as [|fuel']; [lia|]. simpl.
      rewrite Ec. apply IH; [exact Hrun | lia].
    + intros [= <-] _. destruct fuel'; simpl; rewrite Ec; reflexivity.
Qed.

(** Loop invariants of the walk; the loop condition is false at exit. *)
Lemma baseline_while_inv (I : Walk → Prop) (kw_s : Q) (bin_minutes : Z)
    (stop : Timestamp) :
  (∀ w, baseline_cond stop w = true → I w →
        I (baseline_body kw_s bin_minutes w)) →
  ∀ fuel w w',
    baseline_while fuel kw_s bin_minutes stop w = Some w' → I w →
    I w' ∧ baseline_cond stop w' = false.
Proof.
  intros Hstep. induction fuel as [|fuel IH]; intros w w'; simpl.
  - destruct (baseline_cond stop w) eqn:Ec; [discriminate|].
    intros [= <-]. auto.
  - destruct (baseline_cond stop w) eqn:Ec; [|intros [= <-]; auto].
    intros Hrun HI. apply (IH _ _ Hrun). apply Hstep; assumption.
Qed.

Lemma baseline_session_total (bin_minutes : Z) (load : Series Q)
    (s : Session) :
  (0 < bin_minutes)%Z → is_Some (baseline_session bin_minutes load s).
Proof.
  intros Hbin. unfold baseline_session.
  destruct (baseline_while_total (max_kw s) bin_minutes (latest_end s)
              (walk_steps (earliest_start s) (latest_end s) bin_minutes)
              (mkWalk load (energy_kwh s) (earliest_start s)) Hbin)
    as [w Hw]; [simpl; lia|].
  rewrite Hw. eexists; reflexivity.
Qed.

Lemma baseline_sessions_total (bin_minutes : Z) (sessions : list Session)
    (load : Series Q) :
  (0 < bin_minutes)%Z →
  is_Some (baseline_sessions bin_minutes load sessions).
Proof.
  intros Hbin. revert load.
  induction sessions as [|s rest IH]; intros load; simpl.
  - eexists; reflexivity.
  - destruct (baseline_session_total bin_minutes load s Hbin) as [r ->].
    simpl. apply IH.
Qed.

(** ** C8: both simulations terminate *)

(** When the session's rate and the bin width are positive, a pass of the
    allocation loop also strictly decreases the remaining energy. *)
Lemma allocate_decreases_needed (s : Session) (bin_minutes : Z) (a : Alloc)
    (t : Timestamp) :
  (0 < bin_minutes)%Z → 0 < max_kw s → tol < a_needed a →
  a_needed (allocate s bin_minutes a t) < a_needed a.
Proof.
  intros Hbin Hkw Hneed. simpl. unfold deliver_kwh.
  pose proof (bin_hours_pos _ Hbin) as Hbh.
  assert (0 < max_kw s * bin_hours bin_minutes)
    by (apply Qmult_lt_0_compat; assumption).
  assert (0 < a_needed a) by (unfold tol in Hneed; lra).
  assert (0 < Qmin (a_needed a) (max_kw s * bin_hours bin_minutes))
    by (apply Q.min_glb_lt; assumption).
  lra.
Qed.

(** C8.  For a bin width of 1 minute or more both simulations return a
    result on every input.  In the baseline walk each pass of the
    per-session loop moves the walk time one bin width towards
    [latest_end], so as many passes as walk points suffice, and supplying
    more fuel does not change the result.  In the greedy scheduler each
    pass of the per-session loop removes one bin from the candidate bins
    (and strictly decreases the remaining energy when the session's rate
    is positive), so one more pass than candidate bins suffices, and
    supplying more fuel does not change the result. *)
Theorem simulations_terminate (bin_minutes : Z) :
  (0 < bin_minutes)%Z →
  (∀ sessions time_index,
     is_Some (baseline_load_curve sessions time_index bin_minutes))
  ∧ (∀ kw_s stop w,
       baseline_cond stop w = true →
       (walk_steps (w_t (baseline_body kw_s bin_minutes w)) stop bin_minutes
        < walk_steps (w_t w) stop bin_minutes)%nat)
  ∧ (∀ kw_s stop w fuel,
       (walk_steps (w_t w) stop bin_minutes <= fuel)%nat →
       ∃ w', baseline_while fuel kw_s bin_minutes stop w = Some w'
             ∧ baseline_while (walk_steps (w_t w) stop bin_minutes)
                 kw_s bin_minutes stop w = Some w'
             ∧ baseline_cond stop w' = false)
  ∧ (∀ sessions time_index cap maxc,
       is_Some (greedy_optimize_schedule sessions time_index bin_minutes
                  cap maxc))
  ∧ (∀ s cap maxc a a',
       greedy_body s bin_minutes cap maxc a = Some a' →
       (length (a_bins a') < length (a_bins a))%nat
       ∧ (0 < max_kw s → tol < a_needed a → a_needed a' < a_needed a))
  ∧ (∀ s cap maxc a fuel,
       (length (a_bins a) < fuel)%nat →
       ∃ a', greedy_while fuel s bin_minutes cap maxc a = Some a'
             ∧ greedy_while (S (length (a_bins a))) s bin_minutes cap maxc a
               = Some a').
Proof.
  intros Hbin.
  split; [|split; [|split; [|split; [|split]]]].
  - intros sessions time_index. apply baseline_sessions_total. exact Hbin.
  - intros kw_s stop w. apply baseline_body_advances. exact Hbin.
  - intros kw_s stop w fuel Hle.
    destruct (baseline_while_total kw_s bin_minutes stop
                (walk_steps (w_t w) stop bin_minutes) w Hbin (le_n _))
      as [w' Hw'].
    exists w'. split; [|split; [exact Hw'|]].
    + eapply baseline_while_fuel_mono; eassumption.
    + eapply (baseline_while_inv (λ _, True)); eauto.
  - intros sessions time_index cap maxc. unfold greedy_optimize_schedule.
    destruct (greedy_run_total sessions time_index bin_minutes cap maxc)
      as [st ->]. eexists; reflexivity.
  - intros s cap maxc a a' Hbody. split.
    + apply greedy_body_shrinks in Hbody. lia.
    + intros Hkw Hneed. unfold greedy_body in Hbody.
      destruct (choose_bin (a_state a) (max_kw s) cap maxc (a_bins a))
        as [t|]; [|discriminate].
      injection Hbody as <-. apply allocate_decreases_needed; assumption.
  - intros s cap maxc a fuel Hlen.
    destruct (greedy_while_total s bin_minutes cap maxc
                (S (length (a_bins a))) a (Nat.lt_succ_diag_r _))
      as [a' Ha'].
    exists a'. split; [|exact Ha'].
    eapply greedy_while_fuel_mono; [exact Ha' | lia].
Qed.

Lemma simulations_terminate_witness :
  is_Some (baseline_load_curve [Samples.one_hour_20kwh] Samples.day_grid 15)
  ∧ is_Some (greedy_optimize_schedule [Samples.one_hour_20kwh]
               Samples.day_grid 15 100 5).
Proof.
  destruct (simulations_terminate 15 ltac:(lia))
    as (Hbase & _ & _ & Hgreedy & _).
  split; [apply Hbase | apply Hgreedy].
Defined.

(** ** C3: what the baseline walk delivers *)

Lemma sum_loc_set_loc_notin (s : Series Q) (t : Timestamp) (v : Q)
    (idx : list Timestamp) :
  t ∉ idx → sumQ (loc 0 (set_loc s t v) <$> idx) == sumQ (loc 0 s <$> idx).
Proof.
  induction idx as [|t0 idx IH]; intros Hnotin; [reflexivity|].
  rewrite !fmap_cons, !sumQ_cons.
  rewrite not_elem_of_cons in Hnotin. destruct Hnotin as [Hne Hnotin].
  rewrite loc_set_loc_ne by congruence. rewrite IH by assumption.
  reflexivity.
Qed.

Lemma sum_loc_set_loc (s : Series Q) (t : Timestamp) (v : Q)
    (idx : list Timestamp) :
  NoDup idx → t ∈ idx →
  sumQ (loc 0 (set_loc s t v) <$> idx)
  == sumQ (loc 0 s <$> idx) - loc 0 s t + v.
Proof.
  induction 1 as [|t0 idx Ht0 Hnd IH]; intros Hin; [inversion Hin|].
  rewrite !fmap_cons, !sumQ_cons.
  destruct (decide (t = t0)) as [->|Hne].
  - rewrite loc_set_loc_eq, sum_loc_set_loc_notin by assumption. lra.
  - apply elem_of_cons in Hin as [?|Hin]; [contradiction|].
    rewrite loc_set_loc_ne by congruence. rewrite IH by assumption. lra.
Qed.

Lemma div_bin_hours_mul (x : Q) (bin_minutes : Z) :
  (0 < bin_minutes)%Z →
  x / bin_hours bin_minutes * bin_hours bin_minutes == x.
Proof.
  intros H. pose proof (bin_hours_pos _ H) as Hpos.
  rewrite Qmult_comm, Qmult_div_r; [reflexivity|].
  intros E. rewrite E in Hpos. apply (Qlt_irrefl 0). exact Hpos.
Qed.

(** The energy added to the curve is the energy taken off [needed_kwh]. *)
Lemma baseline_body_conserves (kw_s : Q) (bin_minutes : Z) (w : Walk) :
  (0 < bin_minutes)%Z → NoDup (index (w_load w)) →
  curve_kwh bin_minutes (w_load (baseline_body kw_s bin_minutes w))
  + w_needed (baseline_body kw_s bin_minutes w)
  == curve_kwh bin_minutes (w_load w) + w_needed w.
Proof.
  intros Hbin Hnd. unfold baseline_body, curve_kwh.
  destruct (in_index (w_t w) (w_load w)) eqn:Ein; simpl; [|reflexivity].
  apply in_index_true in Ein.
  rewrite sum_loc_set_loc by assumption.
  pose proof (div_bin_hours_mul
                (deliver_kwh (w_needed w) kw_s bin_minutes) _ Hbin) as Hd.
  set (u := deliver_kwh (w_needed w) kw_s bin_minutes
            / bin_hours bin_minutes) in *.
  set (d := deliver_kwh (w_needed w) kw_s bin_minutes) in *.
  set (S0 := sumQ (loc 0 (w_load w) <$> index (w_load w))).
  set (bh := bin_hours bin_minutes) in *.
  assert ((S0 - loc 0 (w_load w) (w_t w)
           + (loc 0 (w_load w) (w_t w) + u)) * bh
          == S0 * bh + u * bh) as E by ring.
  rewrite E, Hd. ring.
Qed.

Lemma baseline_body_needed_nonneg (kw_s : Q) (bin_minutes : Z) (w : Walk) :
  0 <= w_needed w → 0 <= w_needed (baseline_body kw_s bin_minutes w).
Proof.
  intros H. unfold baseline_body.
  destruct (in_index (w_t w) (w_load w)); simpl; [|exact H].
  pose proof (deliver_le_needed (w_needed w) kw_s bin_minutes). lra.
Qed.

Lemma inject_Z_of_nat_S (n : nat) :
  inject_Z (Z.of_nat (S n)) == inject_Z (Z.of_nat n) + 1.
Proof.
  rewrite Nat2Z.inj_succ, <- Z.add_1_r, inject_Z_plus. reflexivity.
Qed.

Lemma inject_Z_of_nat_nonneg (n : nat) : 0 <= inject_Z (Z.of_nat n).
Proof.
  change 0 with (inject_Z 0). rewrite <- Zle_Qle. lia.
Qed.

(** While the walk stays on the grid, what is still needed never exceeds
    what the remaining walk points can take. *)
Lemma baseline_body_keeps_capacity (s : Session) (bin_minutes : Z)
    (idx : list Timestamp) (w : Walk) :
  (0 < bin_minutes)%Z → 0 <= max_kw s →
  walk_on_grid bin_minutes idx s →
  baseline_cond (latest_end s) w = true →
  (index (w_load w) = idx
   ∧ (∃ k, (0 ≤ k)%Z
           ∧ w_t w
             = (earliest_start s + k * timedelta_minutes bin_minutes)%Z)
   ∧ 0 <= w_needed w
   ∧ w_needed w
     <= max_kw s * bin_hours bin_minutes
        * inject_Z (Z.of_nat (walk_steps (w_t w) (latest_end s)
                                bin_minutes))) →
  let w' := baseline_body (max_kw s) bin_minutes w in
  index (w_load w') = idx
  ∧ (∃ k, (0 ≤ k)%Z
          ∧ w_t w'
            = (earliest_start s + k * timedelta_minutes bin_minutes)%Z)
  ∧ 0 <= w_needed w'
  ∧ w_needed w'
    <= max_kw s * bin_hours bin_minutes
       * inject_Z (Z.of_nat (walk_steps (w_t w') (latest_end s)
                               bin_minutes)).
Proof.
  intros Hbin Hkw Hgrid Hc (Hidx & (k & Hk & Ht) & Hpos & Hcap).
  apply baseline_cond_true in Hc as [_ Hlt]. simpl.
  split; [rewrite baseline_body_index; exact Hidx|].
  split.
  { exists (k + 1)%Z. split; [lia|]. rewrite baseline_body_t, Ht. lia. }
  split; [apply baseline_body_needed_nonneg; exact Hpos|].
  rewrite baseline_body_t.
  rewrite (walk_steps_advance (w_t w)) in Hcap by assumption.
  rewrite inject_Z_of_nat_S in Hcap.
  pose proof (inject_Z_of_nat_nonneg
                (walk_steps (w_t w + timedelta_minutes bin_minutes)
                   (latest_end s) bin_minutes)) as Hn.
  set (N := inject_Z (Z.of_nat
                        (walk_steps (w_t w + timedelta_minutes bin_minutes)
                           (latest_end s) bin_minutes))) in *.
  assert (w_t w ∈ index (w_load w)) as Hin.
  { rewrite Hidx, Ht. apply Hgrid; [exact Hk | rewrite <- Ht; exact Hlt]. }
  apply in_index_true in Hin. unfold baseline_body. rewrite Hin. simpl.
  pose proof (bin_hours_pos _ Hbin) as Hbh.
  assert (0 <= max_kw s * bin_hours bin_minutes) as Hc0
    by (apply Qmult_le_0_compat; lra).
  set (c := max_kw s * bin_hours bin_minutes) in *.
  assert (0 <= c * N) by (apply Qmult_le_0_compat; assumption).
  assert (c * (N + 1) == c * N + c) as E by ring.
  rewrite E in Hcap. unfold deliver_kwh. fold c.
  destruct (Q.min_spec (w_needed w) c) as [[_ ->]|[_ ->]]; lra.
Qed.

(** After its first pass the walk never returns to [earliest_start]. *)
Lemma baseline_body_leaves_start (kw_s : Q) (bin_minutes : Z)
    (t0 : Timestamp) (v : Q) (w : Walk) :
  (0 < bin_minutes)%Z →
  loc 0 (w_load w) t0 = v ∧ (t0 < w_t w)%Z →
  loc 0 (w_load (baseline_body kw_s bin_minutes w)) t0 = v
  ∧ (t0 < w_t (baseline_body kw_s bin_minutes w))%Z.
Proof.
  intros Hbin [Hv Hlt]. pose proof (timedelta_minutes_pos _ Hbin).
  rewrite baseline_body_t. split; [|lia].
  unfold baseline_body. destruct (in_index (w_t w) (w_load w)); simpl.
  - rewrite loc_set_loc_ne by lia. exact Hv.
  - exact Hv.
Qed.

(** C3, as the engine behaves.  For a bin width of 1 minute or more and a
    session that
    asks for a non-negative energy, the baseline walk of the session
    returns, with the index of the load curve unchanged, and
    - the energy it delivers is at most [energy_kwh], and it is the energy
      added to the load curve;
    - it is within the loop tolerance (1e-6 kWh) of [energy_kwh] whenever
      every walk point [earliest_start + k * bin_width] before
      [latest_end] is a bin start of the grid and [energy_kwh] is at most
      [max_kw * bin_hours] times the number of walk points;
    - when [earliest_start] is itself a bin start and the loop is entered,
      the first delivery goes to that bin. *)
Theorem baseline_delivers_at_most_requested (bin_minutes : Z)
    (load : Series Q) (s : Session) :
  (0 < bin_minutes)%Z →
  0 <= energy_kwh s →
  ∃ load' remaining,
    baseline_session bin_minutes load s = Some (load', remaining)
    ∧ index load' = index load
    ∧ baseline_delivered s remaining <= energy_kwh s
    ∧ (NoDup (index load) →
       curve_kwh bin_minutes load'
       == curve_kwh bin_minutes load + baseline_delivered s remaining)
    ∧ (0 <= max_kw s →
       walk_on_grid bin_minutes (index load) s →
       fits_window bin_minutes s →
       energy_kwh s - tol <= baseline_delivered s remaining)
    ∧ (earliest_start s ∈ index load →
       tol < energy_kwh s →
       (earliest_start s < latest_end s)%Z →
       loc 0 load' (earliest_start s)
       = loc 0 load (earliest_start s)
         + deliver_kwh (energy_kwh s) (max_kw s) bin_minutes
           / bin_hours bin_minutes).
Proof.
  intros Hbin Henergy. unfold baseline_session, baseline_delivered.
  set (w0 := mkWalk load (energy_kwh s) (earliest_start s)).
  set (n := walk_steps (earliest_start s) (latest_end s) bin_minutes).
  destruct (baseline_while_total (max_kw s) bin_minutes (latest_end s) n w0
              Hbin (le_n _)) as [w Hw].
  rewrite Hw. simpl. exists (w_load w), (w_needed w).
  split; [reflexivity|].
  split.
  { apply (baseline_while_inv (λ w, index (w_load w) = index load)
             (max_kw s) bin_minutes (latest_end s)) in Hw as [H _];
      [exact H| |reflexivity].
    intros w1 _ H1. rewrite baseline_body_index. exact H1. }
  split.
  { apply (baseline_while_inv (λ w, 0 <= w_needed w)
             (max_kw s) bin_minutes (latest_end s)) in Hw as [H _];
      [lra| |exact Henergy].
    intros w1 _. apply baseline_body_needed_nonneg. }
  split.
  { intros Hnd.
    apply (baseline_while_inv
             (λ w, index (w_load w) = index load
                   ∧ curve_kwh bin_minutes (w_load w) + w_needed w
                     == curve_kwh bin_minutes load + energy_kwh s)
             (max_kw s) bin_minutes (latest_end s)) in Hw as [[_ H] _];
      [lra| |split; reflexivity].
    intros w1 _ [Hidx H1]. split.
    - rewrite baseline_body_index. exact Hidx.
    - rewrite baseline_body_conserves; [exact H1 | exact Hbin|].
      rewrite Hidx. exact Hnd. }
  split.
  { intros Hkw Hgrid Hfits.
    apply (baseline_while_inv
             (λ w, index (w_load w) = index load
                   ∧ (∃ k, (0 ≤ k)%Z
                           ∧ w_t w
                             = (earliest_start s
                                + k * timedelta_minutes bin_minutes)%Z)
                   ∧ 0 <= w_needed w
                   ∧ w_needed w
                     <= max_kw s * bin_hours bin_minutes
                        * inject_Z (Z.of_nat (walk_steps (w_t w)
                                                (latest_end s) bin_minutes)))
             (max_kw s) bin_minutes (latest_end s)) in Hw
      as [(_ & _ & Hpos & Hcap) Hexit].
    - apply baseline_cond_false in Hexit as [Hdone|Hend]; [lra|].
      rewrite (walk_steps_done _ _ _ Hbin Hend) in Hcap.
      change (inject_Z (Z.of_nat 0)) with 0 in Hcap.
      unfold tol. lra.
    - intros w1 Hc H1.
      apply (baseline_body_keeps_capacity s bin_minutes (index load));
        assumption.
    - split; [reflexivity|]. split; [exists 0%Z; simpl; split; lia|].
      split; [exact Henergy | exact Hfits]. }
  intros Hin Htol Hlt.
  assert (baseline_cond (latest_end s) w0 = true) as Hc0
    by (apply baseline_cond_true; split; assumption).
  unfold n in Hw. rewrite (walk_steps_advance _ _ _ Hbin Hlt) in Hw.
  simpl in Hw. rewrite Hc0 in Hw.
  apply (baseline_while_inv
           (λ w, loc 0 (w_load w) (earliest_start s)
                 = loc 0 load (earliest_start s)
                   + deliver_kwh (energy_kwh s) (max_kw s) bin_minutes
                     / bin_hours bin_minutes
                 ∧ (earliest_start s < w_t w)%Z)
           (max_kw s) bin_minutes (latest_end s)) in Hw as [[H _] _];
    [exact H| |].
  - intros w1 _. apply baseline_body_leaves_start. exact Hbin.
  - pose proof (timedelta_minutes_pos _ Hbin).
    rewrite baseline_body_t. split; [|simpl; lia].
    unfold baseline_body. apply in_index_true in Hin. simpl.
    rewrite Hin. simpl. apply loc_set_loc_eq.
Qed.

Lemma sample_walk_on_grid (s : Session) :
  earliest_start s = Samples.hours 18 → latest_end s = Samples.hours 19 →
  walk_on_grid 15 Samples.day_grid s.
Proof.
  intros Hes Hle k Hk Hlt. rewrite Hes, Hle in *.
  change (Samples.hours 18) with 64800000000000%Z in *.
  change (Samples.hours 19) with 68400000000000%Z in *.
  change (timedelta_minutes 15) with 900000000000%Z in *.
  assert (k = 0 ∨ k = 1 ∨ k = 2 ∨ k = 3)%Z as [-> | [-> | [-> | ->]]] by lia;
    apply (bool_decide_unpack _); vm_compute; exact I.
Qed.

(** A session of 8 kWh at 10 kW over one hour of the grid is served in
    full (within the tolerance). *)
Lemma baseline_delivers_at_most_requested_witness :
  ∃ load' remaining,
    baseline_session 15 (series_new 0 Samples.day_grid)
      Samples.one_hour_8kwh = Some (load', remaining)
    ∧ baseline_delivered Samples.one_hour_8kwh remaining
      <= energy_kwh Samples.one_hour_8kwh
    ∧ energy_kwh Samples.one_hour_8kwh - tol
      <= baseline_delivered Samples.one_hour_8kwh remaining.
Proof.
  destruct (baseline_delivers_at_most_requested 15
              (series_new 0 Samples.day_grid) Samples.one_hour_8kwh)
    as (load' & remaining & Hrun & _ & Hle & _ & Hfull & _).
  - lia.
  - vm_compute. discriminate.
  - exists load', remaining. split; [exact Hrun|]. split; [exact Hle|].
    apply Hfull.
    + vm_compute. discriminate.
    + apply sample_walk_on_grid; reflexivity.
    + vm_compute. discriminate.
Defined.

(** C3, counterexample to full delivery inside the grid: a session whose
    window, 18:00 to 19:00, lies inside the grid of the day and starts on
    a bin start, but which asks for 20 kWh at 10 kW, receives 10 kWh. *)
Lemma baseline_window_too_short :
  window_inside 0 (Samples.hours 24) Samples.one_hour_20kwh
  ∧ walk_on_grid 15 Samples.day_grid Samples.one_hour_20kwh
  ∧ ∃ load' remaining,
      baseline_session 15 (series_new 0 Samples.day_grid)
        Samples.one_hour_20kwh = Some (load', remaining)
      ∧ baseline_delivered Samples.one_hour_20kwh remaining == 10
      ∧ ¬ baseline_delivered Samples.one_hour_20kwh remaining
          == energy_kwh Samples.one_hour_20kwh.
Proof.
  split; [vm_compute; split; discriminate|].
  split; [apply sample_walk_on_grid; reflexivity|].
  eexists _, _. split; [vm_compute; reflexivity|].
  split; [vm_compute; reflexivity | vm_compute; discriminate].
Qed.

(** Not covered by the theorem above: a session that arrives between two
    bin starts.  The walk visits 18:05, 18:20, ..., none of which is a label
    of the index, and delivers nothing. *)
Remark baseline_start_between_bins :
  window_inside 0 (Samples.hours 24) Samples.arrives_1805
  ∧ ∃ load' remaining,
      baseline_session 15 (series_new 0 Samples.day_grid)
        Samples.arrives_1805 = Some (load', remaining)
      ∧ baseline_delivered Samples.arrives_1805 remaining == 0.
Proof.
  split; [vm_compute; split; discriminate|].
  eexists _, _. split; [vm_compute; reflexivity|].
  vm_compute. reflexivity.
Qed.

(* ===================================================================== *)
(** * Further properties of the engine and its callers *)
(* ===================================================================== *)

(** ** parse_sessions *)

(** X1.  [parse_sessions] keeps exactly the rows whose [latest_end] is
    after their [earliest_start], in their input order, and parsing an
    already parsed frame changes nothing. *)
Theorem parse_sessions_keeps_valid_windows (rows : list Session) :
  Forall (λ s, (earliest_start s < latest_end s)%Z) (parse_sessions rows)
  ∧ (∀ s, s ∈ parse_sessions rows
          ↔ s ∈ rows ∧ (earliest_start s < latest_end s)%Z)
  ∧ parse_sessions rows `sublist_of` rows
  ∧ parse_sessions (parse_sessions rows) = parse_sessions rows.
Proof.
  unfold parse_sessions. split; [|split; [|split]].
  - apply Forall_forall. intros s Hs.
    apply list_elem_of_filter in Hs. tauto.
  - intros s. rewrite list_elem_of_filter. tauto.
  - apply sublist_filter.
  - induction rows as [|s rows IH]; [reflexivity|].
    rewrite filter_cons.
    destruct (decide (earliest_start s < latest_end s)%Z) as [H|H].
    + rewrite filter_cons_True by exact H. rewrite IH. reflexivity.
    + exact IH.
Qed.

(** ** make_time_index *)

Lemma grid_size_bound (start stop : Timestamp) (bin_minutes : Z) (k : nat) :
  (0 < bin_minutes)%Z →
  (k < grid_size start stop bin_minutes)%nat
  ↔ (start + Z.of_nat k * timedelta_minutes bin_minutes < stop)%Z.
Proof.
  intros Hbin. pose proof (timedelta_minutes_pos _ Hbin) as Hstep.
  unfold grid_size. set (step := timedelta_minutes bin_minutes) in *.
  set (N := (stop - start + step - 1)%Z).
  pose proof (Z.div_mod N step ltac:(lia)) as Hdm.
  pose proof (Z.mod_pos_bound N step Hstep) as Hr.
  set (q := (N / step)%Z) in *. set (r := (N mod step)%Z) in *.
  split; intros H.
  - assert (Z.of_nat k < q)%Z by lia. nia.
  - assert (Z.of_nat k < q)%Z by nia. lia.
Qed.

Lemma make_time_index_lookup (start stop : Timestamp) (bin_minutes : Z)
    (i : nat) (t : Timestamp) :
  (0 < bin_minutes)%Z →
  make_time_index start stop bin_minutes !! i = Some t
  ↔ t = (start + Z.of_nat i * timedelta_minutes bin_minutes)%Z
    ∧ (t < stop)%Z.
Proof.
  intros Hbin. unfold make_time_index, date_range_left.
  destruct (Z.ltb_spec 0 bin_minutes) as [_|?]; [|lia].
  rewrite list_lookup_fmap, fmap_Some. split.
  - intros (k & Hk & ->). apply lookup_seq in Hk as [-> Hlt]. simpl.
    split; [reflexivity|]. apply grid_size_bound; assumption.
  - intros [-> Hlt]. exists i. split; [|reflexivity].
    apply lookup_seq. split; [reflexivity|].
    apply grid_size_bound; assumption.
Qed.

(** X2.  For a bin width of 1 minute or more the grid consists of the
    labels [start + k * width], [k = 0, 1, ...], that lie before [end]:
    it is left-closed and right-open, and a last, shorter bin is kept
    when the width does not divide the horizon.  The grid is empty when
    [end] is not after [start]. *)
Theorem make_time_index_labels (start stop : Timestamp) (bin_minutes : Z) :
  (0 < bin_minutes)%Z →
  (∀ t, t ∈ make_time_index start stop bin_minutes
        ↔ ∃ k, (0 ≤ k)%Z
               ∧ t = (start + k * timedelta_minutes bin_minutes)%Z
               ∧ (t < stop)%Z)
  ∧ (∀ t, t ∈ make_time_index start stop bin_minutes →
          (start ≤ t < stop)%Z)
  ∧ ((stop ≤ start)%Z → make_time_index start stop bin_minutes = []).
Proof.
  intros Hbin. pose proof (timedelta_minutes_pos _ Hbin) as Hstep.
  assert (∀ t, t ∈ make_time_index start stop bin_minutes
               ↔ ∃ k, (0 ≤ k)%Z
                      ∧ t = (start + k * timedelta_minutes bin_minutes)%Z
                      ∧ (t < stop)%Z) as Hmem.
  { intros t. rewrite list_elem_of_lookup. split.
    - intros (i & Hi). apply make_time_index_lookup in Hi as [-> Hlt];
        [|exact Hbin].
      exists (Z.of_nat i). split; [lia|]. split; [reflexivity | exact Hlt].
    - intros (k & Hk & -> & Hlt). exists (Z.to_nat k).
      apply make_time_index_lookup; [exact Hbin|].
      rewrite Z2Nat.id by exact Hk. split; [reflexivity | exact Hlt]. }
  split; [exact Hmem|]. split.
  - intros t Ht. apply Hmem in Ht as (k & Hk & -> & Hlt). split; [nia|lia].
  - intros Hle. apply elem_of_nil_inv. intros t Ht.
    apply Hmem in Ht as (k & Hk & -> & Hlt). nia.
Qed.

Lemma make_time_index_labels_witness :
  Samples.hours 18 ∈ Samples.day_grid
  ∧ ¬ Samples.hours 24 ∈ Samples.day_grid.
Proof.
  destruct (make_time_index_labels 0 (Samples.hours 24) 15 ltac:(lia))
    as (Hmem & Hrange & _).
  split.
  - apply Hmem. exists 72%Z. split; [lia|]. split; vm_compute; reflexivity.
  - intros H. apply Hrange in H. lia.
Defined.

(** X3.  The grid is in chronological order without repetition: its
    [i]-th label is [start + i * width], consecutive labels are one bin
    width apart, and it has [ceil((end - start) / width)] labels. *)
Theorem make_time_index_chronological (start stop : Timestamp)
    (bin_minutes : Z) :
  (0 < bin_minutes)%Z →
  StronglySorted Z.lt (make_time_index start stop bin_minutes)
  ∧ (∀ i t, make_time_index start stop bin_minutes !! i = Some t →
            t = (start + Z.of_nat i * timedelta_minutes bin_minutes)%Z)
  ∧ (∀ i t t', make_time_index start stop bin_minutes !! i = Some t →
               make_time_index start stop bin_minutes !! S i = Some t' →
               t' = (t + timedelta_minutes bin_minutes)%Z)
  ∧ length (make_time_index start stop bin_minutes)
    = grid_size start stop bin_minutes.
Proof.
  intros Hbin. pose proof (timedelta_minutes_pos _ Hbin) as Hstep.
  split; [|split; [|split]].
  - unfold make_time_index, date_range_left.
    destruct (Z.ltb_spec 0 bin_minutes) as [_|?]; [|lia].
    generalize (grid_size start stop bin_minutes). intros n.
    generalize 0%nat. induction n as [|n IH]; intros j; simpl.
    + constructor.
    + constructor; [apply IH|].
      apply Forall_forall. intros t Ht.
      apply list_elem_of_fmap in Ht as (k & -> & Hk).
      apply elem_of_seq in Hk. nia.
  - intros i t Hi. apply make_time_index_lookup in Hi; [tauto | exact Hbin].
  - intros i t t' Hi Hi'.
    apply make_time_index_lookup in Hi as [-> _]; [|exact Hbin].
    apply make_time_index_lookup in Hi' as [-> _]; [|exact Hbin]. lia.
  - unfold make_time_index, date_range_left.
    destruct (Z.ltb_spec 0 bin_minutes) as [_|?]; [|lia].
    rewrite length_fmap, length_seq. reflexivity.
Qed.

Lemma make_time_index_chronological_witness :
  StronglySorted Z.lt Samples.day_grid ∧ length Samples.day_grid = 96%nat.
Proof.
  destruct (make_time_index_chronological 0 (Samples.hours 24) 15
              ltac:(lia)) as (Hsorted & _ & _ & Hlen).
  split; [exact Hsorted|].
  etransitivity; [exact Hlen | vm_compute; reflexivity].
Defined.

(** ** tou_rate_for_ts, continued *)

Lemma tou_rate_scan (ts : Timestamp) (tariff : Tariff) :
  tou_rate_for_ts ts tariff
  = tou_scan (hour_of_day ts) (tou_blocks tariff)
             (flat_energy_rate_per_kwh tariff).
Proof.
  unfold tou_rate_for_ts. destruct (tou_blocks tariff); reflexivity.
Qed.

Lemma hour_minute_of_day (ts : Timestamp) :
  hour ts = (minute_of_day ts / 60)%Z
  ∧ minute ts = (minute_of_day ts mod 60)%Z.
Proof.
  unfold hour, minute, minute_of_day.
  replace ns_per_hour with (ns_per_minute * 60)%Z by reflexivity.
  rewrite <- Z.div_div by (unfold ns_per_minute, ns_per_second; lia).
  set (m := (ts / ns_per_minute)%Z).
  change 1440%Z with (60 * 24)%Z.
  rewrite Z.rem_mul_r by lia.
  pose proof (Z.mod_pos_bound m 60 eq_refl).
  pose proof (Z.mod_pos_bound (m / 60) 24 eq_refl).
  split.
  - rewrite (Z.mul_comm 60), Z.div_add by lia.
    rewrite (Z.div_small (m mod 60)) by lia. lia.
  - rewrite (Z.mul_comm 60), Z.mod_add by lia.
    rewrite Z.mod_mod by lia. reflexivity.
Qed.

Lemma hour_of_day_minute_of_day (ts ts' : Timestamp) :
  minute_of_day ts = minute_of_day ts' → hour_of_day ts = hour_of_day ts'.
Proof.
  intros H. unfold hour_of_day.
  destruct (hour_minute_of_day ts) as [-> ->].
  destruct (hour_minute_of_day ts') as [-> ->].
  rewrite H. reflexivity.
Qed.

(** X4.  The rate depends on the timestamp only through its minute of the
    day: two timestamps in the same minute of the day get the same rate.
    In particular the rate repeats every 24 hours and the seconds within
    a minute are ignored. *)
Theorem tou_rate_depends_on_minute_of_day (tariff : Tariff) :
  (∀ ts ts', minute_of_day ts = minute_of_day ts' →
             tou_rate_for_ts ts tariff = tou_rate_for_ts ts' tariff)
  ∧ (∀ ts k, tou_rate_for_ts (ts + k * ns_per_day) tariff
             = tou_rate_for_ts ts tariff)
  ∧ (∀ ts d, (0 ≤ ts mod ns_per_minute + d < ns_per_minute)%Z →
             tou_rate_for_ts (ts + d) tariff = tou_rate_for_ts ts tariff).
Proof.
  assert (∀ ts ts', minute_of_day ts = minute_of_day ts' →
                    tou_rate_for_ts ts tariff = tou_rate_for_ts ts' tariff)
    as Hmain.
  { intros ts ts' H. rewrite !tou_rate_scan.
    rewrite (hour_of_day_minute_of_day ts ts' H). reflexivity. }
  split; [exact Hmain|]. split.
  - intros ts k. apply Hmain. unfold minute_of_day.
    replace (ts + k * ns_per_day)%Z
      with (ts + (k * 1440) * ns_per_minute)%Z
      by (unfold ns_per_day, ns_per_hour; lia).
    rewrite Z.div_add by (vm_compute; discriminate).
    rewrite Z.mod_add by lia. reflexivity.
  - intros ts d Hd. apply Hmain. unfold minute_of_day. f_equal.
    assert (0 < ns_per_minute)%Z as HM by reflexivity.
    pose proof (Z.div_mod ts ns_per_minute ltac:(lia)) as Hdm.
    symmetry. apply (Z.div_unique _ _ _ (ts mod ns_per_minute + d)%Z);
      [left; exact Hd | lia].
Qed.

Lemma tou_rate_depends_on_minute_of_day_witness :
  tou_rate_for_ts (Samples.half_past_one + 59 * ns_per_second)
    Samples.overlapping_tariff
  = tou_rate_for_ts Samples.half_past_one Samples.overlapping_tariff.
Proof.
  destruct (tou_rate_depends_on_minute_of_day Samples.overlapping_tariff)
    as (_ & _ & Hsec).
  apply Hsec. vm_compute. split; [discriminate | reflexivity].
Defined.

(** X5.  A block whose [end_hour] is not after its [start_hour] (such as
    an overnight block written 22 to 6) never applies: the resolver
    returns the same rate as for the tariff without such blocks. *)
Theorem tou_rate_ignores_empty_blocks (ts : Timestamp) (tariff : Tariff) :
  tou_rate_for_ts ts (drop_empty_blocks tariff) = tou_rate_for_ts ts tariff.
Proof.
  rewrite !tou_rate_scan. unfold drop_empty_blocks. simpl.
  induction (tou_blocks tariff) as [|b rest IH]; [reflexivity|].
  rewrite filter_cons. simpl.
  destruct (Qle_bool (start_hour b) (hour_of_day ts)
            && Qlt_bool (hour_of_day ts) (end_hour b)) eqn:E.
  - apply andb_true_iff in E as [E1 E2].
    apply Qle_bool_iff in E1. apply Qlt_bool_iff in E2.
    destruct (decide (Qlt_bool (start_hour b) (end_hour b) = true))
      as [_|Hn].
    + simpl. apply Qle_bool_iff in E1. apply Qlt_bool_iff in E2.
      rewrite E1, E2. reflexivity.
    + exfalso. apply Hn. apply Qlt_bool_iff. lra.
  - destruct (decide (Qlt_bool (start_hour b) (end_hour b) = true)).
    + simpl. rewrite E. exact IH.
    + exact IH.
Qed.

(** The rate is the flat rate or the rate of a block, so it lies between
    any bounds that hold for all of them. *)
Lemma tou_rate_bounds (ts : Timestamp) (tariff : Tariff) (lo hi : Q) :
  lo <= flat_energy_rate_per_kwh tariff <= hi →
  Forall (λ b, lo <= rate_per_kwh b <= hi) (tou_blocks tariff) →
  lo <= tou_rate_for_ts ts tariff <= hi.
Proof.
  intros Hflat Hblocks. rewrite tou_rate_scan.
  induction Hblocks as [|b rest Hb _ IH]; simpl; [exact Hflat|].
  destruct (Qle_bool (start_hour b) (hour_of_day ts)
            && Qlt_bool (hour_of_day ts) (end_hour b)); assumption.
Qed.

(** ** estimate_costs *)

Lemma loc_series_new_cases {V} (d v : V) (idx : list Timestamp)
    (t : Timestamp) :
  loc d (series_new v idx) t = v ∨ loc d (series_new v idx) t = d.
Proof.
  unfold loc, series_new; simpl.
  induction idx as [|t0 idx IH]; simpl.
  - rewrite lookup_empty. right. reflexivity.
  - rewrite lookup_insert. destruct (decide (t0 = t)); [left; reflexivity|].
    exact IH.
Qed.

Lemma sumQ_scale (c : Q) (l : list Q) :
  sumQ ((λ x, x * c) <$> l) == sumQ l * c.
Proof.
  induction l as [|x l IH]; [vm_compute; reflexivity|].
  rewrite !fmap_cons, !sumQ_cons, IH. ring.
Qed.

Lemma sumQ_le {A} (f g : A → Q) (l : list A) :
  (∀ x, x ∈ l → f x <= g x) → sumQ (f <$> l) <= sumQ (g <$> l).
Proof.
  induction l as [|x l IH]; intros H; [vm_compute; discriminate|].
  rewrite !fmap_cons, !sumQ_cons.
  assert (f x <= g x) by (apply H; left).
  assert (sumQ (f <$> l) <= sumQ (g <$> l))
    by (apply IH; intros y Hy; apply H; right; exact Hy).
  lra.
Qed.

(** The two running sums of the loop over [load_kw.items()]. *)
Lemma estimate_costs_fold (tariff : Tariff) (bin_minutes : Z)
    (its : list (Timestamp * Q)) (a b : Q) :
  let acc :=
    foldl (λ (acc : Q * Q) (it : Timestamp * Q),
             (acc.1 + it.2 * bin_hours bin_minutes,
              acc.2 + it.2 * bin_hours bin_minutes
                      * tou_rate_for_ts it.1 tariff))
          (a, b) its in
  acc.1 == a + sumQ ((λ it, it.2 * bin_hours bin_minutes) <$> its)
  ∧ acc.2 == b + sumQ ((λ it, it.2 * bin_hours bin_minutes
                              * tou_rate_for_ts it.1 tariff) <$> its).
Proof.
  revert a b. induction its as [|it its IH]; intros a b; cbn zeta.
  - unfold sumQ. simpl. split; lra.
  - rewrite !fmap_cons, !sumQ_cons. cbn [foldl fst snd].
    destruct (IH (a + it.2 * bin_hours bin_minutes)
                 (b + it.2 * bin_hours bin_minutes
                      * tou_rate_for_ts it.1 tariff)) as [H1 H2].
    cbn zeta in H1, H2. cbn zeta. rewrite H1, H2. split; ring.
Qed.

Lemma estimate_costs_sums (load_kw : Series Q) (tariff : Tariff)
    (bin_minutes : Z) :
  total_kwh (estimate_costs load_kw tariff bin_minutes)
  == curve_kwh bin_minutes load_kw
  ∧ energy_cost (estimate_costs load_kw tariff bin_minutes)
    == sumQ ((λ t, loc 0 load_kw t * bin_hours bin_minutes
                   * tou_rate_for_ts t tariff) <$> index load_kw).
Proof.
  unfold estimate_costs, curve_kwh. simpl.
  destruct (estimate_costs_fold tariff bin_minutes (items 0 load_kw) 0 0)
    as [H1 H2].
  simpl in H1, H2. unfold items in *.
  rewrite <- !list_fmap_compose in H1, H2. split.
  - rewrite H1, <- sumQ_scale, <- list_fmap_compose, Qplus_0_l.
    apply Qeq_refl.
  - rewrite H2, Qplus_0_l. apply Qeq_refl.
Qed.

(** X6.  The cost breakdown adds up: [total_kwh] is the sum over the bins
    of load times bin length, [energy_cost] is the sum over the bins of
    that energy times the rate in force at the bin start,
    [demand_charge_cost] is the peak times the demand charge, and
    [total_cost] is their sum.  With no time-of-use block the energy cost
    is the flat rate times [total_kwh]. *)
Theorem estimate_costs_breakdown (load_kw : Series Q) (tariff : Tariff)
    (bin_minutes : Z) :
  let c := estimate_costs load_kw tariff bin_minutes in
  total_kwh c
  == sumQ (loc 0 load_kw <$> index load_kw) * bin_hours bin_minutes
  ∧ energy_cost c
    == sumQ ((λ t, loc 0 load_kw t * bin_hours bin_minutes
                   * tou_rate_for_ts t tariff) <$> index load_kw)
  ∧ demand_charge_cost c = peak_kw c * demand_charge_per_kw tariff
  ∧ total_cost c = energy_cost c + demand_charge_cost c
  ∧ (tou_blocks tariff = [] →
     energy_cost c == flat_energy_rate_per_kwh tariff * total_kwh c).
Proof.
  simpl. destruct (estimate_costs_sums load_kw tariff bin_minutes)
    as [Htot Hen].
  split; [exact Htot|]. split; [exact Hen|].
  split; [reflexivity|]. split; [reflexivity|].
  intros Hflat. rewrite Hen, Htot. unfold curve_kwh.
  rewrite <- sumQ_scale, <- list_fmap_compose.
  assert (∀ l : list Timestamp,
            sumQ ((λ t, loc 0 load_kw t * bin_hours bin_minutes
                        * tou_rate_for_ts t tariff) <$> l)
            == flat_energy_rate_per_kwh tariff
               * sumQ (((λ x, x * bin_hours bin_minutes) ∘ loc 0 load_kw)
                       <$> l)) as H.
  { induction l as [|t l IH]; [unfold sumQ; simpl; ring|].
    rewrite !fmap_cons, !sumQ_cons, IH. simpl.
    unfold tou_rate_for_ts. rewrite Hflat. ring. }
  apply H.
Qed.

Lemma estimate_costs_breakdown_witness :
  energy_cost (estimate_costs (series_new 7 Samples.four_bins)
                 (mkTariff 3 2 []) 7)
  == 3 * total_kwh (estimate_costs (series_new 7 Samples.four_bins)
                      (mkTariff 3 2 []) 7).
Proof.
  destruct (estimate_costs_breakdown (series_new 7 Samples.four_bins)
              (mkTariff 3 2 []) 7) as (_ & _ & _ & _ & Hflat).
  apply Hflat. reflexivity.
Defined.

Lemma Qmax_cases (x y : Q) :
  (Qmax x y = x ∧ y <= x) ∨ (Qmax x y = y ∧ x <= y).
Proof.
  unfold Qmax, GenericMinMax.gmax.
  destruct (Qcompare_spec x y) as [E|E|E].
  - left. split; [reflexivity | lra].
  - right. split; [reflexivity | lra].
  - left. split; [reflexivity | lra].
Qed.

Lemma foldl_Qmax_spec (v : Q) (l : list Q) :
  v <= foldl Qmax v l
  ∧ Forall (λ x, x <= foldl Qmax v l) l
  ∧ foldl Qmax v l ∈ v :: l.
Proof.
  revert v. induction l as [|x l IH]; intros v; simpl.
  - split; [lra|]. split; [constructor | left].
  - destruct (IH (Qmax v x)) as (H1 & H2 & H3).
    destruct (Qmax_cases v x) as [[E Hle]|[E Hle]]; rewrite E in *.
    + split; [exact H1|]. split.
      * constructor; [lra | exact H2].
      * apply elem_of_cons in H3 as [->|H3]; [left | right; right; exact H3].
    + split; [lra|]. split.
      * constructor; [exact H1 | exact H2].
      * right. exact H3.
Qed.

Lemma series_peak_spec (load_kw : Series Q) :
  (∀ t, t ∈ index load_kw → loc 0 load_kw t <= series_peak load_kw)
  ∧ ((index load_kw = [] ∧ series_peak load_kw = 0)
     ∨ ∃ t, t ∈ index load_kw ∧ series_peak load_kw = loc 0 load_kw t).
Proof.
  unfold series_peak, items.
  rewrite <- list_fmap_compose.
  change (snd ∘ (λ t, (t, loc 0 load_kw t))) with (loc 0 load_kw).
  destruct (index load_kw) as [|t0 idx]; simpl.
  - split; [intros t Ht; inversion Ht|]. left. split; reflexivity.
  - destruct (foldl_Qmax_spec (loc 0 load_kw t0) (loc 0 load_kw <$> idx))
      as (H1 & H2 & H3).
    split.
    + intros t Ht. apply elem_of_cons in Ht as [->|Ht]; [exact H1|].
      rewrite Forall_forall in H2. apply H2.
      apply list_elem_of_fmap. exists t. split; [reflexivity | exact Ht].
    + right. apply elem_of_cons in H3 as [H3|H3].
      * exists t0. split; [left | exact H3].
      * apply list_elem_of_fmap in H3 as (t & Ht & Hin).
        exists t. split; [right; exact Hin | exact Ht].
Qed.

(** X7.  [peak_kw] is the largest load of the curve: no bin exceeds it
    and, unless the curve has no bin, some bin attains it; it is 0 for a
    curve without bins. *)
Theorem estimate_costs_peak (load_kw : Series Q) (tariff : Tariff)
    (bin_minutes : Z) :
  let c := estimate_costs load_kw tariff bin_minutes in
  (∀ t, t ∈ index load_kw → loc 0 load_kw t <= peak_kw c)
  ∧ (index load_kw ≠ [] →
     ∃ t, t ∈ index load_kw ∧ peak_kw c = loc 0 load_kw t)
  ∧ (index load_kw = [] → peak_kw c = 0).
Proof.
  simpl. destruct (series_peak_spec load_kw) as [Hub Hcases].
  split; [exact Hub|]. split.
  - intros Hne. destruct Hcases as [[Hemp _]|Hatt]; [contradiction|].
    exact Hatt.
  - intros Hemp. destruct Hcases as [[_ Hz]|(t & Ht & _)]; [exact Hz|].
    rewrite Hemp in Ht. inversion Ht.
Qed.

Lemma estimate_costs_peak_witness :
  ∃ t, t ∈ Samples.four_bins
       ∧ peak_kw (estimate_costs (series_new 7 Samples.four_bins)
                    (mkTariff 3 2 []) 7)
         = loc 0 (series_new 7 Samples.four_bins) t.
Proof.
  destruct (estimate_costs_peak (series_new 7 Samples.four_bins)
              (mkTariff 3 2 []) 7) as (_ & Hatt & _).
  apply Hatt. vm_compute. discriminate.
Defined.

(** X8.  When no bin has a negative load, the bin width is 1 minute or
    more and the flat rate and every block rate lie between [lo] and
    [hi], the energy cost lies between [lo] and [hi] times [total_kwh].
    With rates and demand charge that are not negative, no figure of the
    breakdown is negative. *)
Theorem estimate_costs_bounds (load_kw : Series Q) (tariff : Tariff)
    (bin_minutes : Z) (lo hi : Q) :
  (0 < bin_minutes)%Z →
  (∀ t, t ∈ index load_kw → 0 <= loc 0 load_kw t) →
  lo <= flat_energy_rate_per_kwh tariff <= hi →
  Forall (λ b, lo <= rate_per_kwh b <= hi) (tou_blocks tariff) →
  let c := estimate_costs load_kw tariff bin_minutes in
  lo * total_kwh c <= energy_cost c <= hi * total_kwh c
  ∧ 0 <= total_kwh c
  ∧ 0 <= peak_kw c
  ∧ (0 <= lo → 0 <= demand_charge_per_kw tariff →
     0 <= energy_cost c ∧ 0 <= demand_charge_cost c ∧ 0 <= total_cost c).
Proof.
  intros Hbin Hload Hflat Hblocks c.
  pose proof (bin_hours_pos _ Hbin) as Hbh.
  destruct (estimate_costs_sums load_kw tariff bin_minutes) as [Htot Hen].
  fold c in Htot, Hen. unfold curve_kwh in Htot.
  set (k := λ t, loc 0 load_kw t * bin_hours bin_minutes).
  assert (∀ t, t ∈ index load_kw → 0 <= k t) as Hk.
  { intros t Ht. apply Qmult_le_0_compat; [apply Hload; exact Ht | lra]. }
  assert (total_kwh c == sumQ (k <$> index load_kw)) as Htot'.
  { rewrite Htot, <- sumQ_scale, <- list_fmap_compose. apply Qeq_refl. }
  assert (∀ r, sumQ ((λ t, k t * r) <$> index load_kw)
               == r * total_kwh c) as Hscale.
  { intros r. rewrite Htot', (Qmult_comm r), <- sumQ_scale,
      <- list_fmap_compose. apply Qeq_refl. }
  assert (lo * total_kwh c <= energy_cost c <= hi * total_kwh c) as Hbounds.
  { rewrite Hen, <- (Hscale lo), <- (Hscale hi).
    split; apply sumQ_le; intros t Ht; fold (k t);
      pose proof (Hk t Ht);
      destruct (tou_rate_bounds t tariff lo hi Hflat Hblocks);
      rewrite !(Qmult_comm (k t)); apply Qmult_le_compat_r; assumption. }
  assert (0 <= total_kwh c) as Htot0.
  { rewrite Htot'. rewrite <- (Qmult_0_l (total_kwh c)), <- (Hscale 0).
    apply sumQ_le. intros t Ht. simpl. pose proof (Hk t Ht). lra. }
  assert (0 <= peak_kw c) as Hpeak.
  { destruct (series_peak_spec load_kw)
      as [_ [[_ Hz]|(t & Ht & Hp)]]; unfold c; simpl.
    - rewrite Hz. lra.
    - rewrite Hp. apply Hload. exact Ht. }
  split; [exact Hbounds|]. split; [exact Htot0|]. split; [exact Hpeak|].
  intros Hlo Hdem.
  assert (0 <= energy_cost c).
  { destruct Hbounds as [Hb _].
    assert (0 <= lo * total_kwh c) by (apply Qmult_le_0_compat; assumption).
    lra. }
  assert (0 <= demand_charge_cost c).
  { unfold c. simpl. apply Qmult_le_0_compat; assumption. }
  split; [assumption|]. split; [assumption|].
  unfold c in *. simpl in *. lra.
Qed.

Lemma estimate_costs_bounds_witness :
  let c := estimate_costs (series_new 7 Samples.four_bins)
             Samples.overlapping_tariff 7 in
  1 * total_kwh c <= energy_cost c <= 9 * total_kwh c ∧ 0 <= total_cost c.
Proof.
  destruct (estimate_costs_bounds (series_new 7 Samples.four_bins)
              Samples.overlapping_tariff 7 1 9)
    as (Hb & _ & _ & Hpos).
  - lia.
  - intros t _.
    destruct (loc_series_new_cases 0 7 Samples.four_bins t) as [-> | ->];
      lra.
  - vm_compute. split; discriminate.
  - repeat constructor; vm_compute; discriminate.
  - split; [exact Hb|]. apply Hpos; vm_compute; discriminate.
Defined.

(** ** baseline_load_curve, the whole run *)

Lemma baseline_session_energy (bin_minutes : Z) (load load' : Series Q)
    (s : Session) (remaining : Q) :
  (0 < bin_minutes)%Z →
  baseline_session bin_minutes load s = Some (load', remaining) →
  index load' = index load
  ∧ (0 <= energy_kwh s → 0 <= remaining)
  ∧ (NoDup (index load) →
     curve_kwh bin_minutes load' + remaining
     == curve_kwh bin_minutes load + energy_kwh s).
Proof.
  intros Hbin. unfold baseline_session.
  destruct (baseline_while _ _ _ _ _) as [w|] eqn:Hw; [|discriminate].
  simpl. intros [= <- <-].
  apply (baseline_while_inv
           (λ w, index (w_load w) = index load
                 ∧ (0 <= energy_kwh s → 0 <= w_needed w)
                 ∧ (NoDup (index load) →
                    curve_kwh bin_minutes (w_load w) + w_needed w
                    == curve_kwh bin_minutes load + energy_kwh s))
           (max_kw s) bin_minutes (latest_end s)) in Hw as [H _];
    [exact H| |].
  - intros w1 _ (Hidx & Hpos & Hsum). split; [|split].
    + rewrite baseline_body_index. exact Hidx.
    + intros H0. apply baseline_body_needed_nonneg. auto.
    + intros Hnd. rewrite baseline_body_conserves; [auto | exact Hbin|].
      rewrite Hidx. exact Hnd.
  - simpl. split; [reflexivity|]. split; [auto | reflexivity].
Qed.

(** What one pass of the walk does to the load of a bin. *)
Lemma baseline_body_bins (s : Session) (bin_minutes : Z) (load : Series Q)
    (w : Walk) :
  (0 < bin_minutes)%Z → 0 <= max_kw s →
  baseline_cond (latest_end s) w = true →
  ((earliest_start s ≤ w_t w)%Z
   ∧ ∀ t, ((w_t w ≤ t)%Z ∨ ¬ (earliest_start s ≤ t < latest_end s)%Z →
           loc 0 (w_load w) t = loc 0 load t)
          ∧ loc 0 load t <= loc 0 (w_load w) t <= loc 0 load t + max_kw s) →
  let w' := baseline_body (max_kw s) bin_minutes w in
  (earliest_start s ≤ w_t w')%Z
  ∧ ∀ t, ((w_t w' ≤ t)%Z ∨ ¬ (earliest_start s ≤ t < latest_end s)%Z →
          loc 0 (w_load w') t = loc 0 load t)
         ∧ loc 0 load t <= loc 0 (w_load w') t <= loc 0 load t + max_kw s.
Proof.
  intros Hbin Hkw Hc [Hes Hall]. simpl.
  pose proof (timedelta_minutes_pos _ Hbin) as Hstep.
  apply baseline_cond_true in Hc as [Hneed Hlt].
  rewrite baseline_body_t. split; [lia|]. intros t.
  destruct (Hall t) as [Hsame Hrange].
  unfold baseline_body.
  destruct (in_index (w_t w) (w_load w)); simpl.
  - rewrite loc_set_loc. destruct (decide (w_t w = t)) as [<-|Hne].
    + split; [intros [?|Hout]; [lia | exfalso; apply Hout; lia]|].
      rewrite (proj1 (Hall (w_t w))) by (left; lia).
      pose proof (used_kw_le_max (w_needed w) (max_kw s) bin_minutes Hbin).
      pose proof (bin_hours_pos _ Hbin) as Hbh.
      assert (0 <= deliver_kwh (w_needed w) (max_kw s) bin_minutes).
      { apply Q.min_glb; [unfold tol in Hneed; lra|].
        apply Qmult_le_0_compat; lra. }
      assert (0 <= deliver_kwh (w_needed w) (max_kw s) bin_minutes
                   / bin_hours bin_minutes).
      { apply Qle_shift_div_l; [exact Hbh | lra]. }
      lra.
    + split; [|exact Hrange].
      intros [?|Hout]; apply Hsame; [left; lia | right; exact Hout].
  - split; [|exact Hrange].
    intros [?|Hout]; apply Hsame; [left; lia | right; exact Hout].
Qed.

Lemma baseline_session_bins (bin_minutes : Z) (load load' : Series Q)
    (s : Session) (remaining : Q) :
  (0 < bin_minutes)%Z → 0 <= max_kw s →
  baseline_session bin_minutes load s = Some (load', remaining) →
  ∀ t, (¬ (earliest_start s ≤ t < latest_end s)%Z →
        loc 0 load' t = loc 0 load t)
       ∧ loc 0 load t <= loc 0 load' t <= loc 0 load t + max_kw s.
Proof.
  intros Hbin Hkw. unfold baseline_session.
  destruct (baseline_while _ _ _ _ _) as [w|] eqn:Hw; [|discriminate].
  simpl. intros [= <- <-].
  apply (baseline_while_inv
           (λ w, (earliest_start s ≤ w_t w)%Z
                 ∧ ∀ t, ((w_t w ≤ t)%Z
                         ∨ ¬ (earliest_start s ≤ t < latest_end s)%Z →
                         loc 0 (w_load w) t = loc 0 load t)
                        ∧ loc 0 load t <= loc 0 (w_load w) t
                          <= loc 0 load t + max_kw s)
           (max_kw s) bin_minutes (latest_end s)) in Hw as [[_ H] _].
  - intros t. destruct (H t) as [Hsame Hrange]. split; [|exact Hrange].
    intros Hout. apply Hsame. right. exact Hout.
  - intros w1 Hc H1. apply (baseline_body_bins s bin_minutes load);
      assumption.
  - simpl. split; [lia|]. intros t. split; [reflexivity | lra].
Qed.

Lemma baseline_sessions_energy (bin_minutes : Z) (sessions : list Session) :
  (0 < bin_minutes)%Z →
  Forall (λ s, 0 <= energy_kwh s) sessions →
  ∀ load load',
    NoDup (index load) →
    baseline_sessions bin_minutes load sessions = Some load' →
    index load' = index load
    ∧ curve_kwh bin_minutes load'
      <= curve_kwh bin_minutes load + sumQ (energy_kwh <$> sessions).
Proof.
  intros Hbin. induction 1 as [|s rest Hs _ IH];
    intros load load' Hnd Hrun; simpl in Hrun.
  - injection Hrun as <-. split; [reflexivity|].
    change (sumQ (energy_kwh <$> [])) with 0. lra.
  - destruct (baseline_session bin_minutes load s) as [[load1 rem]|] eqn:Es;
      [|discriminate].
    simpl in Hrun.
    destruct (baseline_session_energy _ _ _ _ _ Hbin Es)
      as (Hidx & Hpos & Hsum).
    specialize (Hpos Hs). specialize (Hsum Hnd).
    destruct (IH load1 load') as [Hidx' Hle];
      [rewrite Hidx; exact Hnd | exact Hrun |].
    split; [congruence|]. rewrite fmap_cons, sumQ_cons. lra.
Qed.

(** X9.  For a bin width of 1 minute or more, a grid without repeated
    labels and sessions asking for non-negative energy, the baseline run
    returns a curve over the same grid whose energy (sum of load times bin
    length, which is the [total_kwh] of its cost breakdown) is at most the
    energy the sessions ask for. *)
Theorem baseline_curve_energy_bounded (sessions : list Session)
    (time_index : list Timestamp) (bin_minutes : Z) (tariff : Tariff) :
  (0 < bin_minutes)%Z →
  NoDup time_index →
  Forall (λ s, 0 <= energy_kwh s) sessions →
  ∃ load,
    baseline_load_curve sessions time_index bin_minutes = Some load
    ∧ index load = time_index
    ∧ curve_kwh bin_minutes load <= sumQ (energy_kwh <$> sessions)
    ∧ total_kwh (estimate_costs load tariff bin_minutes)
      <= sumQ (energy_kwh <$> sessions).
Proof.
  intros Hbin Hnd Hvalid. unfold baseline_load_curve.
  destruct (baseline_sessions_total bin_minutes sessions
              (series_new 0 time_index) Hbin) as [load Hload].
  exists load. split; [exact Hload|].
  destruct (baseline_sessions_energy bin_minutes sessions Hbin Hvalid
              (series_new 0 time_index) load Hnd Hload) as [Hidx Hle].
  assert (curve_kwh bin_minutes (series_new 0 time_index) == 0) as Hzero.
  { unfold curve_kwh. simpl.
    assert (sumQ (loc 0 (series_new 0 time_index) <$> time_index) == 0)
      as ->; [|ring].
    induction time_index as [|t l IH'] in |- * at 2; [reflexivity|].
    rewrite fmap_cons, sumQ_cons, loc_series_new, IH'. ring. }
  split; [exact Hidx|].
  assert (curve_kwh bin_minutes load <= sumQ (energy_kwh <$> sessions))
    as Hcurve by lra.
  split; [exact Hcurve|].
  destruct (estimate_costs_sums load tariff bin_minutes) as [-> _].
  exact Hcurve.
Qed.

Lemma baseline_curve_energy_bounded_witness :
  ∃ load,
    baseline_load_curve [Samples.one_hour_8kwh] Samples.day_grid 15
    = Some load
    ∧ curve_kwh 15 load <= sumQ (energy_kwh <$> [Samples.one_hour_8kwh]).
Proof.
  destruct (baseline_curve_energy_bounded [Samples.one_hour_8kwh]
              Samples.day_grid 15 Samples.overlapping_tariff)
    as (load & Hrun & _ & Hle & _).
  - lia.
  - apply make_time_index_NoDup.
  - repeat constructor. vm_compute. discriminate.
  - exists load. split; assumption.
Defined.

Lemma baseline_sessions_bins (bin_minutes : Z) (sessions : list Session) :
  (0 < bin_minutes)%Z →
  Forall (λ s, 0 <= max_kw s) sessions →
  ∀ load load',
    baseline_sessions bin_minutes load sessions = Some load' →
    ∀ t, loc 0 load t <= loc 0 load' t
         <= loc 0 load t
            + sumQ (max_kw <$> filter (λ s, (earliest_start s ≤ t
                                             < latest_end s)%Z) sessions).
Proof.
  intros Hbin. induction 1 as [|s rest Hs _ IH];
    intros load load' Hrun t; simpl in Hrun.
  - injection Hrun as <-. rewrite filter_nil.
    change (sumQ (max_kw <$> [])) with 0. lra.
  - destruct (baseline_session bin_minutes load s) as [[load1 rem]|] eqn:Es;
      [|discriminate].
    simpl in Hrun. specialize (IH load1 load' Hrun t).
    destruct (baseline_session_bins _ _ _ _ _ Hbin Hs Es t)
      as [Hout Hrange].
    rewrite filter_cons.
    destruct (decide (earliest_start s ≤ t < latest_end s)%Z) as [Hin|Hnot].
    + rewrite fmap_cons, sumQ_cons. lra.
    + rewrite (Hout Hnot) in IH. exact IH.
Qed.

(** X10.  For a bin width of 1 minute or more and sessions whose rate is
    not negative, the baseline run returns a curve in which the load of
    every bin is at least 0 and at most the sum of [max_kw] over the
    sessions whose window [earliest_start, latest_end) contains the bin
    start; a bin outside every window stays at 0. *)
Theorem baseline_load_per_bin (sessions : list Session)
    (time_index : list Timestamp) (bin_minutes : Z) :
  (0 < bin_minutes)%Z →
  Forall (λ s, 0 <= max_kw s) sessions →
  ∃ load,
    baseline_load_curve sessions time_index bin_minutes = Some load
    ∧ (∀ t, 0 <= loc 0 load t
            <= sumQ (max_kw
                     <$> filter (λ s, (earliest_start s ≤ t
                                       < latest_end s)%Z) sessions))
    ∧ (∀ t, Forall (λ s, ¬ (earliest_start s ≤ t < latest_end s)%Z)
                   sessions →
            loc 0 load t == 0).
Proof.
  intros Hbin Hkw. unfold baseline_load_curve.
  destruct (baseline_sessions_total bin_minutes sessions
              (series_new 0 time_index) Hbin) as [load Hload].
  exists load. split; [exact Hload|].
  pose proof (baseline_sessions_bins bin_minutes sessions Hbin Hkw
                _ _ Hload) as Hbins.
  assert (∀ t, 0 <= loc 0 load t
               <= sumQ (max_kw
                        <$> filter (λ s, (earliest_start s ≤ t
                                          < latest_end s)%Z) sessions))
    as Hrange.
  { intros t. specialize (Hbins t). rewrite loc_series_new in Hbins. lra. }
  split; [exact Hrange|].
  intros t Hnone. specialize (Hrange t).
  assert (filter (λ s, (earliest_start s ≤ t < latest_end s)%Z) sessions
          = []) as E.
  { clear -Hnone. induction Hnone as [|s rest Hs _ IH]; [reflexivity|].
    rewrite filter_cons_False by exact Hs. exact IH. }
  rewrite E in Hrange. change (sumQ (max_kw <$> [])) with 0 in Hrange. lra.
Qed.

Lemma baseline_load_per_bin_witness :
  ∃ load,
    baseline_load_curve [Samples.one_hour_8kwh] Samples.day_grid 15
    = Some load
    ∧ 0 <= loc 0 load (Samples.hours 18) <= 10
    ∧ loc 0 load (Samples.hours 19) == 0.
Proof.
  destruct (baseline_load_per_bin [Samples.one_hour_8kwh]
              Samples.day_grid 15) as (load & Hrun & Hrange & Hout).
  - lia.
  - repeat constructor. vm_compute. discriminate.
  - exists load. split; [exact Hrun|]. split.
    + pose proof (Hrange (Samples.hours 18)) as H.
      vm_compute sumQ in H. exact H.
    + apply Hout. repeat constructor. vm_compute. intros [_ H].
      discriminate H.
Defined.

(** A session none of whose walk points is a label of the index leaves
    the curve as it is and keeps all its energy. *)
Lemma baseline_session_misses_index (bin_minutes : Z) (load : Series Q)
    (s : Session) :
  (0 < bin_minutes)%Z →
  (∀ k, (0 ≤ k)%Z →
        (earliest_start s + k * timedelta_minutes bin_minutes)%Z
        ∉ index load) →
  baseline_session bin_minutes load s = Some (load, energy_kwh s).
Proof.
  intros Hbin Hmiss. unfold baseline_session.
  destruct (baseline_while_total (max_kw s) bin_minutes (latest_end s)
              (walk_steps (earliest_start s) (latest_end s) bin_minutes)
              (mkWalk load (energy_kwh s) (earliest_start s)) Hbin
              (le_n _)) as [w Hw].
  rewrite Hw. simpl.
  apply (baseline_while_inv
           (λ w, w_load w = load ∧ w_needed w = energy_kwh s
                 ∧ ∃ k, (0 ≤ k)%Z
                        ∧ w_t w = (earliest_start s
                                   + k * timedelta_minutes bin_minutes)%Z)
           (max_kw s) bin_minutes (latest_end s)) in Hw
    as [(-> & -> & _) _]; [reflexivity| |].
  - intros w1 _ (Hl & Hn & k & Hk & Ht).
    assert (in_index (w_t w1) (w_load w1) = false) as Hout.
    { apply not_true_iff_false. rewrite in_index_true, Hl, Ht.
      apply Hmiss. exact Hk. }
    split; [|split].
    + unfold baseline_body. rewrite Hout. exact Hl.
    + unfold baseline_body. rewrite Hout. exact Hn.
    + exists (k + 1)%Z. split; [lia|]. rewrite baseline_body_t, Ht. lia.
  - simpl. split; [reflexivity|]. split; [reflexivity|].
    exists 0%Z. split; lia.
Qed.

(** X11.  The baseline walk steps from [earliest_start] in bin widths and
    delivers only at timestamps that are labels of the grid.  A session
    that does not arrive on a bin boundary of the grid (its offset from
    the grid start is not a multiple of the bin width) therefore receives
    nothing: the curve is unchanged and all its energy is still needed. *)
Theorem baseline_ignores_session_off_grid (start stop : Timestamp)
    (bin_minutes : Z) (load : Series Q) (s : Session) :
  (0 < bin_minutes)%Z →
  index load = make_time_index start stop bin_minutes →
  ((earliest_start s - start) mod timedelta_minutes bin_minutes ≠ 0)%Z →
  baseline_session bin_minutes load s = Some (load, energy_kwh s)
  ∧ baseline_delivered s (energy_kwh s) == 0.
Proof.
  intros Hbin Hidx Hoff. split.
  - apply baseline_session_misses_index; [exact Hbin|].
    intros k Hk Hin. rewrite Hidx in Hin.
    apply list_elem_of_lookup in Hin as [i Hi].
    apply make_time_index_lookup in Hi as [Heq _]; [|exact Hbin].
    apply Hoff.
    replace (earliest_start s - start)%Z
      with ((Z.of_nat i - k) * timedelta_minutes bin_minutes)%Z by lia.
    apply Z.mod_mul. pose proof (timedelta_minutes_pos _ Hbin). lia.
  - unfold baseline_delivered. ring.
Qed.

Lemma baseline_ignores_session_off_grid_witness :
  baseline_session 15 (series_new 0 Samples.day_grid) Samples.arrives_1805
  = Some (series_new 0 Samples.day_grid, energy_kwh Samples.arrives_1805).
Proof.
  apply (baseline_ignores_session_off_grid 0 (Samples.hours 24) 15).
  - lia.
  - reflexivity.
  - vm_compute. discriminate.
Defined.

(** ** greedy_optimize_schedule: which bin is chosen *)

Lemma feasible_bins_shape (st : Greedy) (kw_s cap : Q) (maxc : Z)
    (bins : list Timestamp) (x : Q * Q * Timestamp) :
  x ∈ feasible_bins st kw_s cap maxc bins →
  x = (loc 0 (g_load st) x.2 + kw_s, loc 0 (g_load st) x.2, x.2).
Proof.
  induction bins as [|t rest IH]; simpl; [inversion 1|].
  destruct (maxc <=? loc 0%Z (g_chargers st) t)%Z; [exact IH|].
  destruct (Qlt_bool cap (loc 0 (g_load st) t + kw_s)); [exact IH|].
  rewrite elem_of_cons. intros [->|H]; [reflexivity | auto].
Qed.

Lemma feasible_bins_cons (st : Greedy) (kw_s cap : Q) (maxc : Z)
    (t : Timestamp) (rest : list Timestamp) :
  (feasible st kw_s cap maxc t
   ∧ feasible_bins st kw_s cap maxc (t :: rest)
     = (loc 0 (g_load st) t + kw_s, loc 0 (g_load st) t, t)
       :: feasible_bins st kw_s cap maxc rest)
  ∨ (¬ feasible st kw_s cap maxc t
     ∧ feasible_bins st kw_s cap maxc (t :: rest)
       = feasible_bins st kw_s cap maxc rest).
Proof.
  unfold feasible. simpl.
  destruct (Z.leb_spec maxc (loc 0%Z (g_chargers st) t)) as [Hc|Hc].
  { right. split; [lia | reflexivity]. }
  destruct (Qlt_bool cap (loc 0 (g_load st) t + kw_s)) eqn:El.
  - right. apply Qlt_bool_iff in El. split; [|reflexivity].
    intros [_ H]. lra.
  - left. apply Qlt_bool_false in El. split; [split; assumption|].
    reflexivity.
Qed.

Lemma key_before_load (kw_s l1 l2 : Q) (t1 t2 : Timestamp) :
  key_before (l1 + kw_s, l1, t1) (l2 + kw_s, l2, t2) = true ↔ l1 <= l2.
Proof.
  unfold key_before. simpl.
  rewrite orb_true_iff, andb_true_iff, Qlt_bool_iff, Qeq_bool_iff,
    Qle_bool_iff.
  split; [intros [H|[H1 H2]]; lra|].
  intros H. destruct (Qlt_le_dec l1 l2) as [Hlt|Hge].
  - left. lra.
  - right. split; lra.
Qed.

Lemma choose_bin_first_least_loaded (st : Greedy) (kw_s cap : Q) (maxc : Z)
    (bins : list Timestamp) :
  (choose_bin st kw_s cap maxc bins = None →
   ∀ t, t ∈ bins → ¬ feasible st kw_s cap maxc t)
  ∧ (∀ t, choose_bin st kw_s cap maxc bins = Some t →
       feasible st kw_s cap maxc t
       ∧ ∃ pre post,
           bins = pre ++ t :: post
           ∧ (∀ t', t' ∈ pre → feasible st kw_s cap maxc t' →
                    loc 0 (g_load st) t < loc 0 (g_load st) t')
           ∧ (∀ t', t' ∈ post → feasible st kw_s cap maxc t' →
                    loc 0 (g_load st) t <= loc 0 (g_load st) t')).
Proof.
  induction bins as [|t0 rest [IHnone IHsome]].
  - split; [intros _ t Ht; inversion Ht | discriminate].
  - unfold choose_bin in *.
    destruct (feasible_bins_cons st kw_s cap maxc t0 rest)
      as [[Hf ->]|[Hnf ->]].
    + cbn [stable_sort].
      destruct (stable_sort key_before
                  (feasible_bins st kw_s cap maxc rest))
        as [|h L] eqn:EL.
      * simpl. split; [discriminate|]. intros t [= <-].
        split; [exact Hf|]. exists [], rest. split; [reflexivity|].
        split; [intros t' Ht'; inversion Ht'|].
        intros t' Ht' Hf'. exfalso. exact (IHnone eq_refl t' Ht' Hf').
      * assert (h = (loc 0 (g_load st) h.2 + kw_s,
                     loc 0 (g_load st) h.2, h.2)) as Hh.
        { eapply feasible_bins_shape. eapply stable_sort_head. exact EL. }
        destruct (IHsome h.2 eq_refl)
          as (Hfh & pre & post & Hrest & Hpre & Hpost).
        cbn [insert_sorted].
        destruct (key_before
                    (loc 0 (g_load st) t0 + kw_s, loc 0 (g_load st) t0, t0)
                    h) eqn:Ek; rewrite Hh in Ek.
        -- apply key_before_load in Ek.
           split; [discriminate|]. intros t [= <-].
           split; [exact Hf|]. exists [], rest. split; [reflexivity|].
           split; [intros t' Ht'; inversion Ht'|].
           intros t' Ht' Hf'. rewrite Hrest in Ht'.
           apply elem_of_app in Ht' as [Ht'|Ht'].
           ++ pose proof (Hpre t' Ht' Hf'). lra.
           ++ apply elem_of_cons in Ht' as [->|Ht']; [exact Ek|].
              pose proof (Hpost t' Ht' Hf'). lra.
        -- assert (loc 0 (g_load st) h.2 < loc 0 (g_load st) t0) as Hlt.
           { apply Qnot_le_lt. intros Hle.
             apply key_before_load with (kw_s := kw_s) (t1 := t0)
                                        (t2 := h.2) in Hle.
             congruence. }
           split; [discriminate|]. intros t [= <-].
           split; [exact Hfh|]. exists (t0 :: pre), post.
           split; [rewrite Hrest; reflexivity|]. split; [|exact Hpost].
           intros t' Ht' Hf'.
           apply elem_of_cons in Ht' as [->|Ht']; [exact Hlt | auto].
    + split.
      * intros Hnone t Ht Hf.
        apply elem_of_cons in Ht as [->|Ht]; [contradiction|].
        exact (IHnone Hnone t Ht Hf).
      * intros t Hsome.
        destruct (IHsome t Hsome) as (Hft & pre & post & Hrest & Hpre & Hpost).
        split; [exact Hft|]. exists (t0 :: pre), post.
        split; [rewrite Hrest; reflexivity|]. split; [|exact Hpost].
        intros t' Ht' Hf'.
        apply elem_of_cons in Ht' as [->|Ht']; [contradiction | auto].
Qed.

(** X12.  The bin chosen for a session is a candidate bin with a free
    charger slot and room for the session's full rate under the cap; no
    feasible candidate is less loaded, and among the least loaded ones it
    is the first in the candidate list.  No bin is chosen exactly when no
    candidate is feasible. *)
Theorem choose_bin_is_first_least_loaded (st : Greedy) (kw_s cap : Q)
    (maxc : Z) (bins : list Timestamp) :
  (choose_bin st kw_s cap maxc bins = None
   ↔ ∀ t, t ∈ bins → ¬ feasible st kw_s cap maxc t)
  ∧ (∀ t, choose_bin st kw_s cap maxc bins = Some t →
       t ∈ bins
       ∧ feasible st kw_s cap maxc t
       ∧ (∀ t', t' ∈ bins → feasible st kw_s cap maxc t' →
                loc 0 (g_load st) t <= loc 0 (g_load st) t')
       ∧ ∃ pre post,
           bins = pre ++ t :: post
           ∧ ∀ t', t' ∈ pre → feasible st kw_s cap maxc t' →
                   loc 0 (g_load st) t < loc 0 (g_load st) t').
Proof.
  destruct (choose_bin_first_least_loaded st kw_s cap maxc bins)
    as [Hnone Hsome].
  split.
  - split; [exact Hnone|]. intros Hall.
    destruct (choose_bin st kw_s cap maxc bins) as [t|] eqn:E;
      [|reflexivity].
    destruct (Hsome t eq_refl) as (Hf & pre & post & Hbins & _).
    exfalso. apply (Hall t); [|exact Hf].
    rewrite Hbins. apply elem_of_app. right. left.
  - intros t Ht.
    destruct (Hsome t Ht) as (Hf & pre & post & Hbins & Hpre & Hpost).
    split; [rewrite Hbins; apply elem_of_app; right; left|].
    split; [exact Hf|]. split.
    + intros t' Ht' Hf'. rewrite Hbins in Ht'.
      apply elem_of_app in Ht' as [Ht'|Ht'].
      * pose proof (Hpre t' Ht' Hf'). lra.
      * apply elem_of_cons in Ht' as [->|Ht']; [lra | auto].
    + exists pre, post. split; assumption.
Qed.

Lemma choose_bin_is_first_least_loaded_witness :
  ∃ t, choose_bin (greedy_init Samples.four_bins) 22 100 5
         Samples.four_bins = Some t
       ∧ t ∈ Samples.four_bins
       ∧ feasible (greedy_init Samples.four_bins) 22 100 5 t.
Proof.
  destruct (choose_bin_is_first_least_loaded
              (greedy_init Samples.four_bins) 22 100 5 Samples.four_bins)
    as [_ Hsome].
  assert (choose_bin (greedy_init Samples.four_bins) 22 100 5
            Samples.four_bins = Some 0%Z) as E by (vm_compute; reflexivity).
  exists 0%Z. split; [exact E|].
  destruct (Hsome 0%Z E) as (Hin & Hf & _). split; assumption.
Defined.

(** ** greedy_optimize_schedule: what is never scheduled *)

(** A delivery for a session whose rate is not negative is not negative. *)
Lemma used_kw_nonneg (needed kw_s : Q) (bin_minutes : Z) :
  (0 < bin_minutes)%Z → 0 <= kw_s → tol < needed →
  0 <= deliver_kwh needed kw_s bin_minutes
  ∧ 0 <= deliver_kwh needed kw_s bin_minutes / bin_hours bin_minutes.
Proof.
  intros Hbin Hkw Hneed. pose proof (bin_hours_pos _ Hbin) as Hbh.
  assert (0 <= deliver_kwh needed kw_s bin_minutes) as Hd.
  { apply Q.min_glb; [unfold tol in Hneed; lra|].
    apply Qmult_le_0_compat; lra. }
  split; [exact Hd|]. apply Qle_shift_div_l; [exact Hbh | lra].
Qed.

Lemma greedy_run_nonneg (sessions : list Session)
    (time_index : list Timestamp) (bin_minutes : Z) (cap : Q) (maxc : Z)
    (st : Greedy) :
  (0 < bin_minutes)%Z →
  Forall (λ s, 0 <= max_kw s) sessions →
  greedy_run sessions time_index bin_minutes cap maxc = Some st →
  (∀ t, 0 <= loc 0 (g_load st) t ∧ (0 ≤ loc 0%Z (g_chargers st) t)%Z)
  ∧ Forall (λ d, max_kw (d_session d) <= cap ∧ (0 < maxc)%Z) (g_trace st).
Proof.
  intros Hbin Hkw Hrun. unfold greedy_run in Hrun.
  eapply (greedy_sessions_inv
            (λ st, (∀ t, 0 <= loc 0 (g_load st) t
                         ∧ (0 ≤ loc 0%Z (g_chargers st) t)%Z)
                   ∧ Forall (λ d, max_kw (d_session d) <= cap
                                  ∧ (0 < maxc)%Z) (g_trace st)));
    [|exact Hrun|].
  - intros s st0 st1 Hin Hs HJ.
    assert (0 <= max_kw s) as Hs0.
    { rewrite Forall_forall in Hkw. apply Hkw.
      unfold sort_sessions in Hin.
      rewrite stable_sort_Permutation in Hin. exact Hin. }
    destruct (greedy_session_inv
                (λ a, (∀ t, 0 <= loc 0 (g_load (a_state a)) t
                            ∧ (0 ≤ loc 0%Z (g_chargers (a_state a)) t)%Z)
                      ∧ Forall (λ d, max_kw (d_session d) <= cap
                                     ∧ (0 < maxc)%Z)
                               (g_trace (a_state a)))
                time_index bin_minutes cap maxc st0 st1 s) as (a & <- & Ha);
      [|exact HJ|exact Hs|exact Ha].
    intros a t Hneed Hc [Hpos Hall].
    apply choose_bin_Some in Hc as (_ & Hfree & Hroom).
    destruct (used_kw_nonneg (a_needed a) (max_kw s) bin_minutes
                Hbin Hs0 Hneed) as [_ Hused].
    destruct (Hpos t) as [Hl Hc]. split.
    + intros t'. simpl. rewrite !loc_set_loc.
      destruct (decide (t = t')) as [<-|Hne]; [|apply Hpos].
      split; [lra | lia].
    + simpl. apply Forall_app. split; [exact Hall|].
      constructor; [|constructor]. simpl. split; [lra | lia].
  - split; [|constructor]. intros t. simpl. rewrite !loc_series_new.
    split; [lra | lia].
Qed.

(** X13.  When no session has a negative rate (and the bin width is 1
    minute or more), loads and charger counts are never negative, and
    every delivery is for a session whose full rate [max_kw] is at most
    the cap: a session whose rate exceeds the cap gets no row at all, not
    even at a reduced rate.  With a charger limit of 0 or less, or a cap
    below every session's rate, the schedule is empty. *)
Theorem greedy_never_schedules_above_cap (sessions : list Session)
    (time_index : list Timestamp) (bin_minutes : Z)
    (depot_power_cap_kw : Q) (max_concurrent_chargers : Z) :
  (0 < bin_minutes)%Z →
  Forall (λ s, 0 <= max_kw s) sessions →
  ∃ st,
    greedy_run sessions time_index bin_minutes depot_power_cap_kw
      max_concurrent_chargers = Some st
    ∧ greedy_optimize_schedule sessions time_index bin_minutes
        depot_power_cap_kw max_concurrent_chargers
      = Some (g_rows st, g_load st)
    ∧ (∀ t, 0 <= loc 0 (g_load st) t ∧ (0 ≤ loc 0%Z (g_chargers st) t)%Z)
    ∧ Forall (λ d, max_kw (d_session d) <= depot_power_cap_kw)
             (g_trace st)
    ∧ ((max_concurrent_chargers ≤ 0)%Z
       ∨ Forall (λ s, depot_power_cap_kw < max_kw s) sessions →
       g_rows st = []).
Proof.
  intros Hbin Hkw.
  destruct (greedy_run_total sessions time_index bin_minutes
              depot_power_cap_kw max_concurrent_chargers) as [st Hst].
  exists st. split; [exact Hst|]. split.
  { unfold greedy_optimize_schedule. rewrite Hst. reflexivity. }
  destruct (greedy_run_nonneg _ _ _ _ _ _ Hbin Hkw Hst) as [Hpos Hall].
  split; [exact Hpos|]. split.
  { eapply Forall_impl; [exact Hall|]. intros d [H _]. exact H. }
  intros Hblock.
  destruct (greedy_run_accounts_for_trace _ _ _ _ _ _ Hst) as [Hrows _].
  pose proof (greedy_run_exact _ _ _ _ _ _ Hbin Hst) as Hexact.
  rewrite Hrows.
  destruct (g_trace st) as [|d trace]; [reflexivity|]. exfalso.
  apply Forall_cons in Hall as [[Hd Hm] _].
  apply Forall_cons in Hexact as [(Hin & _) _].
  destruct Hblock as [Hmax|Hcap]; [lia|].
  rewrite Forall_forall in Hcap. specialize (Hcap _ Hin). lra.
Qed.

Lemma greedy_never_schedules_above_cap_witness :
  ∃ st,
    greedy_run [Samples.ten_kwh] Samples.four_bins 7 10 5 = Some st
    ∧ g_rows st = [].
Proof.
  destruct (greedy_never_schedules_above_cap [Samples.ten_kwh]
              Samples.four_bins 7 10 5) as (st & Hst & _ & _ & _ & Hempty).
  - lia.
  - repeat constructor. vm_compute. discriminate.
  - exists st. split; [exact Hst|]. apply Hempty. right.
    repeat constructor.
Defined.

(** ** greedy_optimize_schedule: session by session *)

Lemma greedy_while_exit (s : Session) (bin_minutes : Z) (cap : Q)
    (maxc : Z) (fuel : nat) (a a' : Alloc) :
  greedy_while fuel s bin_minutes cap maxc a = Some a' →
  a_needed a' <= tol
  ∨ choose_bin (a_state a') (max_kw s) cap maxc (a_bins a') = None.
Proof.
  revert a. induction fuel as [|fuel IH]; intros a; simpl.
  - destruct (Qlt_bool tol (a_needed a)) eqn:En; [discriminate|].
    intros [= <-]. left. apply Qlt_bool_false. exact En.
  - destruct (Qlt_bool tol (a_needed a)) eqn:En.
    + unfold greedy_body.
      destruct (choose_bin (a_state a) (max_kw s) cap maxc (a_bins a))
        as [t|] eqn:Ec.
      * apply IH.
      * intros [= <-]. right. exact Ec.
    + intros [= <-]. left. apply Qlt_bool_false. exact En.
Qed.

Lemma greedy_session_cases (time_index : list Timestamp) (bin_minutes : Z)
    (cap : Q) (maxc : Z) (st st' : Greedy) (s : Session) :
  greedy_session time_index bin_minutes cap maxc st s = Some st' →
  (session_bins time_index s = [] ∧ st' = st)
  ∨ ∃ fuel a',
      greedy_while fuel s bin_minutes cap maxc
        (mkAlloc (session_bins time_index s) (energy_kwh s) st) = Some a'
      ∧ a_state a' = st'.
Proof.
  unfold greedy_session.
  destruct (session_bins time_index s) as [|t0 bins] eqn:E.
  - intros [= <-]. left. split; reflexivity.
  - destruct (greedy_while (S (length (t0 :: bins))) s bin_minutes cap maxc
                (mkAlloc (t0 :: bins) (energy_kwh s) st)) as [a|] eqn:Ew;
      [|discriminate].
    simpl. intros [= <-]. right. exists (S (length (t0 :: bins))), a.
    split; [exact Ew | reflexivity].
Qed.

Lemma list_remove_other (x t : Z) (l : list Z) :
  t ∈ l → t ≠ x → t ∈ list_remove x l.
Proof.
  induction l as [|y l IH]; simpl; [inversion 1|].
  intros Hin Hne. destruct (decide (x = y)) as [->|Hxy].
  - apply elem_of_cons in Hin as [?|?]; [contradiction | assumption].
  - apply elem_of_cons in Hin as [->|Hin]; [left | right; auto].
Qed.

(** Feasibility is lost, never gained, when loads and counts grow. *)
Lemma feasible_antitone (st st' : Greedy) (kw_s cap : Q) (maxc : Z)
    (t : Timestamp) :
  loc 0 (g_load st) t <= loc 0 (g_load st') t →
  (loc 0%Z (g_chargers st) t ≤ loc 0%Z (g_chargers st') t)%Z →
  feasible st' kw_s cap maxc t → feasible st kw_s cap maxc t.
Proof. unfold feasible. intros Hl Hc [H1 H2]. split; [lia | lra]. Qed.

Lemma greedy_session_grows (time_index : list Timestamp) (bin_minutes : Z)
    (cap : Q) (maxc : Z) (st st' : Greedy) (s : Session) :
  (0 < bin_minutes)%Z → 0 <= max_kw s →
  greedy_session time_index bin_minutes cap maxc st s = Some st' →
  ∀ t, loc 0 (g_load st) t <= loc 0 (g_load st') t
       ∧ (loc 0%Z (g_chargers st) t ≤ loc 0%Z (g_chargers st') t)%Z.
Proof.
  intros Hbin Hkw Hs.
  destruct (greedy_session_inv
              (λ a, ∀ t, loc 0 (g_load st) t
                         <= loc 0 (g_load (a_state a)) t
                         ∧ (loc 0%Z (g_chargers st) t
                            ≤ loc 0%Z (g_chargers (a_state a)) t)%Z)
              time_index bin_minutes cap maxc st st' s) as (a & <- & Ha);
    [| |exact Hs|exact Ha].
  - intros a t Hneed _ Hall t'. simpl. rewrite !loc_set_loc.
    destruct (used_kw_nonneg (a_needed a) (max_kw s) bin_minutes
                Hbin Hkw Hneed) as [_ Hused].
    destruct (decide (t = t')) as [<-|Hne]; [|apply Hall].
    destruct (Hall t). split; [lra | lia].
  - intros t. simpl. split; [lra | lia].
Qed.

Lemma greedy_sessions_grows (time_index : list Timestamp) (bin_minutes : Z)
    (cap : Q) (maxc : Z) (sessions : list Session) :
  (0 < bin_minutes)%Z →
  Forall (λ s, 0 <= max_kw s) sessions →
  ∀ st st',
    greedy_sessions time_index bin_minutes cap maxc st sessions = Some st' →
    ∀ t, loc 0 (g_load st) t <= loc 0 (g_load st') t
         ∧ (loc 0%Z (g_chargers st) t ≤ loc 0%Z (g_chargers st') t)%Z.
Proof.
  intros Hbin. induction 1 as [|s rest Hs _ IH];
    intros st st' Hrun t; simpl in Hrun.
  - injection Hrun as <-. split; [lra | lia].
  - destruct (greedy_session time_index bin_minutes cap maxc st s)
      as [st1|] eqn:Es; [|discriminate].
    simpl in Hrun.
    destruct (greedy_session_grows _ _ _ _ _ _ _ Hbin Hs Es t).
    destruct (IH _ _ Hrun t). split; [lra | lia].
Qed.

(** What a session leaves behind: its deliveries, their total, and why
    its loop stopped. *)
Lemma greedy_session_outcome (time_index : list Timestamp)
    (bin_minutes : Z) (cap : Q) (maxc : Z) (st st' : Greedy) (s : Session) :
  greedy_session time_index bin_minutes cap maxc st s = Some st' →
  ∃ block,
    g_trace st' = g_trace st ++ block
    ∧ Forall (λ d, d_session d = s) block
    ∧ (0 <= energy_kwh s → sumQ (d_deliver <$> block) <= energy_kwh s)
    ∧ (energy_kwh s - sumQ (d_deliver <$> block) <= tol
       ∨ ∀ t, t ∈ session_bins time_index s → t ∉ d_bin <$> block →
              ¬ feasible st' (max_kw s) cap maxc t).
Proof.
  intros Hs. apply greedy_session_cases in Hs
    as [[Hnil ->]|(fuel & a' & Hw & <-)].
  - exists []. rewrite app_nil_r. split; [reflexivity|].
    split; [constructor|]. change (sumQ (d_deliver <$> [])) with 0.
    split; [auto|]. right. intros t Ht. rewrite Hnil in Ht. inversion Ht.
  - pose proof (greedy_while_exit _ _ _ _ _ _ _ Hw) as Hexit.
    apply (greedy_while_inv
             (λ a, ∃ block,
                g_trace (a_state a) = g_trace st ++ block
                ∧ Forall (λ d, d_session d = s) block
                ∧ a_needed a == energy_kwh s - sumQ (d_deliver <$> block)
                ∧ (0 <= energy_kwh s → 0 <= a_needed a)
                ∧ ∀ t, t ∈ session_bins time_index s →
                       t ∈ a_bins a ∨ t ∈ d_bin <$> block)
             s bin_minutes cap maxc) in Hw.
    + destruct Hw as (block & Htr & Hall & Hneed & Hpos & Hbins).
      exists block. split; [exact Htr|]. split; [exact Hall|].
      split; [intros H0; specialize (Hpos H0); lra|].
      destruct Hexit as [Hdone|Hnone]; [left; lra|].
      right. intros t Ht Hunused.
      destruct (Hbins t Ht) as [Hin|Hin]; [|contradiction].
      apply (proj1 (choose_bin_first_least_loaded _ _ _ _ _) Hnone t Hin).
    + intros a t _ Hc (block & Htr & Hall & Hneed & Hpos & Hbins).
      exists (block ++ [mkDelivery s t
                          (deliver_kwh (a_needed a) (max_kw s) bin_minutes
                           / bin_hours bin_minutes)
                          (deliver_kwh (a_needed a) (max_kw s)
                             bin_minutes)]).
      simpl. split; [rewrite Htr, app_assoc; reflexivity|].
      split; [apply Forall_app; split; [exact Hall|repeat constructor]|].
      split.
      { rewrite fmap_app, sumQ_app. unfold sumQ at 2. simpl. lra. }
      split.
      { intros H0. specialize (Hpos H0).
        pose proof (deliver_le_needed (a_needed a) (max_kw s) bin_minutes).
        lra. }
      intros t' Ht'. rewrite fmap_app. simpl.
      destruct (decide (t' = t)) as [->|Hne].
      * right. apply elem_of_app. right. left.
      * destruct (Hbins t' Ht') as [Hin|Hin].
        -- left. apply list_remove_other; assumption.
        -- right. apply elem_of_app. left. exact Hin.
    + exists []. simpl. rewrite app_nil_r. split; [reflexivity|].
      split; [constructor|]. change (sumQ (d_deliver <$> [])) with 0.
      split; [lra|]. split; [auto|]. intros t Ht. left. exact Ht.
Qed.

Lemma greedy_sessions_outcome (time_index : list Timestamp)
    (bin_minutes : Z) (cap : Q) (maxc : Z) (sessions : list Session) :
  (0 < bin_minutes)%Z →
  Forall (λ s, 0 <= max_kw s ∧ 0 <= energy_kwh s) sessions →
  ∀ st st',
    greedy_sessions time_index bin_minutes cap maxc st sessions = Some st' →
    ∃ blocks,
      g_trace st' = g_trace st ++ concat blocks
      ∧ Forall2
          (λ s block,
             Forall (λ d, d_session d = s) block
             ∧ sumQ (d_deliver <$> block) <= energy_kwh s
             ∧ (energy_kwh s - sumQ (d_deliver <$> block) <= tol
                ∨ ∀ t, t ∈ session_bins time_index s →
                       t ∉ d_bin <$> block →
                       ¬ feasible st' (max_kw s) cap maxc t))
          sessions blocks.
Proof.
  intros Hbin. induction 1 as [|s rest [Hkw Hen] Hrest IH];
    intros st st' Hrun; simpl in Hrun.
  - injection Hrun as <-. exists []. simpl. rewrite app_nil_r.
    split; [reflexivity | constructor].
  - destruct (greedy_session time_index bin_minutes cap maxc st s)
      as [st1|] eqn:Es; [|discriminate].
    simpl in Hrun.
    destruct (greedy_session_outcome _ _ _ _ _ _ _ Es)
      as (block & Htr1 & Hall & Hle & Hstop).
    destruct (IH _ _ Hrun) as (blocks & Htr2 & Hblocks).
    exists (block :: blocks). simpl. split.
    { rewrite Htr2, Htr1, app_assoc. reflexivity. }
    constructor; [|exact Hblocks].
    split; [exact Hall|]. split; [auto|].
    destruct Hstop as [Hdone|Hblocked]; [left; exact Hdone|].
    right. intros t Ht Hunused Hf. apply (Hblocked t Ht Hunused).
    assert (Forall (λ s, 0 <= max_kw s) rest) as Hrest'.
    { eapply Forall_impl; [exact Hrest|]. intros x [H _]. exact H. }
    destruct (greedy_sessions_grows _ _ _ _ _ Hbin Hrest' _ _ Hrun t).
    eapply feasible_antitone; eassumption.
Qed.

(** X14.  When rates and requested energies are not negative (and the bin
    width is 1 minute or more), the deliveries of the run split into one
    block per session in processing order; a session never receives more
    than it asked for; and at the end of the run every session either has
    received its energy up to the tolerance of 1e-6 kWh, or has no bin
    left in its window that it has not used and that still has a free
    charger slot and room for its full rate: unmet demand is never left
    beside a feasible bin. *)
Theorem greedy_sessions_served_or_blocked (sessions : list Session)
    (time_index : list Timestamp) (bin_minutes : Z)
    (depot_power_cap_kw : Q) (max_concurrent_chargers : Z) :
  (0 < bin_minutes)%Z →
  Forall (λ s, 0 <= max_kw s ∧ 0 <= energy_kwh s) sessions →
  ∃ st blocks,
    greedy_run sessions time_index bin_minutes depot_power_cap_kw
      max_concurrent_chargers = Some st
    ∧ g_trace st = concat blocks
    ∧ Forall2
        (λ s block,
           Forall (λ d, d_session d = s) block
           ∧ sumQ (d_deliver <$> block) <= energy_kwh s
           ∧ (energy_kwh s - sumQ (d_deliver <$> block) <= tol
              ∨ ∀ t, t ∈ session_bins time_index s →
                     t ∉ d_bin <$> block →
                     ¬ feasible st (max_kw s) depot_power_cap_kw
                         max_concurrent_chargers t))
        (sort_sessions bin_minutes sessions) blocks.
Proof.
  intros Hbin Hvalid.
  destruct (greedy_run_total sessions time_index bin_minutes
              depot_power_cap_kw max_concurrent_chargers) as [st Hst].
  pose proof Hst as Hrun. unfold greedy_run in Hrun.
  apply greedy_sessions_outcome in Hrun as (blocks & Htr & Hblocks);
    [|exact Hbin|].
  - exists st, blocks. split; [exact Hst|]. split; [exact Htr|].
    exact Hblocks.
  - unfold sort_sessions. rewrite stable_sort_Permutation. exact Hvalid.
Qed.

Lemma greedy_sessions_served_or_blocked_witness :
  ∃ st blocks,
    greedy_run [Samples.ten_kwh] Samples.four_bins 7 100 5 = Some st
    ∧ g_trace st = concat blocks.
Proof.
  destruct (greedy_sessions_served_or_blocked [Samples.ten_kwh]
              Samples.four_bins 7 100 5) as (st & blocks & Hst & Htr & _).
  - lia.
  - repeat constructor; vm_compute; discriminate.
  - exists st, blocks. split; assumption.
Defined.

Lemma greedy_sessions_blocks_of (P : Session → list Delivery → Prop)
    (time_index : list Timestamp) (bin_minutes : Z) (cap : Q) (maxc : Z)
    (sessions : list Session) :
  (∀ s st st', s ∈ sessions →
     greedy_session time_index bin_minutes cap maxc st s = Some st' →
     ∃ block, g_trace st' = g_trace st ++ block ∧ P s block) →
  ∀ st st',
    greedy_sessions time_index bin_minutes cap maxc st sessions = Some st' →
    ∃ blocks, g_trace st' = g_trace st ++ concat blocks
              ∧ Forall2 P sessions blocks.
Proof.
  induction sessions as [|s rest IH]; intros Hstep st st' Hrun;
    simpl in Hrun.
  - injection Hrun as <-. exists []. simpl. rewrite app_nil_r.
    split; [reflexivity | constructor].
  - destruct (greedy_session time_index bin_minutes cap maxc st s)
      as [st1|] eqn:Es; [|discriminate].
    simpl in Hrun.
    destruct (Hstep s st st1 ltac:(left) Es) as (block & Htr1 & Hblock).
    destruct (IH (λ s' st0 st0' Hin, Hstep s' st0 st0'
                    (list_elem_of_further _ _ _ Hin)) _ _ Hrun)
      as (blocks & Htr2 & Hblocks).
    exists (block :: blocks). simpl. split.
    + rewrite Htr2, Htr1, app_assoc. reflexivity.
    + constructor; assumption.
Qed.

(** Only the last delivery of a session can be smaller than a full bin
    at the session's rate. *)
Lemma greedy_session_full_deliveries (time_index : list Timestamp)
    (bin_minutes : Z) (cap : Q) (maxc : Z) (st st' : Greedy) (s : Session) :
  (0 < bin_minutes)%Z → 0 < max_kw s →
  greedy_session time_index bin_minutes cap maxc st s = Some st' →
  ∃ block,
    g_trace st' = g_trace st ++ block
    ∧ Forall (λ d, d_session d = s
                   ∧ 0 < d_deliver d
                   ∧ d_deliver d <= max_kw s * bin_hours bin_minutes) block
    ∧ ∃ init last,
        block = init ++ last
        ∧ Forall (full_delivery bin_minutes) init
        ∧ (length last <= 1)%nat.
Proof.
  intros Hbin Hkw Hs.
  pose proof (bin_hours_pos _ Hbin) as Hbh.
  assert (0 < max_kw s * bin_hours bin_minutes) as Hfull
    by (apply Qmult_lt_0_compat; assumption).
  destruct (greedy_session_inv
              (λ a, ∃ block,
                 g_trace (a_state a) = g_trace st ++ block
                 ∧ Forall (λ d, d_session d = s
                                ∧ 0 < d_deliver d
                                ∧ d_deliver d
                                  <= max_kw s * bin_hours bin_minutes)
                          block
                 ∧ (Forall (full_delivery bin_minutes) block
                    ∨ (a_needed a <= 0
                       ∧ ∃ init d, block = init ++ [d]
                                   ∧ Forall (full_delivery bin_minutes)
                                            init)))
              time_index bin_minutes cap maxc st st' s)
    as (a & <- & block & Htr & Hall & Hshape); [| |exact Hs|].
  - intros a t Hneed _ (block & Htr & Hall & Hshape).
    assert (Forall (full_delivery bin_minutes) block) as Hfulls.
    { destruct Hshape as [H|[H _]]; [exact H|].
      unfold tol in Hneed. lra. }
    set (d := mkDelivery s t
                (deliver_kwh (a_needed a) (max_kw s) bin_minutes
                 / bin_hours bin_minutes)
                (deliver_kwh (a_needed a) (max_kw s) bin_minutes)).
    exists (block ++ [d]). simpl.
    split; [rewrite Htr, app_assoc; reflexivity|].
    assert (0 < a_needed a) as Hpos by (unfold tol in Hneed; lra).
    split.
    + apply Forall_app. split; [exact Hall|].
      constructor; [|constructor]. simpl. split; [reflexivity|].
      split; [apply Q.min_glb_lt; assumption | apply Q.le_min_r].
    + unfold deliver_kwh.
      destruct (Q.min_spec (a_needed a)
                  (max_kw s * bin_hours bin_minutes)) as [[Hlt E]|[Hle E]].
      * right. split; [rewrite E; lra|].
        exists block, d. split; [reflexivity | exact Hfulls].
      * left. apply Forall_app. split; [exact Hfulls|].
        constructor; [|constructor].
        unfold full_delivery, d, deliver_kwh. simpl. exact E.
  - exists []. simpl. rewrite app_nil_r. split; [reflexivity|].
    split; [constructor|]. left. constructor.
  - exists block. split; [exact Htr|]. split; [exact Hall|].
    destruct Hshape as [H|(_ & init & d & -> & H)].
    + exists block, []. rewrite app_nil_r.
      split; [reflexivity|]. split; [exact H | simpl; lia].
    + exists init, [d]. split; [reflexivity|]. split; [exact H | simpl; lia].
Qed.

(** X15.  When every session has a positive rate (and the bin width is 1
    minute or more), every delivery is positive and at most one bin at
    the session's rate, and within the deliveries of one session all but
    possibly the last are exactly [max_kw * bin_hours]: a partial
    delivery ends the session. *)
Theorem greedy_partial_delivery_is_last (sessions : list Session)
    (time_index : list Timestamp) (bin_minutes : Z)
    (depot_power_cap_kw : Q) (max_concurrent_chargers : Z) :
  (0 < bin_minutes)%Z →
  Forall (λ s, 0 < max_kw s) sessions →
  ∃ st blocks,
    greedy_run sessions time_index bin_minutes depot_power_cap_kw
      max_concurrent_chargers = Some st
    ∧ g_trace st = concat blocks
    ∧ Forall2
        (λ s block,
           Forall (λ d, d_session d = s
                        ∧ 0 < d_deliver d
                        ∧ d_deliver d <= max_kw s * bin_hours bin_minutes)
                  block
           ∧ ∃ init last,
               block = init ++ last
               ∧ Forall (full_delivery bin_minutes) init
               ∧ (length last <= 1)%nat)
        (sort_sessions bin_minutes sessions) blocks.
Proof.
  intros Hbin Hkw.
  destruct (greedy_run_total sessions time_index bin_minutes
              depot_power_cap_kw max_concurrent_chargers) as [st Hst].
  pose proof Hst as Hrun. unfold greedy_run in Hrun.
  apply (greedy_sessions_blocks_of
           (λ s block,
              Forall (λ d, d_session d = s
                           ∧ 0 < d_deliver d
                           ∧ d_deliver d
                             <= max_kw s * bin_hours bin_minutes) block
              ∧ ∃ init last,
                  block = init ++ last
                  ∧ Forall (full_delivery bin_minutes) init
                  ∧ (length last <= 1)%nat)) in Hrun
    as (blocks & Htr & Hblocks).
  - exists st, blocks. split; [exact Hst|]. split; [exact Htr|].
    exact Hblocks.
  - intros s st0 st1 Hin Hs.
    assert (0 < max_kw s) as Hs0.
    { rewrite Forall_forall in Hkw. apply Hkw.
      unfold sort_sessions in Hin.
      rewrite stable_sort_Permutation in Hin. exact Hin. }
    destruct (greedy_session_full_deliveries _ _ _ _ _ _ _ Hbin Hs0 Hs)
      as (block & Htr & Hall & Hshape).
    exists block. split; [exact Htr|]. split; assumption.
Qed.

Lemma greedy_partial_delivery_is_last_witness :
  ∃ st blocks,
    greedy_run [Samples.ten_kwh] Samples.four_bins 7 100 5 = Some st
    ∧ g_trace st = concat blocks.
Proof.
  destruct (greedy_partial_delivery_is_last [Samples.ten_kwh]
              Samples.four_bins 7 100 5) as (st & blocks & Hst & Htr & _).
  - lia.
  - repeat constructor.
  - exists st, blocks. split; assumption.
Defined.

(** ** A scenario: schedule, costs and savings *)

Lemma greedy_run_delivered (sessions : list Session)
    (time_index : list Timestamp) (bin_minutes : Z) (cap : Q) (maxc : Z)
    (st : Greedy) :
  Forall (λ s, 0 <= energy_kwh s) sessions →
  greedy_run sessions time_index bin_minutes cap maxc = Some st →
  sumQ (d_deliver <$> g_trace st) <= sumQ (energy_kwh <$> sessions).
Proof.
  intros Hvalid Hst. unfold greedy_run in Hst.
  pose proof (stable_sort_Permutation (session_before bin_minutes) sessions)
    as Hperm.
  apply greedy_sessions_delivered in Hst.
  - change (sumQ (d_deliver <$> g_trace (greedy_init time_index)))
      with 0 in Hst.
    rewrite (sumQ_Permutation
               (energy_kwh <$> sort_sessions bin_minutes sessions)
               (energy_kwh <$> sessions)) in Hst; [lra|].
    apply fmap_Permutation. exact Hperm.
  - unfold sort_sessions. rewrite Hperm. exact Hvalid.
Qed.

Lemma session_bins_subseteq (time_index : list Timestamp) (s : Session)
    (t : Timestamp) :
  t ∈ session_bins time_index s → t ∈ time_index.
Proof.
  unfold session_bins. rewrite list_elem_of_filter. tauto.
Qed.

(** The energy held by the load curve is the energy of the deliveries. *)
Lemma greedy_run_curve (sessions : list Session)
    (time_index : list Timestamp) (bin_minutes : Z) (cap : Q) (maxc : Z)
    (st : Greedy) :
  (0 < bin_minutes)%Z → NoDup time_index →
  greedy_run sessions time_index bin_minutes cap maxc = Some st →
  index (g_load st) = time_index
  ∧ curve_kwh bin_minutes (g_load st) == sumQ (d_deliver <$> g_trace st).
Proof.
  intros Hbin Hnd Hrun. unfold greedy_run in Hrun.
  eapply (greedy_sessions_inv
            (λ st, index (g_load st) = time_index
                   ∧ curve_kwh bin_minutes (g_load st)
                     == sumQ (d_deliver <$> g_trace st)));
    [|exact Hrun|].
  - intros s st0 st1 _ Hs [Hidx Hsum].
    destruct (greedy_session_inv
                (λ a, (index (g_load (a_state a)) = time_index
                       ∧ curve_kwh bin_minutes (g_load (a_state a))
                         == sumQ (d_deliver <$> g_trace (a_state a)))
                      ∧ ∀ t, t ∈ a_bins a → t ∈ time_index)
                time_index bin_minutes cap maxc st0 st1 s)
      as (a & <- & Ha & _); [| |exact Hs|exact Ha].
    + intros a t _ Hc [[Hidx' Hsum'] Hsub].
      apply choose_bin_Some in Hc as (Ht & _).
      split; [split|].
      * simpl. exact Hidx'.
      * unfold curve_kwh in *. simpl.
        rewrite Hidx' in *.
        rewrite sum_loc_set_loc by (auto; apply Hsub; exact Ht).
        rewrite fmap_app, sumQ_app. unfold sumQ at 3. simpl.
        pose proof (div_bin_hours_mul
                      (deliver_kwh (a_needed a) (max_kw s) bin_minutes)
                      _ Hbin) as Hd.
        set (u := deliver_kwh (a_needed a) (max_kw s) bin_minutes
                  / bin_hours bin_minutes) in *.
        set (S0 := sumQ (loc 0 (g_load (a_state a)) <$> time_index)) in *.
        assert ((S0 - loc 0 (g_load (a_state a)) t
                 + (loc 0 (g_load (a_state a)) t + u))
                * bin_hours bin_minutes
                == S0 * bin_hours bin_minutes + u * bin_hours bin_minutes)
          as E by ring.
        rewrite E, Hd, Hsum'. ring.
      * intros t' Ht'. apply Hsub. eapply list_remove_subseteq. exact Ht'.
    + simpl. split; [split; assumption|].
      intros t. apply session_bins_subseteq.
  - split; [reflexivity|]. unfold curve_kwh. simpl.
    change (sumQ (d_deliver <$> [])) with 0.
    assert (sumQ (loc 0 (series_new 0 time_index) <$> time_index) == 0)
      as ->; [|ring].
    clear. generalize time_index at 2. intros l.
    induction l as [|t l IH]; [reflexivity|].
    rewrite fmap_cons, sumQ_cons, loc_series_new, IH. ring.
Qed.

(** X16.  A scenario run with a grid without repeated labels, a bin width
    of 1 minute or more, limits that are not negative and sessions asking
    for non-negative energy always yields its four results; the costs are
    those of the returned load curve; the reported peak is at most the
    depot power cap, so the demand charge is at most the cap times the
    demand rate; the reported energy is at most the energy the sessions
    ask for; and the absolute saving is the difference of the total
    costs. *)
Theorem scenario_costs_respect_cap (sessions : list Session)
    (idx : list Timestamp) (bin_minutes : Z) (tariff : Tariff)
    (max_concurrent : Z) (base_costs : CostBreakdown) (cap_kw : Q) :
  (0 < bin_minutes)%Z →
  NoDup idx →
  0 <= cap_kw → (0 ≤ max_concurrent)%Z →
  Forall (λ s, 0 <= energy_kwh s) sessions →
  0 <= demand_charge_per_kw tariff →
  ∃ schedule load costs sv,
    scenario sessions idx bin_minutes tariff max_concurrent base_costs
      cap_kw = Some (schedule, load, costs, sv)
    ∧ greedy_optimize_schedule sessions idx bin_minutes cap_kw
        max_concurrent = Some (schedule, load)
    ∧ costs = estimate_costs load tariff bin_minutes
    ∧ peak_kw costs <= cap_kw
    ∧ demand_charge_cost costs <= cap_kw * demand_charge_per_kw tariff
    ∧ total_kwh costs <= sumQ (energy_kwh <$> sessions)
    ∧ total_cost_savings sv = total_cost base_costs - total_cost costs.
Proof.
  intros Hbin Hnd Hcap Hmax Hvalid Hdem.
  destruct (greedy_run_total sessions idx bin_minutes cap_kw max_concurrent)
    as [st Hst].
  set (costs := estimate_costs (g_load st) tariff bin_minutes).
  destruct (reduction_pct_total (peak_kw costs) (peak_kw base_costs))
    as (p & Hp & _).
  destruct (reduction_pct_total (total_cost costs) (total_cost base_costs))
    as (c & Hc & _).
  exists (g_rows st), (g_load st), costs,
    (mkSavings p (total_cost base_costs - total_cost costs) c).
  assert (greedy_optimize_schedule sessions idx bin_minutes cap_kw
            max_concurrent = Some (g_rows st, g_load st)) as Hgos.
  { unfold greedy_optimize_schedule. rewrite Hst. reflexivity. }
  split.
  { assert (savings base_costs costs
            = Some (mkSavings p (total_cost base_costs - total_cost costs)
                      c)) as Hsv.
    { unfold savings. rewrite Hp, Hc. reflexivity. }
    assert (scenario sessions idx bin_minutes tariff max_concurrent
              base_costs cap_kw
            = (sv ← savings base_costs costs;
               Some (g_rows st, g_load st, costs, sv))) as ->.
    { unfold scenario. rewrite Hgos. reflexivity. }
    rewrite Hsv. reflexivity. }
  split; [exact Hgos|]. split; [reflexivity|].
  assert (peak_kw costs <= cap_kw) as Hpeak.
  { unfold costs. simpl.
    destruct (series_peak_spec (g_load st))
      as [_ [[_ ->]|(t & _ & ->)]]; [exact Hcap|].
    apply (greedy_run_within_limits _ _ _ _ _ _ Hbin Hcap Hmax Hst). }
  split; [exact Hpeak|]. split.
  { unfold costs in *. simpl in *.
    apply Qmult_le_compat_r; assumption. }
  split; [|reflexivity].
  destruct (estimate_costs_sums (g_load st) tariff bin_minutes)
    as [Htot _]. fold costs in Htot. rewrite Htot.
  destruct (greedy_run_curve _ _ _ _ _ _ Hbin Hnd Hst) as [_ ->].
  eapply greedy_run_delivered; eassumption.
Qed.

Lemma scenario_costs_respect_cap_witness :
  ∃ schedule load costs sv,
    scenario [Samples.ten_kwh] Samples.four_bins 7
      Samples.overlapping_tariff 5 (mkCosts 0 0 0 0 0) 100
    = Some (schedule, load, costs, sv)
    ∧ peak_kw costs <= 100.
Proof.
  destruct (scenario_costs_respect_cap [Samples.ten_kwh] Samples.four_bins
              7 Samples.overlapping_tariff 5 (mkCosts 0 0 0 0 0) 100)
    as (schedule & load & costs & sv & Hrun & _ & _ & Hpeak & _).
  - lia.
  - apply make_time_index_NoDup.
  - vm_compute. discriminate.
  - lia.
  - repeat constructor. vm_compute. discriminate.
  - vm_compute. discriminate.
  - exists schedule, load, costs, sv. split; assumption.
Defined.

(** ** The priority sort keeps the input order of ties *)

Lemma insert_sorted_filter {A} (before : A → A → bool) (P : A → Prop)
    `{∀ x, Decision (P x)} (x : A) (l : list A) :
  (∀ a b, P a → P b → before a b = true) →
  filter P (insert_sorted before x l) = filter P (x :: l).
Proof.
  intros Hclass. induction l as [|y l IH]; simpl; [reflexivity|].
  destruct (before x y) eqn:E; [reflexivity|].
  rewrite (filter_cons _ y), IH, !(filter_cons _ x), (filter_cons _ y).
  destruct (decide (P x)) as [Hx|Hx]; [|reflexivity].
  destruct (decide (P y)) as [Hy|Hy]; [|reflexivity].
  rewrite (Hclass x y Hx Hy) in E. discriminate E.
Qed.

Lemma stable_sort_filter {A} (before : A → A → bool) (P : A → Prop)
    `{∀ x, Decision (P x)} (l : list A) :
  (∀ a b, P a → P b → before a b = true) →
  filter P (stable_sort before l) = filter P l.
Proof.
  intros Hclass. induction l as [|x l IH]; simpl; [reflexivity|].
  rewrite insert_sorted_filter by exact Hclass.
  rewrite !(filter_cons _ x), IH. reflexivity.
Qed.

(** X17.  The priority sort is stable: sessions with the same tightness
    and the same [earliest_start] are processed in their input order. *)
Theorem sort_sessions_keeps_order_of_ties (bin_minutes : Z)
    (sessions : list Session) (s0 : Session) :
  filter (same_priority bin_minutes s0) (sort_sessions bin_minutes sessions)
  = filter (same_priority bin_minutes s0) sessions.
Proof.
  unfold sort_sessions. apply stable_sort_filter.
  intros a b [Ha Ha'] [Hb Hb']. apply session_before_iff. right.
  split; [rewrite <- Ha, <- Hb; reflexivity | lia].
Qed.

(** ** The savings figures *)

(** X18.  When the baseline total cost is not 0, the savings percentage
    times the baseline cost is 100 times the absolute saving, and
    likewise for the peak; with positive baselines a percentage is
    negative exactly when the scenario costs more (or peaks higher) than
    the baseline, and is at most 100 when the scenario figure is not
    negative. *)
Theorem savings_percentages_agree (base_costs costs : CostBreakdown) :
  ¬ total_cost base_costs == 0 →
  ¬ peak_kw base_costs == 0 →
  ∃ sv,
    savings base_costs costs = Some sv
    ∧ total_cost_savings sv = total_cost base_costs - total_cost costs
    ∧ total_cost_savings_pct sv * total_cost base_costs
      == 100 * total_cost_savings sv
    ∧ peak_kw_reduction_pct sv * peak_kw base_costs
      == 100 * (peak_kw base_costs - peak_kw costs)
    ∧ (0 < total_cost base_costs →
       (total_cost_savings_pct sv < 0
        ↔ total_cost base_costs < total_cost costs)
       ∧ (0 <= total_cost costs → total_cost_savings_pct sv <= 100))
    ∧ (0 < peak_kw base_costs →
       (peak_kw_reduction_pct sv < 0 ↔ peak_kw base_costs < peak_kw costs)
       ∧ (0 <= peak_kw costs → peak_kw_reduction_pct sv <= 100)).
Proof.
  intros Hc Hp.
  assert (∀ c b, ¬ b == 0 →
            reduction_pct c b = Some ((1 - c / b) * 100)) as Hred.
  { intros c b Hb. unfold reduction_pct, truthy, py_div.
    apply Qeq_bool_false in Hb. rewrite Hb. reflexivity. }
  assert (∀ c b, ¬ b == 0 → (1 - c / b) * 100 * b == 100 * (b - c))
    as Hid.
  { intros c b Hb. field. exact Hb. }
  assert (∀ c b, 0 < b →
            ((1 - c / b) * 100 < 0 ↔ b < c)
            ∧ (0 <= c → (1 - c / b) * 100 <= 100)) as Hsign.
  { intros c b Hb.
    assert (c / b * b == c) as Hdiv by (field; lra).
    split.
    - split; intros H.
      + assert (1 < c / b) as H1 by lra.
        assert (1 * b < c / b * b) as H2
          by (apply Qmult_lt_compat_r; assumption).
        lra.
      + assert (1 < c / b); [|lra].
        apply Qlt_shift_div_l; [exact Hb | lra].
    - intros H0. assert (0 <= c / b); [|lra].
      apply Qle_shift_div_l; [exact Hb | lra]. }
  exists (mkSavings ((1 - peak_kw costs / peak_kw base_costs) * 100)
            (total_cost base_costs - total_cost costs)
            ((1 - total_cost costs / total_cost base_costs) * 100)).
  split.
  { unfold savings. rewrite (Hred _ _ Hp), (Hred _ _ Hc). reflexivity. }
  simpl. split; [reflexivity|].
  split; [apply Hid; exact Hc|]. split; [apply Hid; exact Hp|].
  split; intros Hpos; apply Hsign; exact Hpos.
Qed.

Lemma savings_percentages_agree_witness :
  ∃ sv,
    savings (mkCosts 10 4 20 8 28) (mkCosts 10 2 15 4 19) = Some sv
    ∧ total_cost_savings_pct sv * 28 == 100 * total_cost_savings sv.
Proof.
  destruct (savings_percentages_agree (mkCosts 10 4 20 8 28)
              (mkCosts 10 2 15 4 19)) as (sv & Hsv & _ & Hid & _).
  - vm_compute. discriminate.
  - vm_compute. discriminate.
  - exists sv. split; [exact Hsv | exact Hid].
Defined.

(** ** The grid of the day and the summary of [main] *)

Lemma foldl_min_spec (v : Z) (l : list Z) :
  (foldl Z.min v l ≤ v)%Z
  ∧ Forall (λ x, (foldl Z.min v l ≤ x)%Z) l
  ∧ foldl Z.min v l ∈ v :: l.
Proof.
  revert v. induction l as [|x l IH]; intros v; simpl.
  - split; [lia|]. split; [constructor | left].
  - destruct (IH (Z.min v x)) as (H1 & H2 & H3).
    split; [lia|]. split.
    + constructor; [lia | exact H2].
    + apply elem_of_cons in H3 as [H3|H3]; [|right; right; exact H3].
      rewrite H3. destruct (Z.min_spec v x) as [[_ ->]|[_ ->]];
        [left | right; left].
Qed.

Lemma floor_day_spec (ts : Timestamp) :
  (floor_day ts mod ns_per_day = 0)%Z
  ∧ (floor_day ts ≤ ts < floor_day ts + ns_per_day)%Z.
Proof.
  unfold floor_day.
  assert (0 < ns_per_day)%Z as Hd by reflexivity.
  pose proof (Z.mod_pos_bound ts ns_per_day Hd).
  pose proof (Z.div_mod ts ns_per_day ltac:(lia)) as Hdm.
  split; [|lia].
  replace (ts - ts mod ns_per_day)%Z with ((ts / ns_per_day) * ns_per_day)%Z
    by lia.
  apply Z.mod_mul. lia.
Qed.

Lemma grid_size_day (t0 : Timestamp) (bin_minutes : Z) :
  (0 < bin_minutes)%Z →
  grid_size t0 (t0 + ns_per_day) bin_minutes = bins_per_day bin_minutes.
Proof.
  intros Hbin. unfold grid_size, bins_per_day, timedelta_minutes. f_equal.
  replace (t0 + ns_per_day - t0 + bin_minutes * ns_per_minute - 1)%Z
    with (1440 * ns_per_minute + bin_minutes * ns_per_minute - 1)%Z
    by (unfold ns_per_day, ns_per_hour; lia).
  assert (0 < ns_per_minute)%Z as HM by reflexivity.
  set (M := ns_per_minute) in *.
  pose proof (Z.div_mod (1440 + bin_minutes - 1) bin_minutes ltac:(lia))
    as Hdm.
  pose proof (Z.mod_pos_bound (1440 + bin_minutes - 1) bin_minutes Hbin)
    as Hr.
  set (q := ((1440 + bin_minutes - 1) / bin_minutes)%Z) in *.
  set (r := ((1440 + bin_minutes - 1) mod bin_minutes)%Z) in *.
  symmetry. apply (Z.div_unique _ _ _ (r * M + M - 1)%Z); [left; nia | nia].
Qed.

(** X19.  For at least one session and a bin width of 1 minute or more,
    the grid built by [main] starts at a midnight [t0] that is not after
    any session's [earliest_start], and the earliest arrival falls within
    its 24 hours; the grid has [ceil(1440 / bin_minutes)] bins, the first
    of which starts at [t0].  Without sessions no grid is built. *)
Theorem day_time_index_covers_first_arrival (sessions : list Session)
    (bin_minutes : Z) :
  (0 < bin_minutes)%Z →
  (sessions ≠ [] →
   ∃ t0,
     day_time_index sessions bin_minutes
     = Some (make_time_index t0 (t0 + ns_per_day) bin_minutes)
     ∧ (t0 mod ns_per_day = 0)%Z
     ∧ Forall (λ s, (t0 ≤ earliest_start s)%Z) sessions
     ∧ Exists (λ s, (earliest_start s < t0 + ns_per_day)%Z) sessions
     ∧ make_time_index t0 (t0 + ns_per_day) bin_minutes !! 0%nat = Some t0
     ∧ length (make_time_index t0 (t0 + ns_per_day) bin_minutes)
       = bins_per_day bin_minutes)
  ∧ day_time_index [] bin_minutes = None.
Proof.
  intros Hbin. split; [|reflexivity].
  intros Hne. destruct sessions as [|s rest]; [contradiction|].
  set (m := foldl Z.min (earliest_start s) (earliest_start <$> rest)).
  destruct (foldl_min_spec (earliest_start s) (earliest_start <$> rest))
    as (Hm1 & Hm2 & Hm3). fold m in Hm1, Hm2, Hm3.
  destruct (floor_day_spec m) as [Hmid Hrange].
  exists (floor_day m). split; [reflexivity|]. split; [exact Hmid|].
  split.
  { constructor; [lia|]. rewrite Forall_fmap in Hm2.
    eapply Forall_impl; [exact Hm2|]. intros x Hx. simpl in Hx. lia. }
  split.
  { apply elem_of_cons in Hm3 as [Hm3|Hm3].
    - apply Exists_cons. left. lia.
    - apply list_elem_of_fmap in Hm3 as (x & Hx & Hin).
      apply Exists_cons. right. apply Exists_exists.
      exists x. split; [exact Hin | lia]. }
  split.
  { apply make_time_index_lookup; [exact Hbin|].
    assert (0 < ns_per_day)%Z by reflexivity. simpl. lia. }
  unfold make_time_index, date_range_left.
  destruct (Z.ltb_spec 0 bin_minutes) as [_|?]; [|lia].
  rewrite length_fmap, length_seq. apply grid_size_day. exact Hbin.
Qed.

Lemma day_time_index_covers_first_arrival_witness :
  ∃ t0,
    day_time_index [Samples.arrives_1805; Samples.one_hour_8kwh] 15
    = Some (make_time_index t0 (t0 + ns_per_day) 15)
    ∧ length (make_time_index t0 (t0 + ns_per_day) 15) = 96%nat.
Proof.
  destruct (day_time_index_covers_first_arrival
              [Samples.arrives_1805; Samples.one_hour_8kwh] 15 ltac:(lia))
    as [Hsome _].
  destruct Hsome as (t0 & Hidx & _ & _ & _ & _ & Hlen); [discriminate|].
  exists t0. split; [exact Hidx | exact Hlen].
Defined.




(** ** The schedule, the load curve and the reported energy *)

Lemma sumQ_round3_lower (l : list Q) :
  sumQ l - (1 # 2000) * inject_Z (Z.of_nat (length l))
  <= sumQ (round3 <$> l).
Proof.
  induction l as [|x l IH].
  - vm_compute. discriminate.
  - rewrite fmap_cons, !sumQ_cons. simpl length.
    rewrite Nat2Z.inj_succ, <- Z.add_1_r, inject_Z_plus.
    change (inject_Z 1) with 1.
    destruct (round3_close x) as [_ [Hx _]]. lra.
Qed.

(** X21.  For a grid without repeated labels and a bin width of 1 minute
    or more, the energy of the returned load curve, which is the
    [total_kwh] that [estimate_costs] reports for it, equals the sum of
    the unrounded energies delivered; the sum of the [kwh] column of the
    returned schedule differs from it by at most 0.0005 kWh per row. *)
Theorem greedy_reported_energy_is_delivered (sessions : list Session)
    (time_index : list Timestamp) (bin_minutes : Z) (tariff : Tariff)
    (depot_power_cap_kw : Q) (max_concurrent_chargers : Z) :
  (0 < bin_minutes)%Z →
  NoDup time_index →
  ∃ st,
    greedy_run sessions time_index bin_minutes depot_power_cap_kw
      max_concurrent_chargers = Some st
    ∧ greedy_optimize_schedule sessions time_index bin_minutes
        depot_power_cap_kw max_concurrent_chargers
      = Some (g_rows st, g_load st)
    ∧ index (g_load st) = time_index
    ∧ total_kwh (estimate_costs (g_load st) tariff bin_minutes)
      == sumQ (d_deliver <$> g_trace st)
    ∧ total_kwh (estimate_costs (g_load st) tariff bin_minutes)
      - (1 # 2000) * inject_Z (Z.of_nat (length (g_rows st)))
      <= sumQ (kwh <$> g_rows st)
      <= total_kwh (estimate_costs (g_load st) tariff bin_minutes)
         + (1 # 2000) * inject_Z (Z.of_nat (length (g_rows st))).
Proof.
  intros Hbin Hnd.
  destruct (greedy_run_total sessions time_index bin_minutes
              depot_power_cap_kw max_concurrent_chargers) as [st Hst].
  exists st. split; [exact Hst|]. split.
  { unfold greedy_optimize_schedule. rewrite Hst. reflexivity. }
  destruct (greedy_run_curve _ _ _ _ _ _ Hbin Hnd Hst) as [Hidx Hcurve].
  split; [exact Hidx|].
  destruct (estimate_costs_sums (g_load st) tariff bin_minutes)
    as [Htot _].
  assert (total_kwh (estimate_costs (g_load st) tariff bin_minutes)
          == sumQ (d_deliver <$> g_trace st)) as Heq
    by (rewrite Htot; exact Hcurve).
  split; [exact Heq|].
  destruct (greedy_run_accounts_for_trace _ _ _ _ _ _ Hst) as [Hrows _].
  rewrite Hrows, length_fmap.
  replace (kwh <$> (row_of_delivery <$> g_trace st))
    with (round3 <$> (d_deliver <$> g_trace st))
    by (rewrite <- !list_fmap_compose; reflexivity).
  pose proof (sumQ_round3 (d_deliver <$> g_trace st)) as Hup.
  pose proof (sumQ_round3_lower (d_deliver <$> g_trace st)) as Hlo.
  rewrite length_fmap in Hup, Hlo. rewrite Heq. split; assumption.
Qed.

Lemma greedy_reported_energy_is_delivered_witness :
  ∃ st,
    greedy_run [Samples.ten_kwh] Samples.four_bins 7 100 5 = Some st
    ∧ total_kwh (estimate_costs (g_load st) Samples.overlapping_tariff 7)
      == sumQ (d_deliver <$> g_trace st).
Proof.
  destruct (greedy_reported_energy_is_delivered [Samples.ten_kwh]
              Samples.four_bins 7 Samples.overlapping_tariff 100 5)
    as (st & Hst & _ & _ & Heq & _).
  - lia.
  - apply make_time_index_NoDup.
  - exists st. split; assumption.
Defined.

(** ** Limits that do not bind *)




